(** * u_monitor: watching the output of a target and reporting the results

    A shallow embedding of
    [port/platform/common/automation/u_monitor.py]: the recognizer table
    [INTERESTING] with its handlers, the line reader [pwar_readline], the
    watching loop [watch_items] and the report written by [main]. *)

From Stdlib Require Import String Ascii List Bool Arith ZArith QArith Qround Lia.
From Stdlib Require Import DecimalString.
From Stdlib Require Import Lqa.
Import ListNotations.

Local Open Scope string_scope.

(** ** Python's [re.match], for the constructs the recognizer table uses *)

Module Re.

(** A character range [lo-hi] of a set; a single character [c] is [c-c]. *)
Definition range : Type := (ascii * ascii)%type.

Inductive regex : Type :=
| Empty                                        (* the empty pattern *)
| Lit (c : ascii)                              (* a literal character *)
| AnyChar                                      (* .   (not a newline) *)
| InSet (negated : bool) (rs : list range)     (* [...] and [^...] *)
| Seq (r1 r2 : regex)
| Star (greedy : bool) (r : regex)             (* r* and r*? *)
| Group (n : nat) (r : regex)                  (* the n-th ( ... ) *)
| Look (r : regex)                             (* (?= ... ) *)
| Bol                                          (* ^ *)
| Eol.                                         (* $ *)

(** [r+] is [rr*]. *)
Definition Plus (greedy : bool) (r : regex) : regex := Seq r (Star greedy r).

(** A literal string. *)
Fixpoint Str (s : string) : regex :=
  match s with
  | EmptyString => Empty
  | String c s' => Seq (Lit c) (Str s')
  end.

Definition newline : ascii := ascii_of_nat 10.

Definition in_range (c : ascii) (r : range) : bool :=
  (nat_of_ascii (fst r) <=? nat_of_ascii c)%nat
  && (nat_of_ascii c <=? nat_of_ascii (snd r))%nat.

Definition in_set (negated : bool) (rs : list range) (c : ascii) : bool :=
  xorb negated (existsb (in_range c) rs).

(** The matcher's position: how many characters lie before it, what is
    left of the line, and the groups captured on the way. *)
Record cursor : Type := mkCursor {
  before : nat;
  rest : string;
  groups : list (nat * string)
}.

Definition advance (c : cursor) (s : string) : cursor :=
  {| before := S (before c); rest := s; groups := groups c |}.

Definition set_group (n : nat) (from to : cursor) : cursor :=
  {| before := before to;
     rest := rest to;
     groups := (n, substring 0 (before to - before from) (rest from))
                 :: groups to |}.

Definition one (p : ascii -> bool) (c : cursor)
           (k : cursor -> option cursor) : option cursor :=
  match rest c with
  | String a s => if p a then k (advance c s) else None
  | EmptyString => None
  end.

(** [r*] and [r*?] around one round [step] of [r]: a greedy star tries
    one more round first, a lazy one tries to stop first. A round that
    takes no character is not repeated. *)
Fixpoint star_loop (step : cursor -> (cursor -> option cursor) -> option cursor)
         (greedy : bool) (k : cursor -> option cursor)
         (fuel : nat) (c0 : cursor) {struct fuel} : option cursor :=
  match fuel with
  | O => k c0
  | S fuel' =>
      let again c1 :=
        if (String.length (rest c1) <? String.length (rest c0))%nat
        then star_loop step greedy k fuel' c1 else None in
      if greedy then
        match step c0 again with
        | Some m => Some m
        | None => k c0
        end
      else
        match k c0 with
        | Some m => Some m
        | None => step c0 again
        end
  end.

(** A backtracking matcher in continuation-passing style: [k] is what is
    left to match; the alternatives are tried in the order in which
    Python's engine tries them. *)
Fixpoint run (r : regex) (c : cursor) (k : cursor -> option cursor)
  {struct r} : option cursor :=
  match r with
  | Empty => k c
  | Lit a => one (Ascii.eqb a) c k
  | AnyChar => one (fun b => negb (Ascii.eqb b newline)) c k
  | InSet negated rs => one (in_set negated rs) c k
  | Seq r1 r2 => run r1 c (fun c1 => run r2 c1 k)
  | Star greedy r1 =>
      star_loop (run r1) greedy k (String.length (rest c)) c
  | Group n r1 => run r1 c (fun c1 => k (set_group n c c1))
  | Look r1 =>
      match run r1 c Some with
      | Some c1 => k {| before := before c; rest := rest c;
                        groups := groups c1 |}
      | None => None
      end
  | Bol => if (before c =? 0)%nat then k c else None
  | Eol => if String.eqb (rest c) "" ||
              String.eqb (rest c) (String newline "")
           then k c else None
  end.

(** A match object: the line and where the match ended. *)
Record rmatch : Type := mkMatch {
  subject : string;
  stop : cursor
}.

(** [re.match(pattern, line)]: the pattern has to match at the start of
    the line, and may stop anywhere. *)
Definition re_match (r : regex) (line : string) : option rmatch :=
  match run r {| before := 0; rest := line; groups := [] |} Some with
  | Some c => Some {| subject := line; stop := c |}
  | None => None
  end.

Fixpoint assoc (n : nat) (l : list (nat * string)) : option string :=
  match l with
  | [] => None
  | (i, s) :: l' => if (i =? n)%nat then Some s else assoc n l'
  end.

(** [match.group(n)]. In this fragment every group of a pattern takes
    part in every match, so [None] means that the pattern has no group
    [n], where Python raises [IndexError]. *)
Definition group (m : rmatch) (n : nat) : option string :=
  match n with
  | O => Some (substring 0 (before (stop m)) (subject m))
  | _ => assoc n (groups (stop m))
  end.

(** What a pattern can match, whatever the order of the search:
    [matches r c c'] when [r] can take the matcher from [c] to [c']. *)
Inductive matches : regex -> cursor -> cursor -> Prop :=
| MEmpty c : matches Empty c c
| MLit a c s :
    rest c = String a s -> matches (Lit a) c (advance c s)
| MAnyChar b c s :
    rest c = String b s -> Ascii.eqb b newline = false ->
    matches AnyChar c (advance c s)
| MInSet negated rs b c s :
    rest c = String b s -> in_set negated rs b = true ->
    matches (InSet negated rs) c (advance c s)
| MSeq r1 r2 c c1 c2 :
    matches r1 c c1 -> matches r2 c1 c2 -> matches (Seq r1 r2) c c2
| MStarStop greedy r c : matches (Star greedy r) c c
| MStarMore greedy r c c1 c2 :
    matches r c c1 -> matches (Star greedy r) c1 c2 ->
    matches (Star greedy r) c c2
| MGroup n r c c1 :
    matches r c c1 -> matches (Group n r) c (set_group n c c1)
| MLook r c c1 :
    matches r c c1 ->
    matches (Look r) c
            {| before := before c; rest := rest c; groups := groups c1 |}
| MBol c : before c = 0%nat -> matches Bol c c
| MEol c :
    rest c = "" \/ rest c = String newline "" -> matches Eol c c.

(** A pattern without groups. *)
Fixpoint plain (r : regex) : bool :=
  match r with
  | Seq r1 r2 => plain r1 && plain r2
  | Star _ r1 => plain r1
  | Group _ _ | Look _ => false
  | _ => true
  end.

(** [c'] lies [s] further into the line than [c]. *)
Definition took (c c' : cursor) (s : string) : Prop :=
  rest c = s ++ rest c' /\ before c' = (before c + String.length s)%nat.

End Re.

Import Re.

Definition digit : regex := InSet false [("0"%char, "9"%char)].
Definition not_dot : regex := InSet true [("."%char, "."%char)].

(** The patterns of [INTERESTING], each with the text it has in the source. *)

Definition src_abort : string := "abort()".
Definition re_abort : regex := Seq (Str "abort") (Group 1 Empty).

Definition src_guru : string := "Guru Meditation Error".
Definition re_guru : regex := Str "Guru Meditation Error".

Definition src_hardfault : string := "<error> hardfault".
Definition re_hardfault : regex := Str "<error> hardfault".

Definition src_zephyr : string := ">>> ZEPHYR FATAL ERROR".
Definition re_zephyr : regex := Str ">>> ZEPHYR FATAL ERROR".

Definition src_run : string := "(?:^.*Running) +([^\.]+(?=\.))...$".
Definition re_run : regex :=
  Seq (Seq Bol (Seq (Star true AnyChar) (Str "Running")))
   (Seq (Plus true (Lit " "))
    (Seq (Group 1 (Seq (Plus true not_dot) (Look (Lit "."))))
     (Seq AnyChar (Seq AnyChar (Seq AnyChar Eol))))).

Definition src_pass : string := "(?:^.*?(?:\.c:))(?:[0-9]*:)(.*?):PASS$".
Definition re_pass : regex :=
  Seq (Seq Bol (Seq (Star false AnyChar) (Str ".c:")))
   (Seq (Seq (Star true digit) (Lit ":"))
    (Seq (Group 1 (Star false AnyChar))
     (Seq (Str ":PASS") Eol))).

Definition src_fail : string := "(?:^.*?(?:\.c:))(?:[0-9]*:)(.*?):FAIL:".
Definition re_fail : regex :=
  Seq (Seq Bol (Seq (Star false AnyChar) (Str ".c:")))
   (Seq (Seq (Star true digit) (Lit ":"))
    (Seq (Group 1 (Star false AnyChar))
     (Str ":FAIL:"))).

Definition src_finish : string :=
  "(^[0-9]+) Test(?:s*) ([0-9]+) Failure(?:s*) ([0-9]+) Ignored".
Definition re_finish : regex :=
  Seq (Group 1 (Seq Bol (Plus true digit)))
   (Seq (Str " Test")
    (Seq (Star true (Lit "s"))
     (Seq (Lit " ")
      (Seq (Group 2 (Plus true digit))
       (Seq (Str " Failure")
        (Seq (Star true (Lit "s"))
         (Seq (Lit " ")
          (Seq (Group 3 (Plus true digit))
           (Str " Ignored"))))))))).

(** ** The Python values the monitor computes with *)

(** Exceptions that the modelled code raises or catches. *)
Inductive exn : Type :=
| SerialException
| EOFError
| IndexError
| ValueError.

Definition digit_value (c : ascii) : option Z :=
  let n := nat_of_ascii c in
  if ((48 <=? n) && (n <=? 57))%nat then Some (Z.of_nat n - 48)%Z else None.

Fixpoint int_digits (acc : Z) (s : string) : option Z :=
  match s with
  | EmptyString => Some acc
  | String c s' =>
      match digit_value c with
      | Some d => int_digits (10 * acc + d)%Z s'
      | None => None
      end
  end.

(** [sys.get_int_max_str_digits()], as CPython sets it when it starts:
    the most digits that [int] takes from a string. *)
Definition int_max_str_digits : nat := 4300.

(** [int(s)] for a string of decimal digits, which is all that the groups
    of the summary pattern can hold; [None] stands for [ValueError], which
    [int] raises for the empty string, for a character that is no digit
    and for a string of more than [int_max_str_digits] digits, leading
    zeros counted. *)
Definition py_int (s : string) : option Z :=
  match s with
  | EmptyString => None
  | _ => if (int_max_str_digits <? String.length s)%nat then None
         else int_digits 0 s
  end.

(** [str(n)], as [format] prints an integer. *)
Definition py_str (n : Z) : string := NilZero.string_of_int (Z.to_int n).

(** [bool(x)] of an optional number: [None] and [0] count as false. *)
Definition truthy (x : option Z) : bool :=
  match x with
  | Some n => negb (n =? 0)%Z
  | None => false
  end.

(** [int(ceil(x))]. *)
Definition ceil (x : Q) : Z := Qceiling x.

(** ** The results dictionary *)

(** An outcome is the list [[name, duration, status]]. *)
Record Outcome : Type := mkOutcome {
  name : string;
  duration : Z;
  status : string
}.

Record Results : Type := mkResults {
  finished : bool;
  reboots : Z;
  items_run : Z;
  items_failed : Z;
  items_ignored : Z;
  overall_start_time : Q;
  last_start_time : Q;
  outcomes : list Outcome
}.

Definition set_finished (b : bool) (r : Results) : Results :=
  mkResults b (reboots r) (items_run r) (items_failed r) (items_ignored r)
            (overall_start_time r) (last_start_time r) (outcomes r).
Definition set_reboots (n : Z) (r : Results) : Results :=
  mkResults (finished r) n (items_run r) (items_failed r) (items_ignored r)
            (overall_start_time r) (last_start_time r) (outcomes r).
Definition set_items_run (n : Z) (r : Results) : Results :=
  mkResults (finished r) (reboots r) n (items_failed r) (items_ignored r)
            (overall_start_time r) (last_start_time r) (outcomes r).
Definition set_items_failed (n : Z) (r : Results) : Results :=
  mkResults (finished r) (reboots r) (items_run r) n (items_ignored r)
            (overall_start_time r) (last_start_time r) (outcomes r).
Definition set_items_ignored (n : Z) (r : Results) : Results :=
  mkResults (finished r) (reboots r) (items_run r) (items_failed r) n
            (overall_start_time r) (last_start_time r) (outcomes r).
Definition set_overall_start_time (t : Q) (r : Results) : Results :=
  mkResults (finished r) (reboots r) (items_run r) (items_failed r)
            (items_ignored r) t (last_start_time r) (outcomes r).
Definition set_last_start_time (t : Q) (r : Results) : Results :=
  mkResults (finished r) (reboots r) (items_run r) (items_failed r)
            (items_ignored r) (overall_start_time r) t (outcomes r).
Definition set_outcomes (l : list Outcome) (r : Results) : Results :=
  mkResults (finished r) (reboots r) (items_run r) (items_failed r)
            (items_ignored r) (overall_start_time r) (last_start_time r) l.

(** [results] as [main] creates it. *)
Definition new_results : Results :=
  mkResults false 0 0 0 0 0 0 [].

(** ** The world around the monitor *)

(** What [printer.string] is given. The text of a message is not modelled,
    only which message it is and the values formatted into it. *)
Inductive LogMsg : Type :=
| LogWatching
| LogLine (line : string)
| LogReboot
| LogStarted (item : string) (at_time : Q)
| LogPassed (item : string) (at_time : Q) (seconds : Z)
| LogFailed (item : string) (at_time : Q) (seconds : Z)
| LogCompleted (at_time : Q) (run failed ignored : Z)
| LogGuardExpired
| LogInactivityExpired
| LogException (e : exn)
| LogWritingReport
| LogEnd (return_value : Z).

(** What the reporter is told. *)
Inductive Event : Type :=
| EventTestError
| EventTestPassed (item : string) (seconds : Z)
| EventTestFailed (item : string) (seconds : Z)
| EventSuiteCompleted (run failed ignored : Z).

(** Why the condition of the watching loop became false: the first of its
    four conjuncts that failed. *)
Inductive LoopExit : Type :=
| ExitCancelled        (* u_utils.keep_going() returned False *)
| ExitFinished         (* results["finished"] was set *)
| ExitGuard            (* the guard time had passed *)
| ExitInactivity.      (* the inactivity time had passed *)

(** Which of the two timers the code after the loop found expired. *)
Inductive Expiry : Type :=
| GuardExpired
| InactivityExpired.

Record World : Type := mkWorld {
  results : Results;             (* the dictionary shared with the handlers *)
  ticks : nat;                   (* calls of time() so far *)
  prints : nat;                  (* calls of printer.string() so far *)
  log : list LogMsg;             (* what the printer was given *)
  events : list Event;           (* what the reporter was given *)
  timers : nat;                  (* delayed_finish timers started *)
  pump_started : bool;           (* readline_thread.start() *)
  pump_joined : bool;            (* readline_thread.join() *)
  report : list string;          (* what was written to the report handle *)
  loop_exit : option LoopExit;   (* ghost: why the watching loop ended *)
  expired : option Expiry        (* ghost: the timer found expired after it *)
}.

Definition with_results (f : Results -> Results) (w : World) : World :=
  mkWorld (f (results w)) (ticks w) (prints w) (log w) (events w) (timers w)
          (pump_started w) (pump_joined w) (report w) (loop_exit w) (expired w).

Definition new_world : World :=
  mkWorld new_results 0 0 [] [] 0 false false [] None None.

(** The result of running a piece of the monitor: a value, an exception, or
    [Pending] when the trace of the environment ends while the watching loop
    is still going round. *)
Inductive Res (A : Type) : Type :=
| Ok (a : A)
| Raise (e : exn)
| Pending.
Arguments Ok {A} a.
Arguments Raise {A} e.
Arguments Pending {A}.

(** State is kept when an exception is raised, as in Python. *)
Definition M (A : Type) : Type := World -> Res A * World.

Definition ret {A : Type} (a : A) : M A := fun w => (Ok a, w).

Definition bind {A B : Type} (c : M A) (f : A -> M B) : M B :=
  fun w =>
    match c w with
    | (Ok a, w') => f a w'
    | (Raise e, w') => (Raise e, w')
    | (Pending, w') => (Pending, w')
    end.

Definition raise {A : Type} (e : exn) : M A := fun w => (Raise e, w).

(** [try: c  except (serial.SerialException, EOFError): h]. *)
Definition try_except {A : Type} (c : M A) (h : exn -> M A) : M A :=
  fun w =>
    match c w with
    | (Raise SerialException, w') => h SerialException w'
    | (Raise EOFError, w') => h EOFError w'
    | other => other
    end.

Declare Scope monitor_scope.
Delimit Scope monitor_scope with monitor.
Notation "x <- c ;; k" := (bind c (fun x => k))
  (at level 61, c at next level, right associativity) : monitor_scope.
Notation "c ;; k" := (bind c (fun _ => k))
  (at level 61, right associativity) : monitor_scope.
Local Open Scope monitor_scope.

Definition get_results : M Results := fun w => (Ok (results w), w).
Definition update (f : Results -> Results) : M unit :=
  fun w => (Ok tt, with_results f w).
Definition when (b : bool) (c : M unit) : M unit := if b then c else ret tt.

(** What one turn of the watching loop meets in its environment: the
    other threads and [u_utils.keep_going], which is not part of this
    file. *)
Record Turn : Type := mkTurn {
  keep_going : bool;       (* what u_utils.keep_going(keep_going_flag, ...)
                              returns: False once cancellation is asked *)
  timer_fired : bool;      (* a delayed_finish timer thread has run *)
  queued : option string   (* read_queue.get(timeout=0.5): a line, or
                              queue.Empty *)
}.

Section Monitor.

(** The clock: [now n] is what the [n]-th call of [time()] returns, in
    seconds. Python's floating-point numbers are taken as exact
    rationals. *)
Variable now : nat -> Q.

(** The printer: [printer_raises n] is the exception that its [n]-th call
    raises, if any (the printer hands its text to a queue of another
    process, which can be gone). *)
Variable printer_raises : nat -> option exn.

Definition time : M Q :=
  fun w => (Ok (now (ticks w)),
            mkWorld (results w) (S (ticks w)) (prints w) (log w) (events w) (timers w)
                    (pump_started w) (pump_joined w) (report w)
                    (loop_exit w) (expired w)).

Definition printer_string (msg : LogMsg) : M unit :=
  fun w =>
    match printer_raises (prints w) with
    | Some e => (Raise e,
                 mkWorld (results w) (ticks w) (S (prints w)) (log w)
                         (events w) (timers w) (pump_started w)
                         (pump_joined w) (report w) (loop_exit w) (expired w))
    | None => (Ok tt,
               mkWorld (results w) (ticks w) (S (prints w)) (log w ++ [msg])
                       (events w) (timers w) (pump_started w)
                       (pump_joined w) (report w) (loop_exit w) (expired w))
    end.

Definition reporter_event (ev : Event) : M unit :=
  fun w => (Ok tt,
            mkWorld (results w) (ticks w) (prints w) (log w) (events w ++ [ev])
                    (timers w) (pump_started w) (pump_joined w)
                    (report w) (loop_exit w) (expired w)).

(** [threading.Timer(2, delayed_finish, args=[results]).start()]. *)
Definition start_finish_timer : M unit :=
  fun w => (Ok tt,
            mkWorld (results w) (ticks w) (prints w) (log w) (events w) (S (timers w))
                    (pump_started w) (pump_joined w) (report w)
                    (loop_exit w) (expired w)).

(** [delayed_finish], run by the thread of a timer. *)
Definition delayed_finish : M unit := update (set_finished true).

Definition group_of (m : rmatch) (n : nat) : M string :=
  match group m n with
  | Some s => ret s
  | None => raise IndexError
  end.

Definition int_of (s : string) : M Z :=
  match py_int s with
  | Some n => ret n
  | None => raise ValueError
  end.

(** *** The handlers *)

Definition reboot_callback (m : rmatch) (reporter : bool) : M unit :=
  printer_string LogReboot ;;
  when reporter (reporter_event EventTestError) ;;
  update (fun r => set_reboots (reboots r + 1) r) ;;
  start_finish_timer.

Definition run_callback (m : rmatch) (reporter : bool) : M unit :=
  t <- time ;;
  update (set_last_start_time t) ;;
  item <- group_of m 1 ;;
  printer_string (LogStarted item t) ;;
  update (fun r => set_items_run (items_run r + 1) r).

Definition record_outcome (item : string) (seconds : Z) (st : string)
  : M unit :=
  update (fun r => set_outcomes (outcomes r ++ [mkOutcome item seconds st]) r).

Definition pass_callback (m : rmatch) (reporter : bool) : M unit :=
  end_time <- time ;;
  r <- get_results ;;
  let seconds := ceil (end_time - last_start_time r) in
  item <- group_of m 1 ;;
  printer_string (LogPassed item end_time seconds) ;;
  when reporter (reporter_event (EventTestPassed item seconds)) ;;
  record_outcome item (ceil (end_time - last_start_time r)) "PASS".

Definition fail_callback (m : rmatch) (reporter : bool) : M unit :=
  update (fun r => set_items_failed (items_failed r + 1) r) ;;
  end_time <- time ;;
  r <- get_results ;;
  item <- group_of m 1 ;;
  let seconds := ceil (end_time - last_start_time r) in
  printer_string (LogFailed item end_time seconds) ;;
  when reporter (reporter_event (EventTestFailed item seconds)) ;;
  record_outcome item (ceil (end_time - last_start_time r)) "FAIL".

Definition finish_callback (m : rmatch) (reporter : bool) : M unit :=
  end_time <- time ;;
  s1 <- group_of m 1 ;; n1 <- int_of s1 ;;
  update (set_items_run n1) ;;
  s2 <- group_of m 2 ;; n2 <- int_of s2 ;;
  update (set_items_failed n2) ;;
  s3 <- group_of m 3 ;; n3 <- int_of s3 ;;
  update (set_items_ignored n3) ;;
  printer_string (LogCompleted end_time n1 n2 n3) ;;
  when reporter (reporter_event (EventSuiteCompleted n1 n2 n3)) ;;
  update (set_finished true).

(** *** The recognizer table *)

Inductive Handler : Type :=
| RebootCallback
| RunCallback
| PassCallback
| FailCallback
| FinishCallback.

Definition call (h : Handler) : rmatch -> bool -> M unit :=
  match h with
  | RebootCallback => reboot_callback
  | RunCallback => run_callback
  | PassCallback => pass_callback
  | FailCallback => fail_callback
  | FinishCallback => finish_callback
  end.

Record Entry : Type := mkEntry {
  source : string;       (* entry[0] as it is written *)
  pattern : regex;       (* entry[0] as re reads it *)
  handler : Handler      (* entry[1] *)
}.

Definition INTERESTING : list Entry :=
  [ mkEntry src_abort re_abort RebootCallback;
    mkEntry src_guru re_guru RebootCallback;
    mkEntry src_hardfault re_hardfault RebootCallback;
    mkEntry src_zephyr re_zephyr RebootCallback;
    mkEntry src_run re_run RunCallback;
    mkEntry src_pass re_pass PassCallback;
    mkEntry src_fail re_fail FailCallback;
    mkEntry src_finish re_finish FinishCallback ].

(** The body of [for entry in INTERESTING]: [match = re.match(entry[0],
    line)] and, [if match], the call of [entry[1]]. *)
Definition try_entry (entry : Entry) (line : string) (reporter : bool)
  : M unit :=
  match re_match (pattern entry) line with
  | Some m => call (handler entry) m reporter
  | None => ret tt
  end.

(** [for entry in table: ...], the loop in the body of [watch_items]. *)
Fixpoint for_entries (table : list Entry) (line : string) (reporter : bool)
  : M unit :=
  match table with
  | [] => ret tt
  | entry :: table' =>
      try_entry entry line reporter ;;
      for_entries table' line reporter
  end.

(** *** Watching *)

Definition set_loop_exit (x : LoopExit) : M unit :=
  fun w => (Ok tt,
            mkWorld (results w) (ticks w) (prints w) (log w) (events w) (timers w)
                    (pump_started w) (pump_joined w) (report w)
                    (Some x) (expired w)).

Definition set_expired (x : Expiry) : M unit :=
  fun w => (Ok tt,
            mkWorld (results w) (ticks w) (prints w) (log w) (events w) (timers w)
                    (pump_started w) (pump_joined w) (report w)
                    (loop_exit w) (Some x)).

(** [readline_thread.start()] and [readline_thread.join()]. *)
Definition start_pump : M unit :=
  fun w => (Ok tt,
            mkWorld (results w) (ticks w) (prints w) (log w) (events w) (timers w)
                    true (pump_joined w) (report w)
                    (loop_exit w) (expired w)).

Definition join_pump : M unit :=
  fun w => (Ok tt,
            mkWorld (results w) (ticks w) (prints w) (log w) (events w) (timers w)
                    (pump_started w) true (report w)
                    (loop_exit w) (expired w)).

(** The thread of a timer that [reboot_callback] started sets
    [finished]; there is nothing to run when none was started. *)
Definition timer_thread : M unit :=
  fun w => if (0 <? timers w)%nat then delayed_finish w else (Ok tt, w).

(** [not limit or (time() - since < limit)]. *)
Definition within (limit : option Z) (since : Q) : M bool :=
  if truthy limit then
    t <- time ;;
    ret (negb (Qle_bool (inject_Z (match limit with Some n => n | None => 0 end))
                        (t - since)))
  else ret true.

(** [limit and (time() - since >= limit)]. *)
Definition past (limit : option Z) (since : Q) : M bool :=
  if truthy limit then
    t <- time ;;
    ret (Qle_bool (inject_Z (match limit with Some n => n | None => 0 end))
                  (t - since))
  else ret false.

(** The inner [try] once [read_queue.get] has returned a line; the value
    is the new [last_activity_time]. *)
Definition on_line (line : string) (reporter : bool) : M Q :=
  t <- time ;;
  printer_string (LogLine line) ;;
  for_entries INTERESTING line reporter ;;
  ret t.

(** The [while] loop of [watch_items], one [Turn] of the environment for
    each evaluation of its condition; the value is [last_activity_time]
    when the loop ends. *)
Fixpoint watch_loop (guard_time_seconds inactivity_time_seconds : option Z)
         (reporter : bool) (start_time last_activity_time : Q)
         (turns : list Turn) {struct turns} : M Q :=
  match turns with
  | [] => fun w => (Pending, w)
  | turn :: turns' =>
      if negb (keep_going turn) then
        set_loop_exit ExitCancelled ;; ret last_activity_time
      else
        when (timer_fired turn) timer_thread ;;
        r <- get_results ;;
        if finished r then
          set_loop_exit ExitFinished ;; ret last_activity_time
        else
          in_guard <- within guard_time_seconds start_time ;;
          if negb in_guard then
            set_loop_exit ExitGuard ;; ret last_activity_time
          else
            active <- within inactivity_time_seconds last_activity_time ;;
            if negb active then
              set_loop_exit ExitInactivity ;; ret last_activity_time
            else
              t <- match queued turn with
                   | Some line => on_line line reporter
                   | None => ret last_activity_time
                   end ;;
              watch_loop guard_time_seconds inactivity_time_seconds
                         reporter start_time t turns'
  end.

(** What follows the loop inside the [try]. *)
Definition after_loop (guard_time_seconds inactivity_time_seconds : option Z)
           (start_time last_activity_time : Q) : M Z :=
  update (set_finished true) ;;
  join_pump ;;
  guard_gone <- past guard_time_seconds start_time ;;
  if guard_gone then
    set_expired GuardExpired ;;
    printer_string LogGuardExpired ;;
    ret (-1)%Z
  else
    inactive <- past inactivity_time_seconds last_activity_time ;;
    if inactive then
      set_expired InactivityExpired ;;
      printer_string LogInactivityExpired ;;
      ret (-1)%Z
    else
      r <- get_results ;;
      ret (items_failed r + reboots r)%Z.

(** The body of the [try] of [watch_items]. *)
Definition watch_body (guard_time_seconds inactivity_time_seconds : option Z)
           (reporter : bool) (start_time last_activity_time : Q)
           (turns : list Turn) : M Z :=
  t <- watch_loop guard_time_seconds inactivity_time_seconds reporter
                  start_time last_activity_time turns ;;
  after_loop guard_time_seconds inactivity_time_seconds start_time t.

Definition watch_items (guard_time_seconds inactivity_time_seconds : option Z)
           (reporter : bool) (turns : list Turn) : M Z :=
  start_time <- time ;;
  last_activity_time <- time ;;
  printer_string LogWatching ;;
  start_pump ;;
  try_except
    (watch_body guard_time_seconds inactivity_time_seconds reporter
                start_time last_activity_time turns)
    (fun e => printer_string (LogException e) ;; ret (-1)%Z).

(** *** The report *)

(** [u_utils.get_instance_text], which is not part of this file. *)
Variable get_instance_text : list Z -> string.

Definition dq : string := String (ascii_of_nat 34) "".
Definition nl : string := String newline "".

Definition testsuite_line (instance : list Z) (r : Results) : string :=
  "<testsuite name=" ++ dq ++ ("instance " ++ get_instance_text instance)
    ++ dq ++ " tests=" ++ dq ++ py_str (items_run r)
    ++ dq ++ " failures=" ++ dq ++ py_str (items_failed r) ++ dq ++ ">" ++ nl.

Definition testcase_line (o : Outcome) : string :=
  "    <testcase classname=" ++ dq ++ "ubxlib_tests"
    ++ dq ++ " name=" ++ dq ++ name o
    ++ dq ++ " time=" ++ dq ++ py_str (duration o)
    ++ dq ++ " status=" ++ dq ++ status o ++ dq ++ "></testcase>" ++ nl.

(** [test_report_handle.write(text)]. *)
Definition write (text : string) : M unit :=
  fun w => (Ok tt,
            mkWorld (results w) (ticks w) (prints w) (log w) (events w) (timers w)
                    (pump_started w) (pump_joined w) (report w ++ [text])
                    (loop_exit w) (expired w)).

Fixpoint write_outcomes (l : list Outcome) : M unit :=
  match l with
  | [] => ret tt
  | outcome :: l' => write (testcase_line outcome) ;; write_outcomes l'
  end.

(** [bool(instance)]: an instance is a list of numbers, or [None]. *)
Definition given (instance : option (list Z)) : bool :=
  match instance with
  | Some (_ :: _) => true
  | _ => false
  end.

(** The body of [if test_report_handle and instance] in [main]. *)
Definition write_report (instance : list Z) : M unit :=
  printer_string LogWritingReport ;;
  r <- get_results ;;
  write (testsuite_line instance r) ;;
  write_outcomes (outcomes r) ;;
  write ("</testsuite>" ++ nl).

(** [main]. [test_report_handle] says whether a handle to write the
    report to was passed; [send_first] is [None] when [send_string] is
    [None] and otherwise what [esp32_send_first] returned, whose own
    reading, writing and printing are left out. *)
Definition main (guard_time_seconds inactivity_time_seconds : option Z)
           (instance : option (list Z)) (reporter : bool)
           (test_report_handle : bool) (send_first : option bool)
           (turns : list Turn) : M Z :=
  update (fun _ => new_results) ;;
  t <- time ;;
  update (set_last_start_time t) ;;
  return_value <-
    (match send_first with
     | Some false => ret (-1)%Z
     | _ =>
         t0 <- time ;;
         update (set_overall_start_time t0) ;;
         watch_items guard_time_seconds inactivity_time_seconds reporter turns
     end) ;;
  when (test_report_handle && given instance)
       (write_report (match instance with Some i => i | None => [] end)) ;;
  printer_string (LogEnd return_value) ;;
  ret return_value.

End Monitor.

(** ** Reading lines from a serial port *)

(** [str.isspace] on an ASCII character. *)
Definition is_space (c : ascii) : bool :=
  let n := nat_of_ascii c in
  ((9 <=? n) && (n <=? 13) || (28 <=? n) && (n <=? 32))%nat.

Fixpoint lstrip (s : string) : string :=
  match s with
  | String c s' => if is_space c then lstrip s' else s
  | EmptyString => EmptyString
  end.

Fixpoint rstrip (s : string) : string :=
  match s with
  | String c s' =>
      match rstrip s' with
      | EmptyString => if is_space c then EmptyString else String c EmptyString
      | t => String c t
      end
  | EmptyString => EmptyString
  end.

(** [s.strip()]. *)
Definition strip (s : string) : string := rstrip (lstrip s).

(** [buf.decode('ascii')] of one byte; [None] is [UnicodeDecodeError]. *)
Definition decode (b : Byte.byte) : option ascii :=
  if (Byte.to_N b <? 128)%N then Some (ascii_of_byte b) else None.

(** The port: what the calls of [in_handle.read(1)] to come will return,
    a byte or nothing (the read timed out). A port with nothing more to say
    returns nothing. *)
Definition Port : Type := list (option Byte.byte).

(** The [while not eol and line is not None] loop of the branch of
    [pwar_readline] for [CONNECTION_SERIAL] and [CONNECTION_RTT], with
    the [if eol] and the [except UnicodeDecodeError] that follow it. *)
Fixpoint serial_loop (in_handle : Port) (terminator : string) (line : string)
  : option string * Port :=
  match in_handle with
  | [] => (None, [])
  | None :: in_handle' => (None, in_handle')
  | Some buf :: in_handle' =>
      match decode buf with
      | None => (Some line, in_handle')
      | Some character =>
          if String.eqb (String character "") terminator
          then (Some (strip line), in_handle')
          else serial_loop in_handle' terminator (line ++ String character "")
      end
  end.

(** [pwar_readline(in_handle, connection_type, terminator)] when
    [connection_type] is [CONNECTION_SERIAL] or [CONNECTION_RTT]: the line
    returned and the port afterwards. *)
Definition pwar_readline (in_handle : Port) (terminator : option string)
  : option string * Port :=
  serial_loop in_handle
              (match terminator with Some t => t | None => nl end) "".

(** [readline_and_queue] on such a port: what its first [calls] turns put
    in the queue, while [finished] stays unset. *)
Fixpoint readline_and_queue (calls : nat) (in_handle : Port)
         (terminator : option string) : list string * Port :=
  match calls with
  | O => ([], in_handle)
  | S calls' =>
      let (line, in_handle') := pwar_readline in_handle terminator in
      let (queue, in_handle'') :=
        readline_and_queue calls' in_handle' terminator in
      (match line with
       | Some (String c s) => String c s :: queue
       | _ => queue
       end, in_handle'')
  end.

(** ** Notions used in the statements *)

(** A piece of the monitor that keeps a view of the world as it was, and
    one that keeps a property of the world, however it ends. *)
Definition keeps {A V : Type} (view : World -> V) (c : M A) : Prop :=
  forall w, view (snd (c w)) = view w.

Definition preserves {A : Type} (P : World -> Prop) (c : M A) : Prop :=
  forall w, P w -> P (snd (c w)).

(** The counts that the return value adds up are never negative. *)
Definition counts_ok (w : World) : Prop :=
  (0 <= items_failed (results w))%Z /\ (0 <= reboots (results w))%Z.

(** Whether the pattern of an entry matches a line. *)
Definition hits (line : string) (entry : Entry) : bool :=
  match re_match (pattern entry) line with
  | Some _ => true
  | None => false
  end.

(** The entries of a table that match a line, in the order of the table,
    each with its match; and the calls of their handlers one after the
    other. *)
Fixpoint matching (table : list Entry) (line : string)
  : list (Handler * rmatch) :=
  match table with
  | [] => []
  | entry :: table' =>
      match re_match (pattern entry) line with
      | Some m => (handler entry, m) :: matching table' line
      | None => matching table' line
      end
  end.

Section Statements.

Variable now : nat -> Q.
Variable printer_raises : nat -> option exn.

Fixpoint call_each (l : list (Handler * rmatch)) (reporter : bool)
  : M unit :=
  match l with
  | [] => ret tt
  | (h, m) :: l' =>
      call now printer_raises h m reporter ;; call_each l' reporter
  end.

(** First match wins, as the specification words the dispatch: the
    handler of the first entry that matches is called, and no entry after
    it is tried. This is not the loop of the source, which is
    [for_entries]. *)
Fixpoint first_match_wins (table : list Entry) (line : string)
         (reporter : bool) : M unit :=
  match table with
  | [] => ret tt
  | entry :: table' =>
      match re_match (pattern entry) line with
      | Some m => call now printer_raises (handler entry) m reporter
      | None => first_match_wins table' line reporter
      end
  end.

End Statements.

(** The three numbers of a summary line. *)
Definition summary (line : string) : option (Z * Z * Z) :=
  match re_match re_finish line with
  | Some m =>
      match group m 1, group m 2, group m 3 with
      | Some s1, Some s2, Some s3 =>
          match py_int s1, py_int s2, py_int s3 with
          | Some n1, Some n2, Some n3 => Some (n1, n2, n3)
          | _, _, _ => None
          end
      | _, _, _ => None
      end
  | None => None
  end.

(** The numbers of a match of the summary pattern are ones that [int]
    takes: none of its three groups has more than [int_max_str_digits]
    digits. *)
Definition int_takes (m : rmatch) : Prop :=
  forall n s, (1 <= n <= 3)%nat -> group m n = Some s ->
              (String.length s <= int_max_str_digits)%nat.

(** Whether a line is an item-start line, and how many lines of a log are. *)
Definition is_start (line : string) : bool :=
  match re_match re_run line with
  | Some _ => true
  | None => false
  end.

Fixpoint lines_of (l : list LogMsg) : list string :=
  match l with
  | [] => []
  | LogLine line :: l' => line :: lines_of l'
  | _ :: l' => lines_of l'
  end.

Definition starts_seen (w : World) : Z :=
  Z.of_nat (List.length (filter is_start (lines_of (log w)))).

(** Bytes that go into a line: they decode, and are not the terminator. *)
Definition mid_line (terminator : string) (b : Byte.byte) : bool :=
  match decode b with
  | Some character => negb (String.eqb (String character "") terminator)
  | None => false
  end.

(** ** What a log tells *)

(** The lines that a log echoes, in their order. *)
Definition lines (w : World) : list string := lines_of (log w).

(** The messages of the loop's body: the line echoed and what its handlers
    say. *)
Definition of_line (msg : LogMsg) : bool :=
  match msg with
  | LogLine _ | LogReboot | LogStarted _ _ | LogPassed _ _ _
  | LogFailed _ _ _ | LogCompleted _ _ _ _ => true
  | _ => false
  end.

Definition trail (w : World) : list LogMsg := filter of_line (log w).

(** The outcomes that a log tells of: each PASS or FAIL message gives one,
    in the order of the log, that lasted from the latest start message
    before it ([since] when there is none) to the message itself. *)
Fixpoint replay (since : Q) (l : list LogMsg) : list Outcome :=
  match l with
  | [] => []
  | LogStarted _ t :: l' => replay t l'
  | LogPassed item t _ :: l' =>
      mkOutcome item (ceil (t - since)) "PASS" :: replay since l'
  | LogFailed item t _ :: l' =>
      mkOutcome item (ceil (t - since)) "FAIL" :: replay since l'
  | _ :: l' => replay since l'
  end.

Fixpoint latest_start (since : Q) (l : list LogMsg) : Q :=
  match l with
  | [] => since
  | LogStarted _ t :: l' => latest_start t l'
  | _ :: l' => latest_start since l'
  end.

(** How many of the entries that match belong to [run_callback]. *)
Definition runs (l : list (Handler * rmatch)) : Z :=
  Z.of_nat (List.length
              (filter (fun hm => match fst hm with
                                 | RunCallback => true
                                 | _ => false
                                 end) l)).

(** Strings of decimal digits. *)
Fixpoint all_digits (s : string) : bool :=
  match s with
  | EmptyString => true
  | String c s' => in_set false [("0"%char, "9"%char)] c && all_digits s'
  end.

(** ** States of a session *)

(** A session is at rest when it waits for a line, or has returned after
    its loop ended through its condition. *)
Definition at_rest (s : Res Z * World) : Prop :=
  match fst s with
  | Ok _ => loop_exit (snd s) <> None
  | Pending => True
  | Raise _ => False
  end.

(** [w'] is [w] some steps later, when no line has been taken in between:
    the same trail and the same results, but that [finished] may have been
    set. *)
Definition settled (w w' : World) : Prop :=
  trail w' = trail w /\
  (results w' = results w \/ results w' = set_finished true (results w)).

Definition settles {A : Type} (c : M A) : Prop :=
  forall w, settled w (snd (c w)).

(** Views of the world that parts of the monitor leave alone. *)
Definition surroundings (w : World) :=
  (pump_started w, pump_joined w, report w, loop_exit w, expired w).

Definition loop_frame (w : World) :=
  (pump_started w, pump_joined w, report w, expired w).

Definition core (w : World) :=
  (results w, pump_joined w, loop_exit w, expired w).

(** The outcomes recorded are those that the log tells of, for a session
    that began at [now 0]. *)
Definition told (now : nat -> Q) (w : World) : Prop :=
  outcomes (results w) = replay (now 0%nat) (log w) /\
  last_start_time (results w) = latest_start (now 0%nat) (log w).

(** The counts of a summary line stay once it has been handled. *)
Definition summed (w : World) : Prop :=
  forall line n1 n2 n3,
    In line (lines w) -> summary line = Some (n1, n2, n3) ->
    finished (results w) = true /\
    items_run (results w) = n1 /\ items_failed (results w) = n2 /\
    items_ignored (results w) = n3.

(** Until a summary line is handled, [items_run] counts the item-start
    lines. *)
Definition counted (w : World) : Prop :=
  (forall line, In line (lines w) -> re_match re_finish line = None) ->
  items_run (results w) = starts_seen w.

(** ** Environments for the examples *)

(** A clock that is one second further each time it is read. *)
Definition seconds (n : nat) : Q := inject_Z (Z.of_nat n).

(** A printer that never raises, and one whose [n]-th call raises [e]. *)
Definition quiet (n : nat) : option exn := None.
Definition failing (n : nat) (e : exn) (i : nat) : option exn :=
  if (i =? n)%nat then Some e else None.

(** The text of an instance: its numbers with dots between them. *)
Definition dotted (instance : list Z) : string :=
  String.concat "." (map py_str instance).

Definition line_turn (line : string) : Turn := mkTurn true false (Some line).
Definition idle_turn : Turn := mkTurn true false None.
Definition cancel_turn : Turn := mkTurn false false None.

Definition cr : string := String (ascii_of_nat 13) "".
Definition byte_of (c : ascii) : option Byte.byte := Some (byte_of_ascii c).

(** The characters of a text as they arrive on a port, one with each
    read. *)
Definition arriving (text : string) : Port :=
  map byte_of (list_ascii_of_string text).

(** A port on which [ab] arrives, then nothing for a while, then [c] and a
    carriage return. *)
Definition gap_port : Port :=
  [byte_of "a"; byte_of "b"; None; byte_of "c"; byte_of (ascii_of_nat 13)].

(** ** Sessions for the examples *)

Definition failed_session : Res Z * World :=
  main seconds quiet dotted None None None false false None
       [line_turn "/a/b.c:10:testFoo:FAIL:oops";
        line_turn "1 Tests 1 Failures 0 Ignored"; idle_turn] new_world.

Definition cancelled_session : Res Z * World :=
  main seconds quiet dotted None None None false false None
       [line_turn "/a/b.c:10:testFoo:FAIL:oops"; cancel_turn] new_world.

Definition reported_session : Res Z * World :=
  main seconds quiet dotted None None (Some [12%Z; 0%Z]) false true None
       [line_turn "/a/b.c:10:testFoo:PASS";
        line_turn "1 Tests 0 Failures 0 Ignored"; idle_turn] new_world.

Definition summary_session : Res Z * World :=
  main seconds quiet dotted None None None false false None
       [line_turn "abort() was called";
        line_turn "22 Tests 1 Failures 0 Ignored"; idle_turn] new_world.

(** A number of 4301 digits, a summary line that begins with it, and the
    session that meets this line. *)
Definition long_number : string :=
  string_of_list_ascii (repeat "1"%char 4301).

Definition long_summary : string :=
  long_number ++ " Tests 1 Failures 0 Ignored".

Definition long_summary_session : Res Z * World :=
  main seconds quiet dotted None None None false false None
       [line_turn long_summary; idle_turn] new_world.

(** The summary "10 Tests 5 Failures 0 Ignored" arrives on a serial port
    with a gap after its first character; the session is given what
    [readline_and_queue] has put in the queue. *)
Definition torn_summary_port : Port :=
  (arriving "1" ++ None :: arriving "0 Tests 5 Failures 0 Ignored"
     ++ [byte_of (ascii_of_nat 13)])%list.

Definition torn_summary_session : Res Z * World :=
  main seconds quiet dotted None None None false false None
       (map line_turn (fst (readline_and_queue 2 torn_summary_port (Some cr)))
          ++ [idle_turn])%list new_world.

Definition offered_more_session : Res Z * World :=
  main seconds quiet dotted None None None false false None
       [line_turn "1 Tests 5 Failures 0 Ignored"; idle_turn;
        line_turn "2 Tests 0 Failures 0 Ignored"] new_world.

Definition started_session : Res Z * World :=
  main seconds quiet dotted None None None false false None
       [line_turn "Running testFoo..."; line_turn "Running testBar...";
        line_turn "/a/b.c:10:testBar:PASS"] new_world.

Definition interleaved_session : Res Z * World :=
  main seconds quiet dotted None None None false false None
       [line_turn "Running A..."; line_turn "Running B...";
        line_turn "/a/b.c:10:A:PASS"] new_world.

(** * The rest of u_monitor

    ** How long a run took, as [finish_callback] prints it *)

(** [int(x)] of a floating-point number: towards zero. *)
Definition py_trunc (x : Q) : Z :=
  if Qle_bool 0 x then Qfloor x else Qceiling x.

Definition duration_hours (end_time overall_start_time : Q) : Z :=
  py_trunc ((end_time - overall_start_time) / inject_Z 3600).

Definition duration_minutes (end_time overall_start_time : Q) : Z :=
  py_trunc (((end_time - overall_start_time)
             - inject_Z (duration_hours end_time overall_start_time * 3600))
            / inject_Z 60).

Definition duration_seconds (end_time overall_start_time : Q) : Z :=
  py_trunc ((end_time - overall_start_time)
            - inject_Z (duration_hours end_time overall_start_time * 3600)
            - inject_Z (duration_minutes end_time overall_start_time * 60)).

(** ** The other transports of [pwar_readline] *)

(** Text that [bytes(text, 'ascii')] and [text.encode('ascii')] accept. *)
Definition is_ascii (text : string) : bool :=
  forallb (fun c => (nat_of_ascii c <? 128)%nat) (list_ascii_of_string text).

(** [data.decode('ascii')]; [None] is [UnicodeDecodeError]. *)
Fixpoint decode_all (data : list Byte.byte) : option string :=
  match data with
  | [] => Some ""
  | b :: data' =>
      match decode b, decode_all data' with
      | Some character, Some s => Some (String character s)
      | _, _ => None
      end
  end.

(** [c in chars]. *)
Definition among (chars : string) (c : ascii) : bool :=
  existsb (Ascii.eqb c) (list_ascii_of_string chars).

(** [s.lstrip(chars)] and [s.rstrip(chars)]: every leading, or trailing,
    character that is one of [chars] goes. *)
Fixpoint lstrip_chars (chars s : string) : string :=
  match s with
  | String c s' => if among chars c then lstrip_chars chars s' else s
  | EmptyString => EmptyString
  end.

Fixpoint rstrip_chars (chars s : string) : string :=
  match s with
  | String c s' =>
      match rstrip_chars chars s' with
      | EmptyString => if among chars c then EmptyString
                       else String c EmptyString
      | t => String c t
      end
  | EmptyString => EmptyString
  end.

(** [pwar_readline] when [connection_type] is [CONNECTION_TELNET];
    [read_until] is what [in_handle.read_until(terminator_bytes, 1)]
    returns. [bytes(terminator, 'ascii')] raises [UnicodeEncodeError], a
    [ValueError], before anything is read. *)
Definition pwar_readline_telnet (read_until : list Byte.byte)
           (terminator : option string) : Res (option string) :=
  let terminator := match terminator with Some t => t | None => nl end in
  if is_ascii terminator then
    let line := match decode_all read_until with
                | Some s => s
                | None => ""
                end in
    Ok (if String.eqb line "" then None
        else Some (lstrip_chars nl (rstrip_chars terminator line)))
  else Raise ValueError.

Section Pipe.

Variable now : nat -> Q.

(** The [while not eol and (time() - start_time < 5)] loop of the branch
    of [pwar_readline] for [CONNECTION_PIPE], with the [if eol] and the
    [except UnicodeDecodeError] that follow it; [fuel] bounds the number
    of times that its condition is evaluated. A read that returns nothing
    leaves the line as it is. *)
Fixpoint pipe_loop (fuel : nat) (start_time : Q) (in_handle : Port)
         (terminator line : string) {struct fuel} : M (string * Port) :=
  match fuel with
  | O => fun w => (Pending, w)
  | S fuel' =>
      t <- time now ;;
      if Qle_bool (inject_Z 5) (t - start_time) then ret (line, in_handle)
      else
        match in_handle with
        | [] => pipe_loop fuel' start_time [] terminator line
        | None :: in_handle' =>
            pipe_loop fuel' start_time in_handle' terminator line
        | Some buf :: in_handle' =>
            match decode buf with
            | None => ret (line, in_handle')
            | Some character =>
                if String.eqb (String character "") terminator
                then ret (strip line, in_handle')
                else pipe_loop fuel' start_time in_handle' terminator
                               (line ++ String character "")
            end
        end
  end.

(** [pwar_readline] when [connection_type] is [CONNECTION_PIPE]: the
    line returned, which is never [None], and the pipe afterwards. *)
Definition pwar_readline_pipe (fuel : nat) (in_handle : Port)
           (terminator : option string) : M (string * Port) :=
  start_time <- time now ;;
  pipe_loop fuel start_time in_handle
            (match terminator with Some t => t | None => nl end) "".

End Pipe.

(** The characters that a stretch of a port holds, gaps left out. *)
Fixpoint heard (in_handle : Port) : string :=
  match in_handle with
  | [] => ""
  | Some b :: in_handle' => String (ascii_of_byte b) (heard in_handle')
  | None :: in_handle' => heard in_handle'
  end.

(** A stretch of a port that stays inside a line: gaps, and bytes that go
    into the line. *)
Definition inside_line (terminator : string) (x : option Byte.byte) : bool :=
  match x with
  | Some b => mid_line terminator b
  | None => true
  end.

(** What a port has to say when a target sends lines, each closed by a
    carriage return and a line feed. *)
Definition crlf_lines (sent : list string) : Port :=
  concat (map (fun line => arriving (line ++ cr ++ nl)) sent).

(** A read that gives nothing, or a byte that is ASCII. *)
Definition decodable (x : option Byte.byte) : bool :=
  match x with
  | Some b => match decode b with Some _ => true | None => false end
  | None => true
  end.

(** Whether a character is in a text. *)
Definition holds (c : ascii) (text : string) : Prop :=
  In c (list_ascii_of_string text).

(** The world after [n] more readings of the clock. *)
Definition later (n : nat) (w : World) : World :=
  mkWorld (results w) (n + ticks w) (prints w) (log w) (events w) (timers w)
          (pump_started w) (pump_joined w) (report w) (loop_exit w)
          (expired w).

(** ** More notions used in the statements *)

(** The entries of a table whose handler is [reboot_callback], and the
    texts that the patterns of those of [INTERESTING] stand for. *)
Definition reboot_entries (table : list Entry) : list Entry :=
  filter (fun entry => match handler entry with
                       | RebootCallback => true
                       | _ => false
                       end) table.

Definition reboot_markers : list string :=
  ["abort"; "Guru Meditation Error"; "<error> hardfault";
   ">>> ZEPHYR FATAL ERROR"].

(** Whether a line tells of a reboot, and how many lines of a log do. *)
Definition is_reboot (line : string) : bool :=
  existsb (hits line) (reboot_entries INTERESTING).

Definition reboots_seen (w : World) : Z :=
  Z.of_nat (List.length (filter is_reboot (lines w))).

(** Whether a line tells of a failed item, and how many lines of a log
    do. *)
Definition is_fail (line : string) : bool :=
  match re_match re_fail line with
  | Some _ => true
  | None => false
  end.

Definition fails_seen (w : World) : Z :=
  Z.of_nat (List.length (filter is_fail (lines w))).

(** The outcomes as the printer was told them: the item and the seconds
    of each PASS and FAIL message of a log, in the order of the log. *)
Fixpoint announced (l : list LogMsg) : list Outcome :=
  match l with
  | [] => []
  | LogPassed item _ seconds :: l' =>
      mkOutcome item seconds "PASS" :: announced l'
  | LogFailed item _ seconds :: l' =>
      mkOutcome item seconds "FAIL" :: announced l'
  | _ :: l' => announced l'
  end.

(** The world in which [main] calls [watch_items]: the clock has been read
    twice, and nothing else has happened. *)
Definition begun (now : nat -> Q) : World :=
  mkWorld (set_overall_start_time (now 1%nat)
             (set_last_start_time (now 0%nat) new_results))
          2 0 [] [] 0 false false [] None None.

(** The reboots counted are the lines that tell of one. *)
Definition rebooted (w : World) : Prop :=
  reboots (results w) = reboots_seen w.

(** Until a summary line is handled, [items_failed] counts the lines that
    tell of a failed item. *)
Definition failures_counted (w : World) : Prop :=
  (forall line, In line (lines w) -> re_match re_finish line = None) ->
  items_failed (results w) = fails_seen w.

(** The outcomes recorded are those that the printer was told. *)
Definition as_announced (w : World) : Prop :=
  outcomes (results w) = announced (log w).

(** What the end of [main], where the report is written, leaves alone. *)
Definition kept_by_report (w : World) :=
  (results w, ticks w, events w, timers w, pump_started w, pump_joined w,
   loop_exit w, expired w).


(** ** Sending a string before the run *)

(** [line.find(text) >= 0]. *)
Fixpoint contains (text line : string) : bool :=
  prefix text line
  || match line with
     | String _ line' => contains text line'
     | EmptyString => false
     end.

(** What [esp32_send_first] gives the printer. *)
Inductive Said : Type :=
| SaidReading                       (* reading initial text from input... *)
| SaidLine (line : string)          (* a line that was read *)
| SaidListing                       (* listing items... *)
| SaidSending (send_string : string)
| SaidRunStarted                    (* run started on ... *)
| SaidException (e : exn).

(** The serial link to the target, with the printer. *)
Record Link : Type := mkLink {
  wire : Port;                (* what in_handle.read(1) will return *)
  sent : list string;         (* what in_handle.write() was given *)
  said : list Said;           (* what the printer was given *)
  says : nat;                 (* calls of printer.string() so far *)
  writes : nat                (* calls of in_handle.write() so far *)
}.

Definition L (A : Type) : Type := Link -> Res A * Link.

Definition lret {A : Type} (a : A) : L A := fun s => (Ok a, s).

Definition lbind {A B : Type} (c : L A) (f : A -> L B) : L B :=
  fun s =>
    match c s with
    | (Ok a, s') => f a s'
    | (Raise e, s') => (Raise e, s')
    | (Pending, s') => (Pending, s')
    end.

(** [try: c  except serial.SerialException: h]. *)
Definition try_serial {A : Type} (c : L A) (h : L A) : L A :=
  fun s =>
    match c s with
    | (Raise SerialException, s') => h s'
    | other => other
    end.

Declare Scope link_scope.
Delimit Scope link_scope with link.
Notation "x <- c ;; k" := (lbind c (fun x => k))
  (at level 61, c at next level, right associativity) : link_scope.
Notation "c ;; k" := (lbind c (fun _ => k))
  (at level 61, right associativity) : link_scope.

Section Esp32.

Local Open Scope link_scope.

(** The exception that the [n]-th call of the printer raises, and the one
    that the [n]-th call of [in_handle.write] raises, if any. *)
Variable printer_raises : nat -> option exn.
Variable write_raises : nat -> option exn.

Definition say (msg : Said) : L unit :=
  fun s =>
    match printer_raises (says s) with
    | Some e => (Raise e,
                 mkLink (wire s) (sent s) (said s) (S (says s)) (writes s))
    | None => (Ok tt,
               mkLink (wire s) (sent s) (said s ++ [msg]) (S (says s))
                      (writes s))
    end.

(** [in_handle.write(text.encode("ascii"))]: a text that is not ASCII
    raises [UnicodeEncodeError], a [ValueError], and nothing is
    written. *)
Definition put (text : string) : L unit :=
  fun s =>
    if is_ascii text then
      match write_raises (writes s) with
      | Some e => (Raise e,
                   mkLink (wire s) (sent s) (said s) (says s) (S (writes s)))
      | None => (Ok tt,
                 mkLink (wire s) (sent s ++ [text]) (said s) (says s)
                        (S (writes s)))
      end
    else (Raise ValueError, s).

(** [line = pwar_readline(in_handle, connection_type, "\r")] on a serial
    port, and the [if line is not None] that prints it. *)
Definition read_and_say : L (option string) :=
  fun s =>
    let (line, rest) := pwar_readline (wire s) (Some cr) in
    let s' := mkLink rest (sent s) (said s) (says s) (writes s) in
    match line with
    | Some text => lbind (say (SaidLine text)) (fun _ => lret line) s'
    | None => (Ok None, s')
    end.

Definition test_prompt : string := "Press ENTER to see the list of tests.".

(** [while line is not None and line.find(...) < 0], and [while line is
    not None]; [fuel] bounds the number of lines read. *)
Fixpoint read_to_prompt (fuel : nat) (line : option string) {struct fuel}
  : L unit :=
  match line with
  | None => lret tt
  | Some text =>
      if contains test_prompt text then lret tt
      else
        match fuel with
        | O => fun s => (Pending, s)
        | S fuel' => line' <- read_and_say ;; read_to_prompt fuel' line'
        end
  end.

Fixpoint read_to_silence (fuel : nat) (line : option string) {struct fuel}
  : L unit :=
  match line with
  | None => lret tt
  | Some _ =>
      match fuel with
      | O => fun s => (Pending, s)
      | S fuel' => line' <- read_and_say ;; read_to_silence fuel' line'
      end
  end.

(** [esp32_send_first] on a serial port. The time that the last message
    gives is left out. *)
Definition esp32_send_first (fuel : nat) (send_string : string) : L bool :=
  try_serial
    (say SaidReading ;;
     read_to_prompt fuel (Some "") ;;
     say SaidListing ;;
     put (cr ++ nl) ;;
     read_to_silence fuel (Some "") ;;
     say (SaidSending send_string) ;;
     put send_string ;;
     put (cr ++ nl) ;;
     say SaidRunStarted ;;
     lret true)
    (say (SaidException SerialException) ;; lret false).

End Esp32.

(** * u_run_zephyr: building, downloading and running on Zephyr

    A shallow embedding of
    [port/platform/common/automation/u_run_zephyr.py]. What it calls in
    [u_utils], [u_settings], [u_connection], [u_rtt_reader] and [os] is not
    part of this file: their constants are variables, and what their
    functions return is given by the environment, call by call. Those calls,
    and the printer and the reporter, are taken to return: the exceptions
    that they could raise are caught nowhere in this file. *)

Module Zephyr.

(** ** Python values *)

(** [bool(s)] of a text, and of a list. *)
Definition nonempty (s : string) : bool := negb (String.eqb s "").

Definition some_items {A : Type} (l : list A) : bool :=
  match l with
  | [] => false
  | _ :: _ => true
  end.

(** [c.lower()] of a character below 256. *)
Definition lower_char (c : ascii) : ascii :=
  let n := nat_of_ascii c in
  if ((65 <=? n) && (n <=? 90)
      || (192 <=? n) && (n <=? 222) && negb (n =? 215))%nat
  then ascii_of_nat (n + 32)
  else c.

(** [s.lower()]. *)
Fixpoint lower (s : string) : string :=
  match s with
  | EmptyString => EmptyString
  | String c s' => String (lower_char c) (lower s')
  end.

(** [s.split(sep)[0]]: the text before the first [sep], all of it when
    there is none. *)
Fixpoint before_first (sep : ascii) (s : string) : string :=
  match s with
  | EmptyString => EmptyString
  | String c s' =>
      if Ascii.eqb c sep then EmptyString
      else String c (before_first sep s')
  end.

(** [s.replace(old, new)] for single characters. *)
Fixpoint replace (old new : ascii) (s : string) : string :=
  match s with
  | EmptyString => EmptyString
  | String c s' =>
      String (if Ascii.eqb c old then new else c) (replace old new s')
  end.

Definition backslash : ascii := ascii_of_nat 92.

(** A dictionary of texts, in the order in which its keys were set. *)
Definition Dict : Type := list (string * string).

Fixpoint get (key : string) (d : Dict) : option string :=
  match d with
  | [] => None
  | (k, v) :: d' => if String.eqb k key then Some v else get key d'
  end.

(** [d[key] = value]. *)
Fixpoint set (key value : string) (d : Dict) : Dict :=
  match d with
  | [] => [(key, value)]
  | (k, v) :: d' =>
      if String.eqb k key then (k, value) :: d'
      else (k, v) :: set key value d'
  end.

(** [{**a, **b}]. *)
Definition merge (a b : Dict) : Dict :=
  fold_left (fun d item => set (fst item) (snd item) d) b a.

(** A connection: [None], or a dictionary whose values are texts or
    [None]. *)
Definition Connection : Type := option (list (string * option string)).

Fixpoint lookup (key : string) (d : list (string * option string))
  : option (option string) :=
  match d with
  | [] => None
  | (k, v) :: d' => if String.eqb k key then Some v else lookup key d'
  end.

(** [connection and "debugger" in connection and connection["debugger"]],
    when it is true: the debugger. *)
Definition debugger (connection : Connection) : option string :=
  match connection with
  | Some d =>
      match lookup "debugger" d with
      | Some (Some serial) => if nonempty serial then Some serial else None
      | _ => None
      end
  | None => None
  end.

(** ** The JLink devices *)

Definition JLINK_DEVICE : list string :=
  ["nRF52833_XXAA"; "nRF52840_XXAA"; "nRF5340_XXAA_APP"].

(** The [for device in ...] loop of [jlink_device], with its [break]. *)
Fixpoint first_device (devices : list string) (mcu : string)
  : option string :=
  match devices with
  | [] => None
  | device :: devices' =>
      if String.eqb (lower (before_first "_" device)) (lower mcu)
      then Some device
      else first_device devices' mcu
  end.

Definition jlink_device (mcu : string) : option string :=
  first_device JLINK_DEVICE mcu.

(** ** The world around a run *)

Inductive EventType : Type :=
| EVENT_TYPE_BUILD
| EVENT_TYPE_DOWNLOAD
| EVENT_TYPE_TEST
| EVENT_TYPE_INFRASTRUCTURE.

Inductive EventKind : Type :=
| EVENT_START
| EVENT_COMPLETE
| EVENT_PASSED
| EVENT_FAILED
| EVENT_ERROR
| EVENT_WARNING.

(** The text of an event: none, a text, or how long the build took. *)
Inductive Detail : Type :=
| NoDetail
| Text (text : string)
| BuildTook (seconds : Q).

Record Report : Type := mkReport {
  event_type : EventType;
  event : EventKind;
  detail : Detail
}.

(** A call of [u_utils.exe_run]: the call list, the guard time, and the
    environment it was given with [set_env=], if any. *)
Record Command : Type := mkCommand {
  call_list : list string;
  guard_time_seconds : option Z;
  given_env : option Dict
}.

Record Bench : Type := mkBench {
  printed : list string;          (* what the printer was given *)
  reported : list Report;         (* what the reporter was given *)
  commands : list Command;        (* the calls of u_utils.exe_run *)
  sought : list string;           (* the calls of u_utils.exe_where *)
  versions : list (string * string); (* the calls of u_utils.exe_version *)
  asked : nat;                    (* calls of u_utils.keep_going so far *)
  probed : nat;                   (* calls of os.path.exists so far *)
  read : nat;                     (* calls of time() so far *)
  deleted : nat;                  (* calls of u_utils.deltree so far *)
  resets : nat;                   (* calls of u_utils.reset_nrf_target *)
  watched : option World          (* the world of u_monitor.main, once it
                                     has been called *)
}.

Definition new_bench : Bench :=
  mkBench [] [] [] [] [] 0 0 0 0 0 None.

(** What can leave [run]: an exception of the monitor, or one of the
    two that [connection["debugger"]] raises. *)
Inductive error : Type :=
| Monitor (e : exn)
| KeyError
| TypeError.

Inductive Result (A : Type) : Type :=
| Done (a : A)
| Failed (e : error)
| Waiting.
Arguments Done {A} a.
Arguments Failed {A} e.
Arguments Waiting {A}.

Definition Run (A : Type) : Type := Bench -> Result A * Bench.

Definition ret {A : Type} (a : A) : Run A := fun b => (Done a, b).

Definition bind {A B : Type} (c : Run A) (f : A -> Run B) : Run B :=
  fun b =>
    match c b with
    | (Done a, b') => f a b'
    | (Failed e, b') => (Failed e, b')
    | (Waiting, b') => (Waiting, b')
    end.

Definition fail {A : Type} (e : error) : Run A := fun b => (Failed e, b).

Declare Scope zephyr_scope.
Delimit Scope zephyr_scope with zephyr.
Notation "x <- c ;; k" := (bind c (fun x => k))
  (at level 61, c at next level, right associativity) : zephyr_scope.
Notation "c ;; k" := (bind c (fun _ => k))
  (at level 61, right associativity) : zephyr_scope.
Local Open Scope zephyr_scope.

Definition when (b : bool) (c : Run unit) : Run unit :=
  if b then c else ret tt.

(** [printer.string(text)] and [reporter.event(type, event, text)]. *)
Definition printer_string (text : string) : Run unit :=
  fun b => (Done tt,
            mkBench (printed b ++ [text]) (reported b) (commands b)
                    (sought b) (versions b) (asked b) (probed b) (read b)
                    (deleted b) (resets b) (watched b)).

Definition reporter_event (t : EventType) (e : EventKind) (d : Detail)
  : Run unit :=
  fun b => (Done tt,
            mkBench (printed b) (reported b ++ [mkReport t e d])
                    (commands b) (sought b) (versions b) (asked b)
                    (probed b) (read b) (deleted b) (resets b)
                    (watched b)).

(** A tool of [TOOLS_LIST]; its hint, a text for the user that goes to
    [u_utils.exe_where] as it is, is left out. *)
Record Tool : Type := mkTool {
  which_string : string;
  version_switch : option string
}.

Section Environment.

(** *** What the other modules give *)

(** Constants of [u_settings], [u_utils], [u_connection] and [os]. *)
Variable ZEPHYR_ENV_CMD GIT_BASH_ENV_CMD ZEPHYR_DIR BUILD_SUBDIR : string.
Variable EXE_EXT JLINK_PATH sep getcwd : string.
Variable BUILD_GUARD_TIME_SECONDS DOWNLOAD_GUARD_TIME_SECONDS : Z.
Variable RUN_GUARD_TIME_SECONDS RUN_INACTIVITY_TIME_SECONDS : Z.

(** [u_utils.split_command_line_args], [os.path.join] and
    [u_utils.get_instance_text]. *)
Variable split_command_line_args : string -> list string.
Variable path_join : string -> list string -> string.
Variable get_instance_text : list Z -> string.

(** What the [n]-th call of each of these returns:
    [u_utils.exe_run] (and what it leaves in [returned_env], when it is
    given one that is empty), [u_utils.exe_where], [u_utils.keep_going],
    [os.path.exists], [time()] and [u_utils.deltree]. *)
Variable exe_run_returns : nat -> bool.
Variable exe_run_captures : nat -> Dict.
Variable exe_where_returns : nat -> bool.
Variable keep_going_returns : nat -> bool.
Variable exists_returns : nat -> bool.
Variable now : nat -> Q.
Variable deltree_returns : nat -> bool.

(** Whether [u_connection.Lock] gives the connection. *)
Variable locked_connection : bool.

(** The clock, the printer and the turns that [u_monitor.main] meets. *)
Variable monitor_now : nat -> Q.
Variable monitor_printer_raises : nat -> option exn.
Variable monitor_turns : list Turn.

Definition PROMPT : string := "u_run_zephyr_".

Definition NRFJPROG : string := "nrfjprog" ++ EXE_EXT.

Definition RUNNER_DIR : string := ZEPHYR_DIR ++ sep ++ "runner".

Definition TOOLS_LIST : list Tool :=
  [ mkTool "west" (Some "--version");
    mkTool NRFJPROG (Some "--version");
    mkTool JLINK_PATH None ].

Definition exe_run (calls : list string) (guard : option Z)
           (env : option Dict) : Run bool :=
  fun b => (Done (exe_run_returns (List.length (commands b))),
            mkBench (printed b) (reported b)
                    (commands b ++ [mkCommand calls guard env])
                    (sought b) (versions b) (asked b) (probed b)
                    (read b) (deleted b) (resets b) (watched b)).

(** [u_utils.exe_run(..., returned_env=returned_env)] with an empty
    [returned_env]: what the dictionary holds afterwards. *)
Definition exe_run_capture (calls : list string) : Run Dict :=
  fun b => (Done (exe_run_captures (List.length (commands b))),
            mkBench (printed b) (reported b)
                    (commands b ++ [mkCommand calls None None])
                    (sought b) (versions b) (asked b) (probed b)
                    (read b) (deleted b) (resets b) (watched b)).

Definition exe_where (which : string) : Run bool :=
  fun b => (Done (exe_where_returns (List.length (sought b))),
            mkBench (printed b) (reported b) (commands b)
                    (sought b ++ [which]) (versions b) (asked b)
                    (probed b) (read b) (deleted b) (resets b)
                    (watched b)).

Definition exe_version (which switch : string) : Run unit :=
  fun b => (Done tt,
            mkBench (printed b) (reported b) (commands b) (sought b)
                    (versions b ++ [(which, switch)]) (asked b)
                    (probed b) (read b) (deleted b) (resets b)
                    (watched b)).

Definition keep_going : Run bool :=
  fun b => (Done (keep_going_returns (asked b)),
            mkBench (printed b) (reported b) (commands b) (sought b)
                    (versions b) (S (asked b)) (probed b) (read b)
                    (deleted b) (resets b) (watched b)).

Definition path_exists : Run bool :=
  fun b => (Done (exists_returns (probed b)),
            mkBench (printed b) (reported b) (commands b) (sought b)
                    (versions b) (asked b) (S (probed b)) (read b)
                    (deleted b) (resets b) (watched b)).

Definition time : Run Q :=
  fun b => (Done (now (read b)),
            mkBench (printed b) (reported b) (commands b) (sought b)
                    (versions b) (asked b) (probed b) (S (read b))
                    (deleted b) (resets b) (watched b)).

Definition deltree : Run bool :=
  fun b => (Done (deltree_returns (deleted b)),
            mkBench (printed b) (reported b) (commands b) (sought b)
                    (versions b) (asked b) (probed b) (read b)
                    (S (deleted b)) (resets b) (watched b)).

Definition reset_nrf_target : Run unit :=
  fun b => (Done tt,
            mkBench (printed b) (reported b) (commands b) (sought b)
                    (versions b) (asked b) (probed b) (read b)
                    (deleted b) (S (resets b)) (watched b)).

(** *** The functions of the file *)

(** The [for key, value in returned_env.items()] loop. *)
Fixpoint print_items (items : Dict) (prompt : string) : Run unit :=
  match items with
  | [] => ret tt
  | (key, value) :: items' =>
      printer_string (prompt ++ key ++ "=" ++ value) ;;
      print_items items' prompt
  end.

Definition print_env (returned_env : Dict) (prompt : string) : Run unit :=
  printer_string (prompt ++ "environment will be:") ;;
  if some_items returned_env then print_items returned_env prompt
  else printer_string (prompt ++ "EMPTY").

(** The [for item in tools_list] loop of [check_installation]; the
    value is [success]. *)
Fixpoint check_tools (tools_list : list Tool) (prompt : string)
         (success : bool) : Run bool :=
  match tools_list with
  | [] => ret success
  | item :: tools_list' =>
      found <- exe_where (which_string item) ;;
      if found then
        match version_switch item with
        | Some switch =>
            when (nonempty switch)
                 (exe_version (which_string item) switch)
        | None => ret tt
        end ;;
        check_tools tools_list' prompt success
      else check_tools tools_list' prompt false
  end.

Definition check_installation (tools_list : list Tool) (prompt : string)
  : Run bool :=
  printer_string (prompt ++ "checking tools...") ;;
  check_tools tools_list prompt true.

(** One of the two [while not returned_env and (count < 3)] loops of
    [set_env], with [chances] for [3 - count]; the value is the
    environment captured, empty when there is none. *)
Fixpoint capture (chances : nat) (command prompt : string) : Run Dict :=
  match chances with
  | O => ret []
  | S chances' =>
      returned_env <- exe_run_capture (split_command_line_args command) ;;
      if some_items returned_env then ret returned_env
      else
        printer_string (prompt ++ "warning: retrying " ++ command
                          ++ " to capture the environment variables...") ;;
        capture chances' command prompt
  end.

Definition set_env (prompt : string) : Run Dict :=
  returned_env1 <- capture 3 ZEPHYR_ENV_CMD prompt ;;
  if some_items returned_env1 then
    returned_env2 <- capture 3 GIT_BASH_ENV_CMD prompt ;;
    if some_items returned_env2
    then ret (merge returned_env1 returned_env2)
    else ret []
  else ret [].

(** The text that the [for item in call_list] loop builds. *)
Definition call_text (calls : list string) : string :=
  fold_left (fun tmp item => tmp ++ " " ++ item) calls "".

Definition print_call_list (calls : list string) (prompt : string)
  : Run unit :=
  printer_string (prompt ++ "in directory " ++ getcwd ++ " calling"
                    ++ call_text calls).

(** [bool(jlink_device_name)]. *)
Definition named (jlink_device_name : option string) : bool :=
  match jlink_device_name with
  | Some name => nonempty name
  | None => false
  end.

Definition tool_opt (connection : Connection) : string :=
  "-Autoconnect 1 -ExitOnError 1 -NoGui 1"
    ++ match debugger connection with
       | Some serial => " -USB " ++ serial
       | None => ""
       end.

(** The call list of [download_single_cpu]. *)
Definition flash_call_list (connection : Connection)
           (jlink_device_name : option string) (build_dir : string)
  : list string :=
  (["west"; "flash"; "-d"; build_dir; "--runner"; "jlink";
    "--erase"; "--no-reset-after-load"]
     ++ (if named jlink_device_name
         then ["--device"; match jlink_device_name with
                           | Some name => name
                           | None => ""
                           end]
         else [])
     ++ (if nonempty (tool_opt connection)
         then ["--tool-opt"; tool_opt connection]
         else []))%list.

Definition download_single_cpu (connection : Connection)
           (jlink_device_name : option string) (guard : Z)
           (build_dir : string) (env : Dict) (prompt : string)
  : Run bool :=
  print_call_list (flash_call_list connection jlink_device_name build_dir)
                  prompt ;;
  exe_run (flash_call_list connection jlink_device_name build_dir)
          (Some guard) (Some env).

Definition nrfjprog_cmd (connection : Connection) : list string :=
  ([NRFJPROG; "-f"; "NRF53"]
     ++ match debugger connection with
        | Some serial => ["-s"; serial]
        | None => []
        end)%list.

(** One step of [download_nrf53]: the message, the call list printed,
    and the call. *)
Definition nrfjprog (connection : Connection) (message : string)
           (arguments : list string) (guard : Z) (env : Dict)
           (prompt : string) : Run bool :=
  printer_string (prompt ++ message) ;;
  print_call_list (nrfjprog_cmd connection ++ arguments)%list prompt ;;
  exe_run (nrfjprog_cmd connection ++ arguments)%list (Some guard)
          (Some env).

Definition download_nrf53 (connection : Connection) (guard : Z)
           (build_dir : string) (env : Dict) (prompt : string)
  : Run bool :=
  let cpunet_hex_path :=
    path_join build_dir ["hci_rpmsg"; "zephyr"; "merged_CPUNET.hex"] in
  there <- path_exists ;;
  success <-
    (if there then
       nrfjprog connection "---- recover NETCPU ----"
                ["--coprocessor"; "CP_NETWORK"; "--recover"] guard env
                prompt
     else ret true) ;;
  success <-
    (if success then
       nrfjprog connection "--- recover APP ----"
                ["--coprocessor"; "CP_APPLICATION"; "--recover"]
                guard env prompt
     else ret success) ;;
  there <- (if success then path_exists else ret false) ;;
  success <-
    (if success && there then
       nrfjprog connection "---- download NETCPU ----"
                ["--coprocessor"; "CP_NETWORK"; "--chiperase";
                 "--program"; cpunet_hex_path] guard env prompt
     else ret success) ;;
  if success then
    nrfjprog connection "---- download APP ----"
             ["--coprocessor"; "CP_APPLICATION"; "--chiperase";
              "--program"; path_join build_dir ["zephyr"; "merged.hex"]]
             guard env prompt
  else ret success.

Definition download (connection : Connection)
           (jlink_device_name : option string) (guard : Z)
           (build_dir : string) (env : Dict) (prompt : string)
  : Run bool :=
  match jlink_device_name with
  | Some name =>
      if String.eqb name "nRF5340_XXAA_APP"
      then download_nrf53 connection guard build_dir env prompt
      else download_single_cpu connection jlink_device_name guard
                               build_dir env prompt
  | None =>
      download_single_cpu connection jlink_device_name guard build_dir
                          env prompt
  end.

(** The [for idx, define in enumerate(defines)] loop of [build]. *)
Fixpoint add_defines (idx : nat) (defines : list string)
         (defines_text : string) : string :=
  match defines with
  | [] => defines_text
  | define :: defines' =>
      add_defines (S idx) defines'
        (defines_text ++ (if (idx =? 0)%nat then "-D" else " -D")
           ++ define)
  end.

Definition build_call_list (board : string) (clean : bool)
           (ubxlib_dir : string) : list string :=
  (["west"; "-v"; "build"; "-p"; "auto"; "-b";
    replace backslash "/" board; "-d";
    replace backslash "/" BUILD_SUBDIR]
     ++ (if clean then ["-p"; "always"] else [])
     ++ [replace backslash "/" (ubxlib_dir ++ sep ++ RUNNER_DIR)%string;
         ("-DZEPHYR_EXTRA_MODULES=" ++ ubxlib_dir)%string])%list.

(** [build]: the build directory, or [None], and the dictionary [env],
    which [build] changes and its caller goes on using. *)
Definition build (board : string) (clean : bool) (ubxlib_dir : string)
           (defines : list string) (env : Dict) (prompt : string)
  : Run (option string * Dict) :=
  let output_dir := getcwd ++ sep ++ BUILD_SUBDIR in
  let env := set "CCACHE_DISABLE" "1" env in
  env <-
    (if some_items defines then
       printer_string (prompt ++ "setting environment variables U_FLAGS="
                         ++ add_defines 0 defines "") ;;
       ret (set "U_FLAGS" (add_defines 0 defines "") env)
     else ret env) ;;
  cleared <- (if negb clean then ret true else deltree) ;;
  if cleared then
    printer_string (prompt ++ "in directory " ++ getcwd ++ " calling"
                      ++ call_text (build_call_list board clean ubxlib_dir)) ;;
    built <- exe_run (build_call_list board clean ubxlib_dir)
                     (Some BUILD_GUARD_TIME_SECONDS) (Some env) ;;
    ret (if built then Some output_dir else None, env)
  else
    reporter_event EVENT_TYPE_BUILD EVENT_ERROR
                   (Text "unable to clean build directory") ;;
    ret (None, env).

(** The [for idx, define in enumerate(defines)] loop of [run]. *)
Fixpoint quote_defines (idx : nat) (defines : list string) (text : string)
  : string :=
  match defines with
  | [] => text
  | define :: defines' =>
      quote_defines (S idx) defines'
        (text ++ (if (idx =? 0)%nat then " " else ", ")
           ++ dq ++ define ++ dq)
  end.

(** What [run] says that it was told to do. *)
Definition told_to_do (mcu board : string) (connection : Connection)
           (clean : bool) (defines : list string)
           (ubxlib_dir working_dir : string) : string :=
  "running Zephyr for " ++ mcu ++ " (on a " ++ dq ++ board ++ dq
    ++ " board)"
    ++ match debugger connection with
       | Some serial => ", on JLink debugger serial number " ++ serial
       | None => ""
       end
    ++ (if clean then ", clean build" else "")
    ++ (if some_items defines
        then quote_defines 0 defines ", with #define(s)" else "")
    ++ (if nonempty ubxlib_dir
        then ", ubxlib directory " ++ dq ++ ubxlib_dir ++ dq else "")
    ++ (if nonempty working_dir
        then ", working directory " ++ dq ++ working_dir ++ dq else "").

(** The [while u_utils.keep_going(...) and not downloaded and (retries <
    3)] loop of [run], entered with [downloaded] False and with [chances]
    for [3 - retries]; the value is [downloaded]. The condition asks
    [keep_going] first, each time that it is evaluated. *)
Fixpoint download_loop (chances : nat) (connection : Connection)
         (jlink_device_name : option string) (build_dir : string)
         (env : Dict) (prompt : string) : Run bool :=
  going <- keep_going ;;
  match chances with
  | O => ret false
  | S chances' =>
      if going then
        downloaded <- download connection jlink_device_name
                               DOWNLOAD_GUARD_TIME_SECONDS build_dir
                               env prompt ;;
        if downloaded then
          keep_going ;;
          ret true
        else
          reporter_event EVENT_TYPE_DOWNLOAD EVENT_WARNING
                         (Text "unable to download, will retry...") ;;
          download_loop chances' connection jlink_device_name build_dir
                        env prompt
      else ret false
  end.

(** [connection["debugger"]]. *)
Definition subscript_debugger (connection : Connection)
  : Run (option string) :=
  match connection with
  | None => fail TypeError
  | Some d =>
      match lookup "debugger" d with
      | Some value => ret value
      | None => fail KeyError
      end
  end.

(** [u_monitor.main(rtt_reader, u_monitor.CONNECTION_RTT,
    RUN_GUARD_TIME_SECONDS, RUN_INACTIVITY_TIME_SECONDS, "\n", instance,
    printer, reporter, test_report_handle,
    keep_going_flag=keep_going_flag)]. *)
Definition monitor_main (instance : list Z) (test_report_handle : bool)
  : Run Z :=
  fun b =>
    let (outcome, w) :=
      main monitor_now monitor_printer_raises get_instance_text
           (Some RUN_GUARD_TIME_SECONDS)
           (Some RUN_INACTIVITY_TIME_SECONDS)
           (Some instance) true test_report_handle None monitor_turns
           new_world in
    let b' := mkBench (printed b) (reported b) (commands b) (sought b)
                      (versions b) (asked b) (probed b) (read b)
                      (deleted b) (resets b) (Some w) in
    match outcome with
    | Ok return_value => (Done return_value, b')
    | Raise e => (Failed (Monitor e), b')
    | Pending => (Waiting, b')
    end.

(** [run]. The locks and the toolchain, which it deletes, and the
    change of directory are left out. *)
Definition run (instance : list Z) (mcu board : string)
           (connection : Connection) (clean : bool)
           (defines : list string) (ubxlib_dir working_dir : string)
           (test_report_handle : bool) : Run Z :=
  let prompt := PROMPT ++ get_instance_text instance ++ ": " in
  printer_string (prompt
                    ++ told_to_do mcu board connection clean defines
                                  ubxlib_dir working_dir ++ ".") ;;
  reporter_event EVENT_TYPE_BUILD EVENT_START (Text "Zephyr") ;;
  going <- keep_going ;;
  installed <- (if going then check_installation TOOLS_LIST prompt
                else ret false) ;;
  if installed then
    returned_env <- set_env prompt ;;
    going <- keep_going ;;
    if going && some_items returned_env then
      print_env returned_env prompt ;;
      if nonempty board then
        build_start_time <- time ;;
        built <- build board clean ubxlib_dir defines returned_env
                       prompt ;;
        let (build_dir, returned_env) := built in
        going <- keep_going ;;
        match (if going then build_dir else None) with
        | Some (String c dir) =>
            let build_dir := String c dir in
            t <- time ;;
            reporter_event EVENT_TYPE_BUILD EVENT_PASSED
                           (BuildTook (t - build_start_time)) ;;
            if locked_connection then
              let jlink_device_name := jlink_device mcu in
              when (negb (named jlink_device_name))
                   (reporter_event EVENT_TYPE_INFRASTRUCTURE EVENT_WARNING
                                   (Text "MCU not found in JLink devices")) ;;
              reporter_event EVENT_TYPE_DOWNLOAD EVENT_START NoDetail ;;
              downloaded <- download_loop 3 connection jlink_device_name
                                          build_dir returned_env prompt ;;
              if downloaded then
                reporter_event EVENT_TYPE_DOWNLOAD EVENT_COMPLETE
                               NoDetail ;;
                reset_nrf_target ;;
                reporter_event EVENT_TYPE_TEST EVENT_START NoDetail ;;
                subscript_debugger connection ;;
                return_value <- monitor_main instance
                                             test_report_handle ;;
                (if (return_value =? 0)%Z
                 then reporter_event EVENT_TYPE_TEST EVENT_COMPLETE
                                     NoDetail
                 else reporter_event EVENT_TYPE_TEST EVENT_FAILED
                                     NoDetail) ;;
                ret return_value
              else
                reporter_event EVENT_TYPE_DOWNLOAD EVENT_FAILED
                               (Text "check debug log for details") ;;
                ret (-1)%Z
            else
              reporter_event EVENT_TYPE_INFRASTRUCTURE EVENT_FAILED
                             (Text "unable to lock a connection") ;;
              ret (-1)%Z
        | _ =>
            reporter_event EVENT_TYPE_BUILD EVENT_FAILED
                           (Text "check debug log for details") ;;
            ret 1%Z
        end
      else
        reporter_event EVENT_TYPE_INFRASTRUCTURE EVENT_FAILED
                       (Text "unable to find overlay file") ;;
        ret 1%Z
    else
      reporter_event EVENT_TYPE_INFRASTRUCTURE EVENT_FAILED
                     (Text "environment setup failed") ;;
      ret (-1)%Z
  else
    reporter_event EVENT_TYPE_INFRASTRUCTURE EVENT_FAILED
      (Text "there is a problem with the tools installation for Zephyr") ;;
    ret (-1)%Z.

End Environment.

End Zephyr.

(** ** The matcher finds only what the pattern can match *)

Lemma one_sound (p : ascii -> bool) c k res :
  one p c k = Some res ->
  exists b s, rest c = String b s /\ p b = true /\ k (advance c s) = Some res.
Proof.
  unfold one. destruct (rest c) as [|b s]; [discriminate|].
  destruct (p b) eqn:Hp; [|discriminate].
  intros H. exists b, s. auto.
Qed.

Lemma star_loop_sound step greedy r :
  (forall c k res, step c k = Some res ->
                   exists c', matches r c c' /\ k c' = Some res) ->
  forall fuel c k res,
    star_loop step greedy k fuel c = Some res ->
    exists c', matches (Star greedy r) c c' /\ k c' = Some res.
Proof.
  intros Hstep. induction fuel as [|fuel IH]; intros c k res H; simpl in H.
  - exists c. split; [constructor | assumption].
  - assert (Hmore : forall m,
      step c (fun c1 =>
        if (String.length (rest c1) <? String.length (rest c))%nat
        then star_loop step greedy k fuel c1 else None) = Some m ->
      exists c', matches (Star greedy r) c c' /\ k c' = Some m).
    { intros m Hm. apply Hstep in Hm as (c1 & Hc1 & Hm).
      destruct (String.length (rest c1) <? String.length (rest c))%nat;
        [|discriminate].
      apply IH in Hm as (c2 & Hc2 & Hm).
      exists c2. split; [econstructor; eassumption | assumption]. }
    destruct greedy.
    + destruct (step c _) as [m|] eqn:E.
      * apply Hmore, H.
      * exists c. split; [constructor | assumption].
    + destruct (k c) as [m|] eqn:E.
      * injection H as ->. exists c. split; [constructor | assumption].
      * apply Hmore, H.
Qed.

Lemma run_sound r : forall c k res,
  run r c k = Some res -> exists c', matches r c c' /\ k c' = Some res.
Proof.
  induction r as [ | a | | negated rs | r1 IH1 r2 IH2 | greedy r1 IH1
                 | n r1 IH1 | r1 IH1 | | ]; intros c k res H; simpl in H.
  - exists c. split; [constructor | assumption].
  - apply one_sound in H as (b & s & Hr & Hp & Hk).
    apply Ascii.eqb_eq in Hp as <-.
    exists (advance c s). split; [constructor; assumption | assumption].
  - apply one_sound in H as (b & s & Hr & Hp & Hk).
    apply negb_true_iff in Hp.
    exists (advance c s). split; [econstructor; eassumption | assumption].
  - apply one_sound in H as (b & s & Hr & Hp & Hk).
    exists (advance c s). split; [econstructor; eassumption | assumption].
  - apply IH1 in H as (c1 & H1 & H). apply IH2 in H as (c2 & H2 & H).
    exists c2. split; [econstructor; eassumption | assumption].
  - eapply star_loop_sound; eassumption.
  - apply IH1 in H as (c1 & H1 & H).
    exists (set_group n c c1). split; [constructor; assumption | assumption].
  - destruct (run r1 c Some) as [c1|] eqn:E; [|discriminate].
    apply IH1 in E as (c1' & H1 & E). injection E as ->.
    eexists. split; [constructor; eassumption | assumption].
  - destruct (before c =? 0)%nat eqn:E; [|discriminate].
    apply Nat.eqb_eq in E.
    exists c. split; [constructor; assumption | assumption].
  - destruct (String.eqb (rest c) "" || String.eqb (rest c) (String newline ""))
      eqn:E; [|discriminate].
    apply orb_true_iff in E. rewrite !String.eqb_eq in E.
    exists c. split; [constructor; assumption | assumption].
Qed.

Lemma re_match_sound r line m :
  re_match r line = Some m ->
  subject m = line /\
  matches r {| before := 0; rest := line; groups := [] |} (stop m).
Proof.
  unfold re_match. destruct (run r _ Some) as [c|] eqn:E; [|discriminate].
  intros H. injection H as <-. simpl.
  apply run_sound in E as (c' & Hc & E). injection E as ->. auto.
Qed.

(** A pattern without groups leaves the groups as they are. *)
Lemma matches_plain r c c' :
  matches r c c' -> plain r = true -> groups c' = groups c.
Proof.
  induction 1; simpl; intros Hp; try reflexivity; try discriminate.
  - apply andb_true_iff in Hp as [Hp1 Hp2].
    rewrite IHmatches2, IHmatches1; auto.
  - rewrite IHmatches2, IHmatches1; auto.
Qed.

Lemma took_nil c : took c c "".
Proof. split; [reflexivity | simpl; lia]. Qed.

Lemma string_app_assoc (a b c : string) : (a ++ b) ++ c = a ++ (b ++ c).
Proof. induction a; simpl; [reflexivity | now rewrite IHa]. Qed.

Lemma string_app_length (a b : string) :
  String.length (a ++ b) = (String.length a + String.length b)%nat.
Proof. induction a; simpl; [reflexivity | now rewrite IHa]. Qed.

Lemma took_trans c c1 c2 s1 s2 :
  took c c1 s1 -> took c1 c2 s2 -> took c c2 (s1 ++ s2).
Proof.
  intros [H1 H2] [H3 H4]. split.
  - rewrite H1, H3, string_app_assoc. reflexivity.
  - rewrite H4, H2, string_app_length. lia.
Qed.

Lemma took_advance c b s :
  rest c = String b s -> took c (advance c s) (String b "").
Proof. intros H. split; simpl; [assumption | lia]. Qed.

(** What a group holds is what its pattern took. *)
Lemma substring_prefix (s t : string) :
  substring 0 (String.length s) (s ++ t) = s.
Proof.
  induction s as [|a s IH]; simpl.
  - destruct t; reflexivity.
  - now rewrite IH.
Qed.

Lemma set_group_took n c c1 s :
  took c c1 s -> groups (set_group n c c1) = (n, s) :: groups c1.
Proof.
  intros [H1 H2]. unfold set_group. simpl.
  rewrite H2, H1.
  replace (before c + String.length s - before c)%nat with (String.length s)
    by lia.
  now rewrite substring_prefix.
Qed.

Lemma all_digits_cons c s :
  all_digits (String c s)
  = in_set false [("0"%char, "9"%char)] c && all_digits s.
Proof. reflexivity. Qed.

Lemma all_digits_app a b :
  all_digits a = true -> all_digits b = true -> all_digits (a ++ b) = true.
Proof.
  induction a; simpl; intros Ha Hb; [assumption|].
  apply andb_true_iff in Ha as [-> Ha]. simpl. auto.
Qed.

Lemma matches_seq_inv r1 r2 c c2 :
  matches (Seq r1 r2) c c2 ->
  exists c1, matches r1 c c1 /\ matches r2 c1 c2.
Proof. inversion 1; subst; eauto. Qed.

Lemma matches_group_inv n r c c2 :
  matches (Group n r) c c2 ->
  exists c1, matches r c c1 /\ c2 = set_group n c c1.
Proof. inversion 1; subst; eauto. Qed.

Lemma matches_lit_inv a c c' :
  matches (Lit a) c c' -> exists s, rest c = String a s /\ c' = advance c s.
Proof. inversion 1; subst; eauto. Qed.

Lemma matches_set_inv negated rs c c' :
  matches (InSet negated rs) c c' ->
  exists b s, rest c = String b s /\ in_set negated rs b = true /\
              c' = advance c s.
Proof. inversion 1; subst; eauto. Qed.

Lemma matches_star_inv greedy r c c2 :
  matches (Star greedy r) c c2 ->
  c2 = c \/ exists c1, matches r c c1 /\ matches (Star greedy r) c1 c2.
Proof. inversion 1; subst; eauto. Qed.

Lemma star_digit_took greedy c c' :
  matches (Star greedy digit) c c' ->
  exists s, took c c' s /\ all_digits s = true.
Proof.
  remember (Star greedy digit) as r eqn:Hr. induction 1; try discriminate.
  - exists "". split; [apply took_nil | reflexivity].
  - injection Hr as -> ->.
    destruct (IHmatches2 eq_refl) as (s2 & Ht2 & Hd2).
    apply matches_set_inv in H as (b & s & Hb & Hin & ->).
    exists (String b "" ++ s2). split.
    + eapply took_trans; [apply took_advance; eassumption | assumption].
    + change (String b "" ++ s2) with (String b s2).
      now rewrite all_digits_cons, Hd2, Hin.
Qed.

Lemma plus_digit_took greedy c c' :
  matches (Plus greedy digit) c c' ->
  exists s, took c c' s /\ all_digits s = true /\ s <> "".
Proof.
  unfold Plus. intros H.
  apply matches_seq_inv in H as (c1 & H1 & H2).
  apply star_digit_took in H2 as (s2 & Ht2 & Hd2).
  apply matches_set_inv in H1 as (b & s & Hb & Hin & ->).
  exists (String b "" ++ s2). split; [|split].
  - eapply took_trans; [apply took_advance; eassumption | assumption].
  - change (String b "" ++ s2) with (String b s2).
    now rewrite all_digits_cons, Hd2, Hin.
  - discriminate.
Qed.

(** [int] reads a string of digits as a number that is not negative. *)
Lemma digit_value_digit c :
  in_set false [("0"%char, "9"%char)] c = true ->
  exists d, digit_value c = Some d /\ (0 <= d)%Z.
Proof.
  unfold in_set, in_range, digit_value, existsb, fst, snd.
  change (nat_of_ascii "0") with 48%nat. change (nat_of_ascii "9") with 57%nat.
  rewrite orb_false_r, xorb_false_l. intros H. rewrite H.
  apply andb_true_iff in H as [H _]. apply Nat.leb_le in H.
  eexists. split; [reflexivity | lia].
Qed.

Lemma int_digits_digits s : forall acc,
  all_digits s = true -> (0 <= acc)%Z ->
  exists n, int_digits acc s = Some n /\ (0 <= n)%Z.
Proof.
  induction s as [|c s IH]; intros acc Hs Hacc.
  - exists acc. auto.
  - rewrite all_digits_cons in Hs. apply andb_true_iff in Hs as [Hc Hs].
    apply digit_value_digit in Hc as (d & Hd & Hd0).
    cbn [int_digits]. rewrite Hd. apply IH; [assumption | lia].
Qed.

Lemma py_int_digits s :
  all_digits s = true -> s <> "" ->
  (String.length s <= int_max_str_digits)%nat ->
  exists n, py_int s = Some n /\ (0 <= n)%Z.
Proof.
  intros Hs Hne Hlen. destruct s as [|c s]; [congruence|].
  unfold py_int.
  destruct (int_max_str_digits <? String.length (String c s))%nat eqn:E;
    [apply Nat.ltb_lt in E; lia|].
  apply int_digits_digits; [assumption | lia].
Qed.

(** [int] refuses a string of more than [int_max_str_digits] digits, and
    no other string of digits. *)
Lemma py_int_refuses s :
  all_digits s = true -> s <> "" ->
  (py_int s = None <-> (int_max_str_digits < String.length s)%nat).
Proof.
  intros Hs Hne. split.
  - intros H. destruct (Nat.le_gt_cases (String.length s) int_max_str_digits)
      as [L|L]; [|exact L].
    destruct (py_int_digits s Hs Hne L) as (n & E & _). congruence.
  - intros L. destruct s as [|c s]; [congruence|]. unfold py_int.
    apply Nat.ltb_lt in L. now rewrite L.
Qed.

Lemma py_int_nonneg s n : py_int s = Some n -> (0 <= n)%Z.
Proof.
  assert (H : forall s acc n, int_digits acc s = Some n -> (0 <= acc)%Z ->
                              (0 <= n)%Z).
  { clear. induction s as [|c s IH]; cbn [int_digits]; intros acc n H Hacc.
    - injection H as <-. assumption.
    - unfold digit_value in H. cbv zeta in H.
      destruct ((48 <=? nat_of_ascii c)%nat && (nat_of_ascii c <=? 57)%nat)
        eqn:E; [|discriminate].
      apply andb_true_iff in E as [E _]. apply Nat.leb_le in E.
      eapply IH; [eassumption | lia]. }
  destruct s as [|c s]; [discriminate|].
  unfold py_int.
  destruct (int_max_str_digits <? String.length (String c s))%nat;
    [discriminate|].
  intros Hs. eapply H; [exact Hs | lia].
Qed.

(** The three groups of a match of the summary pattern are digits, one at
    least each. *)
Lemma finish_groups line m :
  re_match re_finish line = Some m ->
  exists s1 s2 s3,
    group m 1 = Some s1 /\ all_digits s1 = true /\ s1 <> "" /\
    group m 2 = Some s2 /\ all_digits s2 = true /\ s2 <> "" /\
    group m 3 = Some s3 /\ all_digits s3 = true /\ s3 <> "".
Proof.
  intros H. apply re_match_sound in H as [_ H].
  unfold re_finish in H.
  repeat match type of H with
         | matches (Seq _ _) _ _ =>
             let c := fresh "c" in let H1 := fresh "H" in
             apply matches_seq_inv in H as (c & H1 & H)
         end.
  repeat match goal with
         | H : matches (Group _ _) _ _ |- _ =>
             let c := fresh "c" in let E := fresh "E" in
             apply matches_group_inv in H as (c & H & E)
         end.
  apply matches_seq_inv in H0 as (c11 & Hbol & H0).
  inversion Hbol; subst c11.
  pose proof (matches_plain _ _ _ H0 eq_refl) as P1.
  pose proof (matches_plain _ _ _ H4 eq_refl) as P2.
  pose proof (matches_plain _ _ _ H8 eq_refl) as P3.
  apply plus_digit_took in H0 as (s1 & T1 & D1 & N1).
  apply plus_digit_took in H4 as (s2 & T2 & D2 & N2).
  apply plus_digit_took in H8 as (s3 & T3 & D3 & N3).
  apply (set_group_took 1) in T1. apply (set_group_took 2) in T2.
  apply (set_group_took 3) in T3.
  apply matches_plain in H, H7, H6, H5, H3, H2, H1; try reflexivity.
  exists s1, s2, s3.
  assert (G : groups (stop m) = [(3, s3); (2, s2); (1, s1)]%nat).
  { subst c c3 c7. simpl in P1. congruence. }
  unfold group. rewrite G. simpl. auto 10.
Qed.

(** The one group of a match of the start, the PASS or the FAIL pattern. *)
Lemma matches_group_last n r r' c c' :
  matches (Seq (Group n r) r') c c' -> plain r' = true ->
  exists s, assoc n (groups c') = Some s.
Proof.
  intros H Hp. apply matches_seq_inv in H as (c1 & H1 & H2).
  apply matches_group_inv in H1 as (c0 & _ & ->).
  apply matches_plain in H2; [|assumption].
  rewrite H2. simpl. rewrite Nat.eqb_refl. eauto.
Qed.

Lemma item_group r1 r2 n r r' line m :
  re_match (Seq r1 (Seq r2 (Seq (Group (S n) r) r'))) line = Some m ->
  plain r' = true ->
  exists s, group m (S n) = Some s.
Proof.
  intros H Hp. apply re_match_sound in H as [_ H].
  apply matches_seq_inv in H as (c1 & _ & H).
  apply matches_seq_inv in H as (c2 & _ & H).
  unfold group. eapply matches_group_last; eassumption.
Qed.

Lemma run_group line m :
  re_match re_run line = Some m -> exists s, group m 1 = Some s.
Proof. intros H. eapply item_group; [exact H | reflexivity]. Qed.

Lemma pass_group line m :
  re_match re_pass line = Some m -> exists s, group m 1 = Some s.
Proof. intros H. eapply item_group; [exact H | reflexivity]. Qed.

Lemma fail_group line m :
  re_match re_fail line = Some m -> exists s, group m 1 = Some s.
Proof. intros H. eapply item_group; [exact H | reflexivity]. Qed.

(** ** Running the monad *)

Lemma bind_ok {A B} (c : M A) (f : A -> M B) w b w' :
  bind c f w = (Ok b, w') ->
  exists a w1, c w = (Ok a, w1) /\ f a w1 = (Ok b, w').
Proof.
  unfold bind. destruct (c w) as [[a| |] w1]; try discriminate. eauto.
Qed.

Lemma bind_run {A B} (c : M A) (f : A -> M B) w a w1 :
  c w = (Ok a, w1) -> bind c f w = f a w1.
Proof. unfold bind. now intros ->. Qed.

Lemma keeps_ret {A V} (view : World -> V) (a : A) : keeps view (ret a).
Proof. intros w. reflexivity. Qed.

Lemma keeps_raise {A V} (view : World -> V) e : keeps view (@raise A e).
Proof. intros w. reflexivity. Qed.

Lemma keeps_bind {A B V} (view : World -> V) (c : M A) (f : A -> M B) :
  keeps view c -> (forall a, keeps view (f a)) -> keeps view (bind c f).
Proof.
  intros Hc Hf w. unfold bind. specialize (Hc w).
  destruct (c w) as [[a| |] w1]; simpl in *; try assumption.
  now rewrite Hf.
Qed.

Lemma keeps_try {A V} (view : World -> V) (c : M A) h :
  keeps view c -> (forall e, keeps view (h e)) -> keeps view (try_except c h).
Proof.
  intros Hc Hh w. unfold try_except. specialize (Hc w).
  destruct (c w) as [[a|[]|] w1]; simpl in *; try assumption;
    now rewrite Hh.
Qed.

Lemma preserves_ret {A} (P : World -> Prop) (a : A) : preserves P (ret a).
Proof. intros w H. exact H. Qed.

Lemma preserves_bind {A B} (P : World -> Prop) (c : M A) (f : A -> M B) :
  preserves P c -> (forall a, preserves P (f a)) -> preserves P (bind c f).
Proof.
  intros Hc Hf w H. unfold bind. specialize (Hc w H).
  destruct (c w) as [[a| |] w1]; simpl in *; try assumption.
  now apply Hf.
Qed.

Lemma keeps_preserves {A V} (view : World -> V) (Q : V -> Prop) (c : M A) :
  keeps view c -> preserves (fun w => Q (view w)) c.
Proof. intros H w Hw. now rewrite H. Qed.

(** Naming the parts of a world. *)
Ltac open_world w :=
  destruct w as [?r ?tk ?pn ?lg ?ev ?tm ?ps ?pj ?rp ?le ?ex].

(** Running a piece of the monitor step by step: the innermost [match]
    that is stuck is split, and the rest computes. *)
Ltac split_match :=
  match goal with
  | |- context [match ?x with _ => _ end] =>
      lazymatch x with
      | context [match _ with _ => _ end] => fail
      | _ => destruct x eqn:?
      end
  end.

(** Splitting a goal [keeps view c] along the structure of [c]. *)
Ltac keeps_leaf :=
  let w := fresh "w" in
  intros w; open_world w;
  cbv [time printer_string reporter_event start_finish_timer delayed_finish
       set_loop_exit set_expired start_pump join_pump timer_thread write
       get_results update with_results ret raise group_of int_of
       results ticks prints log events timers pump_started pump_joined
       report loop_exit expired fst snd];
  repeat (split_match; cbv beta iota);
  reflexivity.

Ltac keeps_split :=
  repeat first
    [ apply keeps_bind; [| intros ?]
    | apply keeps_try; [| intros ?]
    | apply keeps_ret
    | match goal with
      | |- keeps _ (when ?b _) => destruct b; unfold when
      | |- keeps _ (if ?b then _ else _) => destruct b
      | |- keeps _ (match ?x with _ => _ end) => destruct x
      end ].

(** The same for [preserves counts_ok]. *)
Ltac counts_leaf :=
  let w := fresh "w" in
  let H := fresh "H" in
  intros w H; open_world w;
  cbv [time printer_string reporter_event start_finish_timer delayed_finish
       set_loop_exit set_expired start_pump join_pump timer_thread write
       get_results update with_results ret raise group_of int_of
       results ticks prints log events timers pump_started pump_joined
       report loop_exit expired fst snd];
  repeat (split_match; cbv beta iota);
  exact H.

Ltac run_monad :=
  cbv [bind try_except time printer_string reporter_event start_finish_timer
       delayed_finish set_loop_exit set_expired start_pump join_pump
       timer_thread write get_results update with_results ret raise
       group_of int_of when
       results ticks prints log events timers pump_started pump_joined
       report loop_exit expired fst snd];
  repeat (split_match; cbv beta iota).

Section Facts.

Variables (now : nat -> Q) (pr : nat -> option exn).

(** The handlers touch neither the two threads, nor the report, nor the
    record of how the loop ended. *)
Lemma call_keeps_surroundings h m reporter :
  keeps surroundings (call now pr h m reporter).
Proof.
  destruct h; unfold call, reboot_callback, run_callback,
    pass_callback, fail_callback, finish_callback, record_outcome;
    keeps_split; keeps_leaf.
Qed.

Lemma for_entries_keeps_surroundings table line reporter :
  keeps surroundings (for_entries now pr table line reporter).
Proof.
  induction table as [|entry table IH]; cbn [for_entries];
    [apply keeps_ret|].
  apply keeps_bind; [|intros _; exact IH].
  unfold try_entry. destruct (re_match _ _);
    [apply call_keeps_surroundings | apply keeps_ret].
Qed.

Lemma call_preserves_counts h m reporter :
  preserves counts_ok (call now pr h m reporter).
Proof.
  intros w [Hf Hr]. open_world w.
  cbn [results] in Hf, Hr.
  destruct h; unfold call, reboot_callback, run_callback,
    pass_callback, fail_callback, finish_callback, record_outcome,
    counts_ok;
    run_monad; simpl; try (split; lia);
    repeat match goal with
           | H : py_int _ = Some _ |- _ => apply py_int_nonneg in H
           end; split; lia.
Qed.

Lemma for_entries_preserves_counts table line reporter :
  preserves counts_ok (for_entries now pr table line reporter).
Proof.
  induction table as [|entry table IH]; cbn [for_entries];
    [apply preserves_ret|].
  apply preserves_bind; [|intros _; exact IH].
  unfold try_entry. destruct (re_match _ _);
    [apply call_preserves_counts | apply preserves_ret].
Qed.

(** No handler leaves the loop pending. *)
Lemma call_not_pending h m reporter w :
  fst (call now pr h m reporter w) <> Pending.
Proof.
  open_world w; destruct h; unfold call, reboot_callback, run_callback,
    pass_callback, fail_callback, finish_callback, record_outcome;
    run_monad; simpl; discriminate.
Qed.

Lemma for_entries_not_pending table line reporter : forall w,
  fst (for_entries now pr table line reporter w) <> Pending.
Proof.
  induction table as [|entry table IH]; intros w; cbn [for_entries];
    [discriminate|].
  unfold bind, try_entry.
  destruct (re_match (pattern entry) line) as [m|].
  - pose proof (call_not_pending (handler entry) m reporter w) as H.
    destruct (call now pr (handler entry) m reporter w) as [[[]| |] w1];
      cbn [fst] in *; [apply IH | discriminate | congruence].
  - apply IH.
Qed.

Lemma on_line_not_pending line reporter w :
  fst (on_line now pr line reporter w) <> Pending.
Proof.
  unfold on_line. unfold bind at 1. unfold time. unfold bind at 1.
  match goal with |- context [printer_string ?p ?msg ?w] =>
    destruct (printer_string p msg w) as [[[]|e|] w1] eqn:E end;
    cbn [fst]; try discriminate.
  - unfold bind.
    match goal with |- context [for_entries ?a ?b ?c ?d ?e ?w] =>
      pose proof (for_entries_not_pending c d e w) as H;
      destruct (for_entries a b c d e w) as [[[]| |] w2] end;
      cbn [fst ret] in *; congruence.
  - revert E. unfold printer_string. destruct (pr _); discriminate.
Qed.

(** The rule of the watching loop: [I] holds while it turns, [E] once
    its condition has failed, [R] when its body has raised. The body runs
    only while [finished] is unset. *)
Lemma watch_loop_rule (I E R : World -> Prop) reporter :
  preserves I (time now) ->
  preserves I timer_thread ->
  (forall x w, I w -> E (snd (set_loop_exit x w))) ->
  (forall line w, I w -> finished (results w) = false ->
     match on_line now pr line reporter w with
     | (Ok _, w') => I w'
     | (Raise _, w') => R w'
     | (Pending, _) => True
     end) ->
  forall turns guard inactivity start_time last_activity_time w,
    I w ->
    match watch_loop now pr guard inactivity reporter start_time
                     last_activity_time turns w with
    | (Ok _, w') => E w'
    | (Raise _, w') => R w'
    | (Pending, w') => I w'
    end.
Proof.
  intros Htime Htimer Hexit Hbody.
  assert (Hwithin : forall limit since w, I w ->
            exists b w', within now limit since w = (Ok b, w') /\ I w' /\
                         results w' = results w).
  { intros limit since w Hw. unfold within.
    destruct (truthy limit).
    - eexists _, _. split; [reflexivity|]. split; [|reflexivity].
      apply (Htime w Hw).
    - eexists _, _. split; [reflexivity|]. split; [exact Hw | reflexivity]. }
  induction turns as [|turn turns IH];
    intros guard inactivity start_time lat w Hw; cbn [watch_loop];
    [exact Hw|].
  destruct (keep_going turn); cbn [negb]; [|apply (Hexit _ _ Hw)].
  unfold bind at 1.
  assert (Hw1 : exists w1, when (timer_fired turn) timer_thread w = (Ok tt, w1)
                           /\ I w1).
  { unfold when. destruct (timer_fired turn).
    - specialize (Htimer w Hw). revert Htimer. unfold timer_thread.
      destruct (0 <? timers w)%nat; intros H;
        (eexists; split; [reflexivity | exact H]).
    - eexists; split; [reflexivity | exact Hw]. }
  destruct Hw1 as (w1 & -> & Hw1).
  unfold bind at 1. unfold get_results at 1.
  destruct (finished (results w1)) eqn:Hfin; [apply (Hexit _ _ Hw1)|].
  unfold bind at 1.
  destruct (Hwithin guard start_time w1 Hw1) as (b & w2 & -> & Hw2 & Hr2).
  destruct b; cbn [negb]; [|apply (Hexit _ _ Hw2)].
  unfold bind at 1.
  destruct (Hwithin inactivity lat w2 Hw2) as (b & w3 & -> & Hw3 & Hr3).
  destruct b; cbn [negb]; [|apply (Hexit _ _ Hw3)].
  unfold bind at 1.
  destruct (queued turn) as [line|].
  - assert (Hfin3 : finished (results w3) = false) by congruence.
    specialize (Hbody line w3 Hw3 Hfin3).
    pose proof (on_line_not_pending line reporter w3) as Hnp.
    destruct (on_line now pr line reporter w3) as [[t| |] w4]; cbn [fst] in *.
    + apply IH, Hbody.
    + exact Hbody.
    + congruence.
  - apply IH, Hw3.
Qed.

(** A property that the steps of the loop preserve is preserved by the
    loop, however it ends. *)
Lemma watch_loop_preserves (P : World -> Prop) reporter :
  preserves P (time now) ->
  preserves P timer_thread ->
  (forall x, preserves P (set_loop_exit x)) ->
  (forall line, preserves P (on_line now pr line reporter)) ->
  forall turns guard inactivity start_time last_activity_time,
    preserves P (watch_loop now pr guard inactivity reporter start_time
                            last_activity_time turns).
Proof.
  intros Htime Htimer Hexit Hbody turns guard inactivity start_time lat w Hw.
  pose proof (watch_loop_rule P P P reporter Htime Htimer
                (fun x w H => Hexit x w H)) as H.
  assert (Hb : forall line w, P w -> finished (results w) = false ->
            match on_line now pr line reporter w with
            | (Ok _, w') => P w'
            | (Raise _, w') => P w'
            | (Pending, _) => True
            end).
  { intros line w0 H0 _. specialize (Hbody line w0 H0).
    destruct (on_line now pr line reporter w0) as [[t|e|] w1]; auto. }
  specialize (H Hb turns guard inactivity start_time lat w Hw).
  destruct (watch_loop _ _ _ _ _ _ _ _ _) as [[t|e|] w']; exact H.
Qed.

Lemma on_line_keeps_surroundings line reporter :
  keeps surroundings (on_line now pr line reporter).
Proof.
  unfold on_line.
  apply keeps_bind; [keeps_leaf | intros t].
  apply keeps_bind; [keeps_leaf | intros _].
  apply keeps_bind; [apply for_entries_keeps_surroundings | intros _].
  apply keeps_ret.
Qed.

Lemma on_line_preserves_counts line reporter :
  preserves counts_ok (on_line now pr line reporter).
Proof.
  unfold on_line.
  apply preserves_bind; [counts_leaf | intros t].
  apply preserves_bind; [counts_leaf | intros _].
  apply preserves_bind; [apply for_entries_preserves_counts | intros _].
  apply preserves_ret.
Qed.

End Facts.

Section Session.

Variables (now : nat -> Q) (pr : nat -> option exn).
Variable get_instance_text : list Z -> string.

(** What the loop leaves behind in the record of how it ended. *)
Lemma watch_loop_exit reporter turns guard inactivity start_time lat w :
  loop_exit w = None ->
  match watch_loop now pr guard inactivity reporter start_time lat turns w
  with
  | (Ok _, w') => loop_exit w' <> None
  | (_, w') => loop_exit w' = None
  end.
Proof.
  intros Hw.
  pose proof (watch_loop_rule now pr
                (fun w => loop_exit w = None)
                (fun w => loop_exit w <> None)
                (fun w => loop_exit w = None) reporter) as H.
  match type of H with ?A -> ?B -> ?C -> ?D -> _ =>
    assert (H1 : A); [|assert (H2 : B); [|assert (H3 : C); [|assert (H4 : D)]]]
  end.
  - intros w0 H0. exact H0.
  - intros w0 H0. unfold timer_thread.
    destruct (0 <? timers w0)%nat; exact H0.
  - intros x w0 _. simpl. discriminate.
  - intros line w0 H0 _.
    pose proof (for_entries_keeps_surroundings now pr) as K.
    unfold on_line. run_monad; simpl; try exact H0; try exact I.
    all: match goal with
         | E : for_entries _ _ _ _ _ ?w1 = (_, ?w2) |- _ =>
             specialize (K INTERESTING line reporter w1);
             rewrite E in K; unfold surroundings in K; simpl in K;
             injection K as _ _ _ K _; rewrite K; exact H0
         end.
  - specialize (H H1 H2 H3 H4 turns guard inactivity start_time lat w Hw).
    destruct (watch_loop _ _ _ _ _ _ _ _ _) as [[t|e|] w']; exact H.
Qed.

(** While it turns the loop leaves the threads and the report alone, and
    the counts stay in order. *)
Lemma watch_loop_frame reporter turns guard inactivity start_time lat w :
  let w' := snd (watch_loop now pr guard inactivity reporter start_time lat
                            turns w) in
  loop_frame w' = loop_frame w /\ (counts_ok w -> counts_ok w').
Proof.
  split.
  - apply (watch_loop_preserves now pr
             (fun w' => loop_frame w' = loop_frame w) reporter); auto.
    + intros w0 H0. rewrite <- H0. now open_world w0.
    + intros w0 H0. rewrite <- H0. unfold timer_thread.
      open_world w0. now destruct tm.
    + intros x w0 H0. rewrite <- H0. now destruct w0.
    + intros line w0 H0. rewrite <- H0.
      pose proof (on_line_keeps_surroundings now pr line reporter w0) as K.
      unfold surroundings in K. unfold loop_frame. congruence.
  - apply (watch_loop_preserves now pr counts_ok reporter).
    + counts_leaf.
    + counts_leaf. all: destruct H; split; assumption.
    + intros x. counts_leaf.
    + intros line. apply on_line_preserves_counts.
Qed.

(** What follows the loop: [finished] is set and the thread is joined;
    the value is the sum of the two counts unless a timer is found
    expired. *)
Lemma after_loop_spec guard inactivity start_time lat w :
  expired w = None ->
  match after_loop now pr guard inactivity start_time lat w with
  | (Ok rv, w') =>
      (expired w' = None ->
       rv = (items_failed (results w') + reboots (results w'))%Z)
  | (Raise _, w') => expired w' <> None
  | (Pending, _) => False
  end /\
  let w' := snd (after_loop now pr guard inactivity start_time lat w) in
  finished (results w') = true /\ pump_joined w' = true /\
  loop_exit w' = loop_exit w /\ report w' = report w /\
  (counts_ok w -> counts_ok w').
Proof.
  intros Hw. open_world w. cbn [expired] in Hw.
  subst. unfold after_loop, past, counts_ok.
  run_monad; cbn; repeat split; try discriminate; try tauto; auto.
Qed.

Lemma watch_body_spec guard inactivity reporter start_time lat turns w :
  loop_exit w = None -> expired w = None -> counts_ok w ->
  match watch_body now pr guard inactivity reporter start_time lat turns w
  with
  | (Ok rv, w') =>
      loop_exit w' <> None /\
      finished (results w') = true /\ pump_joined w' = true /\
      counts_ok w' /\
      (expired w' = None ->
       rv = (items_failed (results w') + reboots (results w'))%Z)
  | (Raise _, w') =>
      loop_exit w' = None \/
      (expired w' <> None /\ finished (results w') = true /\
       pump_joined w' = true /\ counts_ok w')
  | (Pending, w') => loop_exit w' = None
  end /\
  report (snd (watch_body now pr guard inactivity reporter start_time lat
                          turns w)) = report w.
Proof.
  intros Hexit Hexp Hcounts. unfold watch_body, bind.
  pose proof (watch_loop_exit reporter turns guard inactivity start_time
                              lat w Hexit) as H1.
  destruct (watch_loop_frame reporter turns guard inactivity start_time
                             lat w) as [H2 H3].
  destruct (watch_loop _ _ _ _ _ _ _ _ _) as [[t|e|] w1]; cbn [snd] in *;
    unfold loop_frame in H2; injection H2 as F1 F2 F3 F4.
  - destruct (after_loop_spec guard inactivity start_time t w1)
      as (A1 & A2 & A3 & A4 & A5 & A6); [congruence|].
    destruct (after_loop _ _ _ _ _ _ _) as [[rv|e|] w2]; cbn [snd] in *.
    + split; [|congruence].
      split; [congruence|]. split; [exact A2|]. split; [exact A3|].
      split; [exact (A6 (H3 Hcounts)) | exact A1].
    + split; [|congruence]. right.
      split; [exact A1|]. split; [exact A2|]. split; [exact A3|].
      exact (A6 (H3 Hcounts)).
    + contradiction.
  - split; [now left | congruence].
  - split; [assumption | congruence].
Qed.

Lemma watch_items_spec guard inactivity reporter turns w :
  loop_exit w = None -> expired w = None -> counts_ok w ->
  match watch_items now pr guard inactivity reporter turns w with
  | (Ok rv, w') =>
      loop_exit w' <> None ->
      finished (results w') = true /\ pump_joined w' = true /\
      counts_ok w' /\
      (expired w' = None ->
       rv = (items_failed (results w') + reboots (results w'))%Z)
  | (_, w') => True
  end /\
  report (snd (watch_items now pr guard inactivity reporter turns w))
  = report w.
Proof.
  intros Hexit Hexp Hcounts. open_world w.
  cbn [loop_exit expired] in Hexit, Hexp. subst le ex.
  unfold watch_items.
  cbv [bind time printer_string start_pump results ticks prints log events
       timers pump_started pump_joined report loop_exit expired].
  destruct (pr pn) as [e|]; [split; [exact I | reflexivity]|].
  unfold try_except.
  match goal with |- context [watch_body ?x1 ?x2 ?x3 ?x4 ?x5 ?x6 ?x7 ?x8 ?x9] =>
    destruct (watch_body_spec x3 x4 x5 x6 x7 x8 x9 eq_refl eq_refl Hcounts)
      as [B1 B2];
    destruct (watch_body x1 x2 x3 x4 x5 x6 x7 x8 x9) as [[rv|e|] w1]
  end; cbn [snd report] in *.
  - split; [|exact B2]. intros _. tauto.
  - assert (H : forall e0,
              (loop_exit w1 = None \/
               (expired w1 <> None /\ finished (results w1) = true /\
                pump_joined w1 = true /\ counts_ok w1)) ->
              match (printer_string pr (LogException e0) ;; ret (-1)%Z) w1
              with
              | (Ok rv, w') =>
                  loop_exit w' <> None ->
                  finished (results w') = true /\ pump_joined w' = true /\
                  counts_ok w' /\
                  (expired w' = None ->
                   rv = (items_failed (results w') + reboots (results w'))%Z)
              | (_, w') => True
              end /\
              report (snd ((printer_string pr (LogException e0) ;;
                            ret (-1)%Z) w1)) = report w1).
    { intros e0 Hor. open_world w1.
      unfold counts_ok in *.
      cbn [loop_exit expired results pump_joined] in Hor.
      run_monad; cbn; (split; [|reflexivity]); try exact I.
      intros Hle. destruct Hor as [|(H1 & H2 & H3 & H4)]; [congruence|].
      repeat split; try tauto. }
    destruct e; try (split; [exact I | exact B2]).
    + destruct (H SerialException B1) as [H1 H2].
      split; [exact H1 | now rewrite <- B2].
    + destruct (H EOFError B1) as [H1 H2].
      split; [exact H1 | now rewrite <- B2].
  - split; [exact I | exact B2].
Qed.

(** Writing the report touches nothing but the report and the log. *)
Lemma write_outcomes_spec l : forall w,
  fst (write_outcomes l w) = Ok tt /\
  report (snd (write_outcomes l w))
  = (report w ++ map testcase_line l)%list /\
  core (snd (write_outcomes l w)) = core w.
Proof.
  induction l as [|o l IH]; intros w; cbn [write_outcomes map].
  - cbn. now rewrite app_nil_r.
  - unfold bind. cbn [write].
    destruct (IH (snd (write (testcase_line o) w))) as (I1 & I2 & I3).
    cbn [write snd] in I1, I2, I3.
    destruct (write_outcomes l _) as [[[]| |] w1]; try discriminate.
    cbn [fst snd] in *. rewrite I2, I3. cbn [report].
    rewrite <- app_assoc. auto.
Qed.

Lemma write_report_spec instance w res w' :
  write_report pr get_instance_text instance w = (res, w') ->
  match res with
  | Ok _ =>
      report w'
      = (report w
           ++ [testsuite_line get_instance_text instance (results w)]
           ++ map testcase_line (outcomes (results w))
           ++ [("</testsuite>" ++ nl)%string])%list
  | _ => report w' = report w
  end /\
  core w' = core w.
Proof.
  unfold write_report, bind, printer_string.
  destruct (pr (prints w)).
  { intros H. injection H as <- <-. split; reflexivity. }
  unfold get_results. cbn [results write].
  match goal with |- context [write_outcomes ?l ?w0] =>
    destruct (write_outcomes_spec l w0) as (I1 & I2 & I3);
    destruct (write_outcomes l w0) as [[[]| |] w1]
  end; try discriminate.
  cbn [fst snd write report] in *.
  intros H. injection H as <- <-. cbn [report]. rewrite I2.
  split; [|exact I3].
  rewrite <- !app_assoc. reflexivity.
Qed.

Lemma new_world_counts_ok (r : Results) tk pn lg ev tm ps pj rp le ex :
  items_failed r = 0%Z -> reboots r = 0%Z ->
  counts_ok (mkWorld r tk pn lg ev tm ps pj rp le ex).
Proof. unfold counts_ok. cbn. intros -> ->. lia. Qed.

(** A session from its beginning to the value it returns. *)
Lemma main_spec guard inactivity instance reporter test_report_handle
      send_first turns rv w' :
  main now pr get_instance_text guard inactivity instance reporter
       test_report_handle send_first turns new_world = (Ok rv, w') ->
  (loop_exit w' <> None ->
   finished (results w') = true /\ pump_joined w' = true /\
   counts_ok w' /\
   (expired w' = None ->
    rv = (items_failed (results w') + reboots (results w'))%Z)) /\
  report w'
  = if test_report_handle && given instance
    then ([testsuite_line get_instance_text
             (match instance with Some i => i | None => [] end) (results w')]
            ++ map testcase_line (outcomes (results w'))
            ++ [("</testsuite>" ++ nl)%string])%list
    else [].
Proof.
  intros H. unfold main in H.
  assert (Tail : forall rv0 w1,
    (when (test_report_handle && given instance)
          (write_report pr get_instance_text
             (match instance with Some i => i | None => [] end)) ;;
     printer_string pr (LogEnd rv0) ;; ret rv0) w1 = (Ok rv, w') ->
    rv0 = rv /\ core w' = core w1 /\
    report w'
    = (report w1 ++
       if test_report_handle && given instance
       then ([testsuite_line get_instance_text
                (match instance with Some i => i | None => [] end)
                (results w1)]
               ++ map testcase_line (outcomes (results w1))
               ++ [("</testsuite>" ++ nl)%string])
       else [])%list).
  { intros rv0 w1 T. unfold bind at 1 in T.
    destruct (test_report_handle && given instance); unfold when in T.
    - destruct (write_report _ _ _ _) as [res w2] eqn:E.
      apply write_report_spec in E as [E1 E2].
      destruct res as [[]| |]; try discriminate.
      revert T. unfold bind, printer_string, ret.
      destruct (pr (prints w2)); [discriminate|].
      intros T. injection T as <- <-. unfold core in *. cbn. auto.
    - revert T. unfold bind, printer_string, ret.
      destruct (pr (prints w1)); [discriminate|].
      intros T. injection T as <- <-. unfold core. cbn.
      now rewrite app_nil_r. }
  revert H.
  unfold bind at 1. cbn [update with_results new_world results ticks prints
    log events timers pump_started pump_joined report loop_exit expired].
  unfold bind at 1. cbn [time results ticks prints
    log events timers pump_started pump_joined report loop_exit expired].
  unfold bind at 1. cbn [update with_results results ticks prints
    log events timers pump_started pump_joined report loop_exit expired].
  unfold bind at 1.
  destruct send_first as [[|]|].
  2: { cbn [ret]. intros H. apply Tail in H as (<- & Hc & Hr).
       unfold core in Hc. cbn in Hc, Hr. injection Hc as C1 C2 C3 C4.
       split; [congruence|]. rewrite Hr, C1.
       destruct (test_report_handle && given instance); reflexivity. }
  all: unfold bind at 1; cbn [time results ticks prints log events timers
         pump_started pump_joined report loop_exit expired];
       unfold bind at 1; cbn [update with_results results ticks prints log
         events timers pump_started pump_joined report loop_exit expired];
       match goal with |- context [watch_items ?x1 ?x2 ?x3 ?x4 ?x5 ?x6 ?w0] =>
         destruct (watch_items_spec x3 x4 x5 x6 w0 eq_refl eq_refl)
           as [W1 W2];
         [apply new_world_counts_ok; reflexivity|];
         destruct (watch_items x1 x2 x3 x4 x5 x6 w0) as [[rv0| |] w1]
       end; try discriminate;
       intros H; apply Tail in H as (<- & Hc & Hr);
       unfold core in Hc; cbn [snd report] in W2;
       injection Hc as C1 C2 C3 C4;
       (split;
        [ intros Hle; rewrite C3 in Hle; unfold counts_ok;
          rewrite C1, C2, C4; exact (W1 Hle)
        | rewrite Hr, W2, C1;
          destruct (test_report_handle && given instance); reflexivity ]).
Qed.

End Session.

(** Running a piece of the monitor that is known to have returned. *)
Ltac invert_run H :=
  cbv [bind try_except time printer_string reporter_event start_finish_timer
       delayed_finish set_loop_exit set_expired start_pump join_pump
       timer_thread write get_results update with_results ret raise
       group_of int_of when
       results ticks prints log events timers pump_started pump_joined
       report loop_exit expired fst snd] in H;
  repeat (match type of H with
          | context [match ?x with _ => _ end] =>
              lazymatch x with
              | context [match _ with _ => _ end] => fail
              | _ => destruct x eqn:?
              end
          end; cbv beta iota in H);
  try discriminate H.

Lemma lines_of_app a b : lines_of (a ++ b) = (lines_of a ++ lines_of b)%list.
Proof.
  induction a as [|msg a IH]; [reflexivity|].
  destruct msg; cbn [lines_of app]; rewrite ?IH; reflexivity.
Qed.

Lemma lines_of_filter l : lines_of (filter of_line l) = lines_of l.
Proof.
  induction l as [|msg l IH]; [reflexivity|].
  destruct msg; cbn [filter of_line lines_of]; now rewrite ?IH.
Qed.

Lemma lines_trail w : lines w = lines_of (trail w).
Proof. unfold lines, trail. now rewrite lines_of_filter. Qed.

Lemma settled_refl w : settled w w.
Proof. split; auto. Qed.

Lemma settled_trans a b c : settled a b -> settled b c -> settled a c.
Proof.
  intros [L1 R1] [L2 R2]. split; [congruence|].
  destruct R1 as [R1|R1], R2 as [R2|R2]; rewrite R2, R1; auto.
Qed.

Lemma settles_ret {A} (a : A) : settles (ret a).
Proof. intros w. apply settled_refl. Qed.

Lemma settles_bind {A B} (c : M A) (f : A -> M B) :
  settles c -> (forall a, settles (f a)) -> settles (bind c f).
Proof.
  intros Hc Hf w. unfold bind. specialize (Hc w).
  destruct (c w) as [[a| |] w1]; cbn [snd] in *; try assumption.
  eapply settled_trans; [exact Hc | apply Hf].
Qed.

Lemma settled_lines w w' : settled w w' -> lines w' = lines w.
Proof. intros [H _]. now rewrite !lines_trail, H. Qed.

Lemma keeps_settles {A} (c : M A) :
  keeps trail c -> keeps results c -> settles c.
Proof. intros H1 H2 w. split; [apply H1 | left; apply H2]. Qed.

Section Handlers.

Variables (now : nat -> Q) (pr : nat -> option exn).

Lemma printer_keeps_lines msg :
  match msg with LogLine _ => False | _ => True end ->
  keeps lines (printer_string pr msg).
Proof.
  intros Hmsg w. unfold printer_string, lines.
  destruct (pr (prints w)); cbn [snd log]; [reflexivity|].
  rewrite lines_of_app. destruct msg; try contradiction;
    cbn [lines_of]; apply app_nil_r.
Qed.

Lemma call_keeps_lines h m reporter :
  keeps lines (call now pr h m reporter).
Proof.
  destruct h; unfold call, reboot_callback, run_callback,
    pass_callback, fail_callback, finish_callback, record_outcome;
    keeps_split;
    first [apply printer_keeps_lines; exact I | keeps_leaf].
Qed.

Lemma for_entries_keeps_lines table line reporter :
  keeps lines (for_entries now pr table line reporter).
Proof.
  induction table as [|entry table IH]; cbn [for_entries];
    [apply keeps_ret|].
  apply keeps_bind; [|intros _; exact IH].
  unfold try_entry. destruct (re_match _ _);
    [apply call_keeps_lines | apply keeps_ret].
Qed.

(** What the handlers do to the results when they return. *)
Lemma reboot_callback_ok m reporter w w' :
  reboot_callback pr m reporter w = (Ok tt, w') ->
  results w' = set_reboots (reboots (results w) + 1) (results w).
Proof.
  open_world w. unfold reboot_callback. intros H. invert_run H;
    injection H as <-; reflexivity.
Qed.

Lemma run_callback_ok m reporter w w' :
  run_callback now pr m reporter w = (Ok tt, w') ->
  results w'
  = set_items_run (items_run (results w) + 1)
      (set_last_start_time (now (ticks w)) (results w)).
Proof.
  open_world w. unfold run_callback. intros H. invert_run H;
    injection H as <-; reflexivity.
Qed.

Lemma pass_callback_ok m reporter w w' :
  pass_callback now pr m reporter w = (Ok tt, w') ->
  exists item,
    group m 1 = Some item /\
    results w'
    = set_outcomes
        (outcomes (results w)
           ++ [mkOutcome item
                 (ceil (now (ticks w) - last_start_time (results w)))
                 "PASS"])
        (results w).
Proof.
  open_world w. unfold pass_callback, record_outcome. intros H.
  invert_run H; injection H as <-; eexists; split; reflexivity.
Qed.

Lemma fail_callback_ok m reporter w w' :
  fail_callback now pr m reporter w = (Ok tt, w') ->
  exists item,
    group m 1 = Some item /\
    results w'
    = set_outcomes
        (outcomes (results w)
           ++ [mkOutcome item
                 (ceil (now (ticks w) - last_start_time (results w)))
                 "FAIL"])
        (set_items_failed (items_failed (results w) + 1) (results w)).
Proof.
  open_world w. unfold fail_callback, record_outcome. intros H.
  invert_run H; injection H as <-; eexists; split; reflexivity.
Qed.

Lemma finish_callback_ok m reporter w w' :
  finish_callback now pr m reporter w = (Ok tt, w') ->
  exists s1 s2 s3 n1 n2 n3,
    group m 1 = Some s1 /\ py_int s1 = Some n1 /\
    group m 2 = Some s2 /\ py_int s2 = Some n2 /\
    group m 3 = Some s3 /\ py_int s3 = Some n3 /\
    results w'
    = set_finished true
        (set_items_ignored n3
           (set_items_failed n2 (set_items_run n1 (results w)))).
Proof.
  open_world w. unfold finish_callback. intros H.
  invert_run H; injection H as <-;
    do 6 eexists;
    repeat (split; [first [reflexivity | eassumption]|]); reflexivity.
Qed.

End Handlers.

Section Lines.

Variables (now : nat -> Q) (pr : nat -> option exn).
Variable get_instance_text : list Z -> string.

Lemma time_settles : settles (time now).
Proof. apply keeps_settles; keeps_leaf. Qed.

Lemma printer_keeps_trail msg :
  of_line msg = false -> keeps trail (printer_string pr msg).
Proof.
  intros Hmsg w. unfold printer_string, trail.
  destruct (pr (prints w)); cbn [snd log]; [reflexivity|].
  rewrite filter_app. cbn [filter]. rewrite Hmsg. apply app_nil_r.
Qed.

Lemma printer_settles msg :
  of_line msg = false -> settles (printer_string pr msg).
Proof.
  intros Hmsg. apply keeps_settles;
    [apply printer_keeps_trail, Hmsg | keeps_leaf].
Qed.

Lemma timer_thread_settles : settles timer_thread.
Proof.
  intros w. open_world w. unfold timer_thread. cbn [timers].
  destruct (0 <? tm)%nat; [|apply settled_refl].
  split; [reflexivity | right; reflexivity].
Qed.

Lemma after_loop_settles guard inactivity start_time lat :
  settles (after_loop now pr guard inactivity start_time lat).
Proof.
  unfold after_loop, past.
  apply settles_bind;
    [intros w; open_world w; split; [reflexivity | right; reflexivity]|].
  intros _. apply settles_bind; [apply keeps_settles; keeps_leaf|].
  intros _. apply settles_bind.
  { destruct (truthy guard); [|apply settles_ret].
    apply settles_bind; [apply time_settles | intros; apply settles_ret]. }
  intros [|].
  { apply settles_bind; [apply keeps_settles; keeps_leaf|]. intros _.
    apply settles_bind; [apply printer_settles; reflexivity|]. intros _.
    apply settles_ret. }
  apply settles_bind.
  { destruct (truthy inactivity); [|apply settles_ret].
    apply settles_bind; [apply time_settles | intros; apply settles_ret]. }
  intros [|].
  { apply settles_bind; [apply keeps_settles; keeps_leaf|]. intros _.
    apply settles_bind; [apply printer_settles; reflexivity|]. intros _.
    apply settles_ret. }
  apply settles_bind; [apply keeps_settles; keeps_leaf|]. intros r.
  apply settles_ret.
Qed.

Lemma write_outcomes_settles l : settles (write_outcomes l).
Proof.
  induction l as [|o l IH]; cbn [write_outcomes]; [apply settles_ret|].
  apply settles_bind; [apply keeps_settles; keeps_leaf | intros _; exact IH].
Qed.

Lemma write_report_settles instance :
  settles (write_report pr get_instance_text instance).
Proof.
  unfold write_report.
  apply settles_bind; [apply printer_settles; reflexivity|]. intros _.
  apply settles_bind; [apply keeps_settles; keeps_leaf|]. intros r.
  apply settles_bind; [apply keeps_settles; keeps_leaf|]. intros _.
  apply settles_bind; [apply write_outcomes_settles|]. intros _.
  apply keeps_settles; keeps_leaf.
Qed.

End Lines.

Section SessionRule.

Variables (now : nat -> Q) (pr : nat -> option exn).
Variable get_instance_text : list Z -> string.

(** A property of the lines taken and the results that holds when a
    session begins, and again after each line that the loop has handled,
    holds whenever the session waits for a line, and when it has left the
    loop through its condition. *)
Variable Inv : World -> Prop.
Hypothesis Inv_settled : forall w w', settled w w' -> Inv w -> Inv w'.
Hypothesis Inv_begin : forall w,
  trail w = [] ->
  results w
  = set_overall_start_time (now 1) (set_last_start_time (now 0) new_results) ->
  Inv w.
Hypothesis Inv_line : forall line reporter w t w',
  Inv w -> finished (results w) = false ->
  on_line now pr line reporter w = (Ok t, w') -> Inv w'.

Lemma settles_preserves {A} (c : M A) : settles c -> preserves Inv c.
Proof. intros H w Hw. exact (Inv_settled _ _ (H w) Hw). Qed.

Lemma watch_loop_session reporter turns guard inactivity start_time lat w :
  Inv w ->
  match watch_loop now pr guard inactivity reporter start_time lat turns w
  with
  | (Raise _, _) => True
  | (_, w') => Inv w'
  end.
Proof.
  intros Hw.
  pose proof (watch_loop_rule now pr Inv Inv (fun _ => True) reporter) as H.
  match type of H with ?A -> ?B -> ?C -> ?D -> _ =>
    assert (H1 : A); [|assert (H2 : B); [|assert (H3 : C); [|assert (H4 : D)]]]
  end.
  - apply settles_preserves, time_settles.
  - apply settles_preserves, timer_thread_settles.
  - intros x w0 H0. revert H0. apply Inv_settled. open_world w0.
    split; [reflexivity | left; reflexivity].
  - intros line w0 H0 Hfin.
    destruct (on_line now pr line reporter w0) as [[t|e|] w1] eqn:E; auto.
    eapply Inv_line; eassumption.
  - specialize (H H1 H2 H3 H4 turns guard inactivity start_time lat w Hw).
    destruct (watch_loop _ _ _ _ _ _ _ _ _) as [[t|e|] w']; exact H.
Qed.

Lemma watch_body_session guard inactivity reporter start_time lat turns w :
  Inv w -> loop_exit w = None ->
  match watch_body now pr guard inactivity reporter start_time lat turns w
  with
  | (Raise _, w') => loop_exit w' = None \/ Inv w'
  | (_, w') => Inv w'
  end.
Proof.
  intros Hw Hexit. unfold watch_body, bind.
  pose proof (watch_loop_exit now pr reporter turns guard inactivity
                              start_time lat w Hexit) as H1.
  pose proof (watch_loop_session reporter turns guard inactivity start_time
                                 lat w Hw) as H2.
  destruct (watch_loop _ _ _ _ _ _ _ _ _) as [[t|e|] w1].
  - pose proof (after_loop_settles now pr guard inactivity start_time t w1)
      as H3.
    apply Inv_settled in H3; [|exact H2].
    destruct (after_loop _ _ _ _ _ _ _) as [[rv|e|] w2]; cbn [snd] in H3;
      auto.
  - now left.
  - exact H2.
Qed.

Lemma watch_items_session guard inactivity reporter turns w :
  Inv w -> loop_exit w = None ->
  match watch_items now pr guard inactivity reporter turns w with
  | (Ok _, w') => loop_exit w' <> None -> Inv w'
  | (Raise _, _) => True
  | (Pending, w') => Inv w'
  end.
Proof.
  intros Hw Hexit. unfold watch_items.
  unfold bind at 1. cbn [time].
  unfold bind at 1. cbn [time].
  unfold bind at 1.
  match goal with |- context [printer_string pr ?msg ?w0] =>
    pose proof (printer_settles pr msg eq_refl w0) as S1;
    assert (L1 : loop_exit (snd (printer_string pr msg w0)) = None)
      by (unfold printer_string; destruct (pr (prints w0)); exact Hexit);
    assert (Hw0 : Inv w0) by
      (revert Hw; apply Inv_settled; open_world w;
       split; [reflexivity | left; reflexivity]);
    apply Inv_settled in S1; [|exact Hw0];
    destruct (printer_string pr msg w0) as [[[]|e|] w1]
  end; cbn [snd] in *; try exact Logic.I; try exact S1.
  unfold bind at 1. cbn [start_pump].
  unfold try_except.
  match goal with |- context [watch_body ?x1 ?x2 ?x3 ?x4 ?x5 ?x6 ?x7 ?x8 ?x9] =>
    assert (Hw2 : Inv x9) by
      (revert S1; apply Inv_settled; open_world w1;
       split; [reflexivity | left; reflexivity]);
    pose proof (watch_body_session x3 x4 x5 x6 x7 x8 x9 Hw2 L1) as B;
    destruct (watch_body x1 x2 x3 x4 x5 x6 x7 x8 x9) as [[rv|e|] w2]
  end.
  - intros _. exact B.
  - assert (H : forall e0,
              match (printer_string pr (LogException e0) ;; ret (-1)%Z) w2
              with
              | (Ok _, w') => loop_exit w' <> None -> Inv w'
              | (Raise _, _) => True
              | (Pending, w') => Inv w'
              end).
    { intros e0. unfold bind.
      pose proof (printer_settles pr (LogException e0) eq_refl w2) as S2.
      assert (L2 : loop_exit (snd (printer_string pr (LogException e0) w2))
                   = loop_exit w2)
        by (unfold printer_string; destruct (pr (prints w2)); reflexivity).
      destruct (printer_string pr (LogException e0) w2) as [[[]|e1|] w3]
        eqn:E; cbn [snd ret] in *; auto.
      - intros Hle. destruct B as [B|B]; [congruence|].
        exact (Inv_settled _ _ S2 B).
      - unfold printer_string in E.
        destruct (pr (prints w2)); discriminate. }
    destruct e; try exact Logic.I;
      [exact (H SerialException) | exact (H EOFError)].
  - exact B.
Qed.

Lemma main_tail test_report_handle instance rv0 w1 :
  let r := (when (test_report_handle && given instance)
              (write_report pr get_instance_text
                 (match instance with Some i => i | None => [] end)) ;;
            printer_string pr (LogEnd rv0) ;; ret rv0) w1 in
  fst r <> Pending /\ settled w1 (snd r) /\ loop_exit (snd r) = loop_exit w1.
Proof.
  cbv zeta. split; [|split].
  - unfold bind at 1.
    destruct (when _ _ w1) as [[[]|e|] w2] eqn:E; cbn [fst];
      try discriminate.
    + unfold bind, printer_string. destruct (pr (prints w2)); discriminate.
    + unfold when in E. destruct (test_report_handle && given instance);
        [|discriminate].
      unfold write_report, bind, printer_string in E.
      destruct (pr (prints w1)); [discriminate|].
      cbn [get_results write] in E.
      match type of E with context [write_outcomes ?l ?w0] =>
        destruct (write_outcomes_spec l w0) as (I1 & _);
        destruct (write_outcomes l w0) as [[[]| |] w3]
      end; discriminate.
  - apply (settles_bind _ _); [|intros _].
    + unfold when. destruct (test_report_handle && given instance);
        [apply write_report_settles | apply settles_ret].
    + apply settles_bind; [apply printer_settles; reflexivity|].
      intros _. apply settles_ret.
  - unfold bind at 1.
    assert (H : loop_exit (snd (when (test_report_handle && given instance)
              (write_report pr get_instance_text
                 (match instance with Some i => i | None => [] end)) w1))
                = loop_exit w1).
    { unfold when. destruct (test_report_handle && given instance);
        [|reflexivity].
      destruct (write_report _ _ _ _) as [res w2] eqn:E.
      apply write_report_spec in E as [_ E]. unfold core in E.
      cbn [snd]. congruence. }
    destruct (when _ _ w1) as [[[]|e|] w2]; cbn [snd] in *; try exact H.
    rewrite <- H. unfold bind, printer_string.
    destruct (pr (prints w2)); reflexivity.
Qed.

Theorem main_session guard inactivity instance reporter test_report_handle
        send_first turns :
  match main now pr get_instance_text guard inactivity instance reporter
             test_report_handle send_first turns new_world with
  | (Ok _, w') => loop_exit w' <> None -> Inv w'
  | (Raise _, _) => True
  | (Pending, w') => Inv w'
  end.
Proof.
  unfold main.
  unfold bind at 1. cbn [update with_results new_world results ticks prints
    log events timers pump_started pump_joined report loop_exit expired].
  unfold bind at 1. cbn [time results ticks prints
    log events timers pump_started pump_joined report loop_exit expired].
  unfold bind at 1. cbn [update with_results results ticks prints
    log events timers pump_started pump_joined report loop_exit expired].
  unfold bind at 1.
  destruct send_first as [[|]|].
  2: { cbn [ret].
       match goal with |- context [bind ?c ?f ?w1] =>
         destruct (main_tail test_report_handle instance (-1)%Z w1)
           as (T1 & T2 & T3);
         destruct (bind c f w1) as [[rv| |] w2]
       end; cbn [fst snd] in *; try exact Logic.I; try congruence.
       intros H. cbn in T3. congruence. }
  all: unfold bind at 1; cbn [time results ticks prints log events timers
         pump_started pump_joined report loop_exit expired];
       unfold bind at 1; cbn [update with_results results ticks prints log
         events timers pump_started pump_joined report loop_exit expired];
       match goal with |- context [watch_items ?x1 ?x2 ?x3 ?x4 ?x5 ?x6 ?w0] =>
         assert (Hw0 : Inv w0) by (eapply Inv_begin; reflexivity);
         pose proof (watch_items_session x3 x4 x5 x6 w0 Hw0 eq_refl) as W;
         destruct (watch_items x1 x2 x3 x4 x5 x6 w0) as [[rv0| |] w1]
       end; try exact Logic.I; try exact W;
       match goal with |- context [bind ?c ?f ?w9] =>
         destruct (main_tail test_report_handle instance rv0 w9)
           as (T1 & T2 & T3);
         destruct (bind c f w9) as [[rv| |] w2]
       end; cbn [fst snd] in *; try exact Logic.I; try congruence;
       intros H; rewrite T3 in H; exact (Inv_settled _ _ T2 (W H)).
Qed.

End SessionRule.

(** A summary line whose numbers [int] takes has its three numbers. *)
Lemma summary_some line m :
  re_match re_finish line = Some m -> int_takes m ->
  exists s1 s2 s3 n1 n2 n3,
    group m 1 = Some s1 /\ py_int s1 = Some n1 /\
    group m 2 = Some s2 /\ py_int s2 = Some n2 /\
    group m 3 = Some s3 /\ py_int s3 = Some n3 /\
    summary line = Some (n1, n2, n3).
Proof.
  intros H T. destruct (finish_groups line m H)
    as (s1 & s2 & s3 & G1 & D1 & N1 & G2 & D2 & N2 & G3 & D3 & N3).
  destruct (py_int_digits s1 D1 N1 (T 1%nat s1 ltac:(lia) G1))
    as (n1 & I1 & _).
  destruct (py_int_digits s2 D2 N2 (T 2%nat s2 ltac:(lia) G2))
    as (n2 & I2 & _).
  destruct (py_int_digits s3 D3 N3 (T 3%nat s3 ltac:(lia) G3))
    as (n3 & I3 & _).
  exists s1, s2, s3, n1, n2, n3. repeat (split; [assumption|]).
  unfold summary. now rewrite H, G1, G2, G3, I1, I2, I3.
Qed.

(** The three numbers of a line are those of the groups of its match. *)
Lemma summary_inv line n1 n2 n3 :
  summary line = Some (n1, n2, n3) ->
  exists m s1 s2 s3,
    re_match re_finish line = Some m /\
    group m 1 = Some s1 /\ py_int s1 = Some n1 /\
    group m 2 = Some s2 /\ py_int s2 = Some n2 /\
    group m 3 = Some s3 /\ py_int s3 = Some n3.
Proof.
  unfold summary.
  destruct (re_match re_finish line) as [m|] eqn:E; [|discriminate].
  destruct (group m 1) as [s1|] eqn:G1; [|discriminate].
  destruct (group m 2) as [s2|] eqn:G2; [|discriminate].
  destruct (group m 3) as [s3|] eqn:G3; [|discriminate].
  destruct (py_int s1) as [k1|] eqn:I1; [|discriminate].
  destruct (py_int s2) as [k2|] eqn:I2; [|discriminate].
  destruct (py_int s3) as [k3|] eqn:I3; [|discriminate].
  intros H. injection H as <- <- <-. exists m, s1, s2, s3.
  repeat split; assumption.
Qed.

Lemma summary_none line :
  re_match re_finish line = None -> summary line = None.
Proof. intros H. unfold summary. now rewrite H. Qed.

Lemma runs_interesting line :
  runs (matching INTERESTING line) = if is_start line then 1%Z else 0%Z.
Proof.
  unfold INTERESTING, is_start. cbn [matching pattern handler].
  destruct (re_match re_abort line), (re_match re_guru line),
    (re_match re_hardfault line), (re_match re_zephyr line),
    (re_match re_run line), (re_match re_pass line),
    (re_match re_fail line), (re_match re_finish line); reflexivity.
Qed.

Section LineFacts.

Variables (now : nat -> Q) (pr : nat -> option exn).

Lemma call_items_run h m reporter w w' :
  h <> FinishCallback ->
  call now pr h m reporter w = (Ok tt, w') ->
  items_run (results w')
  = (items_run (results w)
     + match h with RunCallback => 1 | _ => 0 end)%Z.
Proof.
  intros Hh H. destruct h; cbn [call] in H; try congruence.
  - apply reboot_callback_ok in H. rewrite H. cbn. lia.
  - apply run_callback_ok in H. rewrite H. reflexivity.
  - apply pass_callback_ok in H as (item & _ & H). rewrite H. cbn. lia.
  - apply fail_callback_ok in H as (item & _ & H). rewrite H. cbn. lia.
Qed.

Lemma for_entries_items_run line reporter table : forall w w',
  (forall e, In e table -> handler e = FinishCallback ->
             re_match (pattern e) line = None) ->
  for_entries now pr table line reporter w = (Ok tt, w') ->
  items_run (results w')
  = (items_run (results w) + runs (matching table line))%Z.
Proof.
  induction table as [|e table IH]; intros w w' Hfin H;
    cbn [for_entries matching] in *.
  - injection H as <-. unfold runs. cbn. lia.
  - apply bind_ok in H as ([] & w1 & H1 & H2).
    apply IH in H2; [|intros e0 He0; apply Hfin; now right].
    rewrite H2. unfold try_entry in H1.
    destruct (re_match (pattern e) line) as [m|] eqn:E.
    + apply call_items_run in H1.
      * rewrite H1. unfold runs. cbn [filter fst].
        destruct (handler e); cbn [List.length]; lia.
      * intros Hh. rewrite (Hfin e (or_introl eq_refl) Hh) in E.
        discriminate.
    + injection H1 as <-. lia.
Qed.

Lemma for_entries_last line reporter e table : forall w w',
  for_entries now pr (table ++ [e]) line reporter w = (Ok tt, w') ->
  exists w1,
    for_entries now pr table line reporter w = (Ok tt, w1) /\
    try_entry now pr e line reporter w1 = (Ok tt, w').
Proof.
  induction table as [|e0 table IH]; intros w w' H;
    cbn [for_entries app] in *.
  - apply bind_ok in H as ([] & w1 & H1 & H2). injection H2 as <-.
    exists w. auto.
  - apply bind_ok in H as ([] & w1 & H1 & H2).
    apply IH in H2 as (w2 & H2 & H3). exists w2. split; [|exact H3].
    now rewrite (bind_run _ _ _ _ _ H1).
Qed.

(** What the loop has done once it has handled a line. *)
Lemma on_line_ok line reporter w t w' :
  on_line now pr line reporter w = (Ok t, w') ->
  lines w' = (lines w ++ [line])%list /\
  (re_match re_finish line = None ->
   items_run (results w')
   = (items_run (results w) + if is_start line then 1 else 0)%Z) /\
  (forall n1 n2 n3, summary line = Some (n1, n2, n3) ->
     finished (results w') = true /\
     items_run (results w') = n1 /\ items_failed (results w') = n2 /\
     items_ignored (results w') = n3).
Proof.
  unfold on_line. intros H.
  apply bind_ok in H as (t0 & w1 & H1 & H).
  apply bind_ok in H as ([] & w2 & H2 & H).
  apply bind_ok in H as ([] & w3 & H3 & H).
  injection H as <- <-.
  assert (R2 : results w2 = results w /\ lines w2 = (lines w ++ [line])%list).
  { open_world w. unfold time in H1. injection H1 as <- <-.
    unfold printer_string in H2. cbn [prints] in H2.
    destruct (pr pn); [discriminate|]. injection H2 as <-.
    unfold lines. cbn [results log]. rewrite lines_of_app. auto. }
  destruct R2 as [R2 L2].
  split; [|split].
  - pose proof (for_entries_keeps_lines now pr INTERESTING line reporter w2)
      as K. rewrite H3 in K. cbn [snd] in K. congruence.
  - intros Hnone.
    apply for_entries_items_run in H3.
    + now rewrite H3, R2, runs_interesting.
    + unfold INTERESTING. intros e He Hh. cbn [In] in He.
      repeat (destruct He as [<-|He]; [try discriminate Hh|]);
        [exact Hnone | contradiction].
  - intros n1 n2 n3 Hsum.
    change INTERESTING with
      ([ mkEntry src_abort re_abort RebootCallback;
         mkEntry src_guru re_guru RebootCallback;
         mkEntry src_hardfault re_hardfault RebootCallback;
         mkEntry src_zephyr re_zephyr RebootCallback;
         mkEntry src_run re_run RunCallback;
         mkEntry src_pass re_pass PassCallback;
         mkEntry src_fail re_fail FailCallback ]
         ++ [mkEntry src_finish re_finish FinishCallback])%list in H3.
    apply for_entries_last in H3 as (w4 & _ & H4).
    unfold try_entry in H4. cbn [pattern handler call] in H4.
    destruct (summary_inv line n1 n2 n3 Hsum)
      as (m & s1 & s2 & s3 & E & G1 & I1 & G2 & I2 & G3 & I3).
    rewrite E in H4.
    apply finish_callback_ok in H4
      as (a1 & a2 & a3 & k1 & k2 & k3 & F1 & J1 & F2 & J2 & F3 & J3 & F).
    rewrite F. cbn.
    repeat split; congruence.
Qed.

End LineFacts.

Lemma replay_app since a b :
  replay since (a ++ b)
  = (replay since a ++ replay (latest_start since a) b)%list.
Proof.
  revert since. induction a as [|msg a IH]; intros since; [reflexivity|].
  destruct msg; cbn [replay latest_start app]; rewrite IH; reflexivity.
Qed.

Lemma latest_start_app since a b :
  latest_start since (a ++ b) = latest_start (latest_start since a) b.
Proof.
  revert since. induction a as [|msg a IH]; intros since; [reflexivity|].
  destruct msg; cbn [latest_start app]; rewrite IH; reflexivity.
Qed.

Lemma replay_filter since l : replay since (filter of_line l) = replay since l.
Proof.
  revert since. induction l as [|msg l IH]; intros since; [reflexivity|].
  destruct msg; cbn [filter of_line replay]; now rewrite ?IH.
Qed.

Lemma latest_start_filter since l :
  latest_start since (filter of_line l) = latest_start since l.
Proof.
  revert since. induction l as [|msg l IH]; intros since; [reflexivity|].
  destruct msg; cbn [filter of_line latest_start]; now rewrite ?IH.
Qed.

Section Invariants.

Variables (now : nat -> Q) (pr : nat -> option exn).

Lemma told_trail w :
  told now w <->
  outcomes (results w) = replay (now 0) (trail w) /\
  last_start_time (results w) = latest_start (now 0) (trail w).
Proof.
  unfold told, trail. now rewrite replay_filter, latest_start_filter.
Qed.

Lemma told_settled w w' : settled w w' -> told now w -> told now w'.
Proof.
  intros [T R]. rewrite !told_trail, T.
  destruct R as [-> | ->]; auto.
Qed.

Lemma call_told h m reporter w w' :
  call now pr h m reporter w = (Ok tt, w') -> told now w -> told now w'.
Proof.
  open_world w. unfold told. cbn [results log]. intros H [T1 T2].
  destruct h; cbn [call] in H;
    unfold reboot_callback, run_callback, pass_callback, fail_callback,
      finish_callback, record_outcome in H;
    invert_run H; injection H as <-; cbn [results log];
    rewrite replay_app, latest_start_app; cbn;
    rewrite ?app_nil_r, ?T1, ?T2; auto.
Qed.

Lemma for_entries_told table line reporter : forall w w',
  for_entries now pr table line reporter w = (Ok tt, w') ->
  told now w -> told now w'.
Proof.
  induction table as [|e table IH]; intros w w' H Hw;
    cbn [for_entries] in H.
  - now injection H as <-.
  - apply bind_ok in H as ([] & w1 & H1 & H2).
    apply (IH _ _ H2). unfold try_entry in H1.
    destruct (re_match (pattern e) line).
    + eapply call_told; eassumption.
    + now injection H1 as <-.
Qed.

Lemma on_line_told line reporter w t w' :
  on_line now pr line reporter w = (Ok t, w') -> told now w -> told now w'.
Proof.
  unfold on_line. intros H Hw.
  apply bind_ok in H as (t0 & w1 & H1 & H).
  apply bind_ok in H as ([] & w2 & H2 & H).
  apply bind_ok in H as ([] & w3 & H3 & H).
  injection H as <- <-.
  apply (for_entries_told _ _ _ _ _ H3).
  open_world w. unfold time in H1. injection H1 as <- <-.
  unfold printer_string in H2. cbn [prints] in H2.
  destruct (pr pn); [discriminate|]. injection H2 as <-.
  unfold told in *. cbn [results log] in *.
  rewrite replay_app, latest_start_app. cbn. now rewrite app_nil_r.
Qed.

Lemma summed_settled w w' : settled w w' -> summed w -> summed w'.
Proof.
  intros S Hw line n1 n2 n3 Hin Hsum.
  rewrite (settled_lines _ _ S) in Hin.
  destruct (Hw line n1 n2 n3 Hin Hsum) as (F & A & B & C).
  destruct S as [_ [-> | ->]]; cbn; auto.
Qed.

Lemma on_line_summed line reporter w t w' :
  summed w -> finished (results w) = false ->
  on_line now pr line reporter w = (Ok t, w') -> summed w'.
Proof.
  intros Hw Hfin H. apply on_line_ok in H as (L & _ & S).
  intros l n1 n2 n3 Hin Hsum. rewrite L in Hin.
  apply in_app_or in Hin as [Hin | [<- | []]].
  - destruct (Hw l n1 n2 n3 Hin Hsum) as [F _]. congruence.
  - apply S, Hsum.
Qed.

Lemma counted_settled w w' : settled w w' -> counted w -> counted w'.
Proof.
  intros S Hw Hno. unfold counted, starts_seen in *.
  fold (lines w') in *. fold (lines w) in *.
  rewrite (settled_lines _ _ S) in *.
  destruct S as [_ [-> | ->]]; cbn; auto.
Qed.

Lemma on_line_counted line reporter w t w' :
  counted w ->
  on_line now pr line reporter w = (Ok t, w') -> counted w'.
Proof.
  intros Hw H. apply on_line_ok in H as (L & C & _).
  intros Hno. unfold counted, starts_seen in *.
  fold (lines w') in *. fold (lines w) in *. rewrite L in *.
  rewrite C by (apply Hno, in_or_app; right; now left).
  rewrite Hw by (intros l Hl; apply Hno, in_or_app; now left).
  rewrite filter_app, length_app, Nat2Z.inj_add. cbn [filter].
  destruct (is_start line); reflexivity.
Qed.

End Invariants.

Section Sessions.

Variables (now : nat -> Q) (pr : nat -> option exn).
Variable get_instance_text : list Z -> string.

Lemma begin_lines w : trail w = [] -> lines w = [].
Proof. intros H. now rewrite lines_trail, H. Qed.

Lemma session_summed guard inactivity instance reporter test_report_handle
      send_first turns :
  let s := main now pr get_instance_text guard inactivity instance reporter
                test_report_handle send_first turns new_world in
  at_rest s -> summed (snd s).
Proof.
  cbv zeta. unfold at_rest.
  pose proof (main_session now pr get_instance_text summed
                summed_settled) as H.
  specialize (H (fun w Ht _ line n1 n2 n3 Hin =>
                   False_ind _ (eq_ind (lines w) (fun l => In line l) Hin
                                       [] (begin_lines w Ht)))).
  specialize (H (on_line_summed now pr)).
  specialize (H guard inactivity instance reporter test_report_handle
                send_first turns).
  destruct (main _ _ _ _ _ _ _ _ _ _ _) as [[rv|e|] w']; cbn [fst snd];
    auto; contradiction.
Qed.

Lemma session_counted guard inactivity instance reporter test_report_handle
      send_first turns :
  let s := main now pr get_instance_text guard inactivity instance reporter
                test_report_handle send_first turns new_world in
  at_rest s -> counted (snd s).
Proof.
  cbv zeta. unfold at_rest.
  pose proof (main_session now pr get_instance_text counted
                counted_settled) as H.
  assert (B : forall w, trail w = [] ->
              results w = set_overall_start_time (now 1)
                            (set_last_start_time (now 0) new_results) ->
              counted w).
  { intros w Ht Hr _. unfold starts_seen. fold (lines w).
    rewrite (begin_lines w Ht), Hr. reflexivity. }
  specialize (H B (fun line reporter w t w' Hw _ =>
                     on_line_counted now pr line reporter w t w' Hw)).
  specialize (H guard inactivity instance reporter test_report_handle
                send_first turns).
  destruct (main _ _ _ _ _ _ _ _ _ _ _) as [[rv|e|] w']; cbn [fst snd];
    auto; contradiction.
Qed.

Lemma session_told guard inactivity instance reporter test_report_handle
      send_first turns :
  let s := main now pr get_instance_text guard inactivity instance reporter
                test_report_handle send_first turns new_world in
  at_rest s -> told now (snd s).
Proof.
  cbv zeta. unfold at_rest.
  pose proof (main_session now pr get_instance_text (told now)
                (told_settled now)) as H.
  assert (B : forall w, trail w = [] ->
              results w = set_overall_start_time (now 1)
                            (set_last_start_time (now 0) new_results) ->
              told now w).
  { intros w Ht Hr. apply told_trail. rewrite Ht, Hr. split; reflexivity. }
  specialize (H B (fun line reporter w t w' Hw _ H =>
                     on_line_told now pr line reporter w t w' H Hw)).
  specialize (H guard inactivity instance reporter test_report_handle
                send_first turns).
  destruct (main _ _ _ _ _ _ _ _ _ _ _) as [[rv|e|] w']; cbn [fst snd];
    auto; contradiction.
Qed.

End Sessions.

(** ** Helpers of the claims *)

Lemma finish_callback_total now pr m reporter w s1 s2 s3 n1 n2 n3 :
  group m 1 = Some s1 -> py_int s1 = Some n1 ->
  group m 2 = Some s2 -> py_int s2 = Some n2 ->
  group m 3 = Some s3 -> py_int s3 = Some n3 ->
  pr (prints w) = None ->
  exists w',
    finish_callback now pr m reporter w = (Ok tt, w') /\
    results w'
    = set_finished true
        (set_items_ignored n3
           (set_items_failed n2 (set_items_run n1 (results w)))).
Proof.
  intros G1 I1 G2 I2 G3 I3 P. open_world w. cbn [prints] in P.
  unfold finish_callback.
  cbv [bind time printer_string reporter_event get_results update
       with_results ret raise group_of int_of when
       results ticks prints log events timers pump_started pump_joined
       report loop_exit expired].
  rewrite G1, I1, G2, I2, G3, I3, P.
  destruct reporter; eexists; split; reflexivity.
Qed.

Lemma run_callback_total now pr line m reporter w :
  re_match re_run line = Some m -> pr (prints w) = None ->
  exists w',
    run_callback now pr m reporter w = (Ok tt, w') /\
    results w'
    = set_items_run (items_run (results w) + 1)
        (set_last_start_time (now (ticks w)) (results w)).
Proof.
  intros Hm P. destruct (run_group line m Hm) as [item G].
  open_world w. cbn [prints] in P. unfold run_callback.
  cbv [bind time printer_string get_results update with_results ret raise
       group_of results ticks prints log events timers pump_started
       pump_joined report loop_exit expired].
  rewrite G, P. eexists; split; reflexivity.
Qed.

Lemma serial_loop_empty terminator line :
  serial_loop [] terminator line = (None, []).
Proof. reflexivity. Qed.

Lemma readline_and_queue_empty terminator calls :
  readline_and_queue calls [] terminator = ([], []).
Proof.
  induction calls as [|calls IH]; [reflexivity|].
  cbn [readline_and_queue]. unfold pwar_readline.
  rewrite serial_loop_empty, IH. reflexivity.
Qed.

Lemma serial_loop_gap terminator rest prefix : forall line,
  forallb (mid_line terminator) prefix = true ->
  serial_loop (map Some prefix ++ None :: rest)%list terminator line
  = (None, rest).
Proof.
  induction prefix as [|b prefix IH]; intros line H; [reflexivity|].
  cbn [forallb] in H. apply andb_true_iff in H as [Hb H].
  cbn [map app serial_loop]. unfold mid_line in Hb.
  destruct (decode b) as [character|]; [|discriminate].
  apply negb_true_iff in Hb. rewrite Hb. apply IH, H.
Qed.

(** * The claims *)

(** C1, as the specification has it, fails: the line "abort Running x..."
    matches the first pattern and the fifth, and both handlers are called,
    where first-match-wins would call the first only. *)
Lemma first_match_does_not_win :
  let line := "abort Running x..." in
  let w := snd (for_entries seconds quiet INTERESTING line false new_world) in
  let w1 := snd (first_match_wins seconds quiet INTERESTING line false
                                  new_world) in
  log w = [LogReboot; LogStarted "x" (seconds 0)] /\
  reboots (results w) = 1%Z /\ items_run (results w) = 1%Z /\
  log w1 = [LogReboot] /\ items_run (results w1) = 0%Z.
Proof. vm_compute. auto 6. Qed.

(** C1, amended. For every line the patterns are tried in the order of the
    table, all of them, and the handler of every pattern that matches is
    called, in that order: a match does not keep the later patterns from
    being tried. *)
Theorem every_match_is_dispatched now pr table line reporter w :
  for_entries now pr table line reporter w
  = call_each now pr (matching table line) reporter w /\
  map fst (matching table line) = map handler (filter (hits line) table).
Proof.
  split.
  - revert w. induction table as [|entry table IH]; intros w;
      cbn [for_entries matching]; [reflexivity|].
    unfold try_entry. destruct (re_match (pattern entry) line) as [m|].
    + cbn [call_each]. unfold bind.
      destruct (call now pr (handler entry) m reporter w) as [[[]| |] w1];
        [apply IH | reflexivity..].
    + unfold bind. cbn [ret]. apply IH.
  - induction table as [|entry table IH]; [reflexivity|].
    cbn [matching filter]. unfold hits at 1.
    destruct (re_match (pattern entry) line); cbn [map fst]; now rewrite IH.
Qed.

(** C2. When the watching loop of a session ends because [finished] was
    set, and neither timer is then found expired, the value returned is
    [items_failed + reboots]; it is 0 exactly when both counts are 0. *)
Theorem completed_return_value
        now pr get_instance_text guard inactivity instance reporter
        test_report_handle send_first turns rv w' :
  main now pr get_instance_text guard inactivity instance reporter
       test_report_handle send_first turns new_world = (Ok rv, w') ->
  loop_exit w' = Some ExitFinished ->
  expired w' = None ->
  rv = (items_failed (results w') + reboots (results w'))%Z /\
  (rv = 0%Z <->
   items_failed (results w') = 0%Z /\ reboots (results w') = 0%Z).
Proof.
  intros H Hexit Hexp. apply main_spec in H as [H _].
  destruct H as (_ & _ & [Hf Hr] & Hrv); [congruence|].
  specialize (Hrv Hexp). split; [exact Hrv | lia].
Qed.

Lemma completed_return_value_witness :
  fst failed_session = Ok 1%Z /\
  (1 = items_failed (results (snd failed_session))
       + reboots (results (snd failed_session)))%Z.
Proof.
  split; [vm_compute; reflexivity|].
  apply (completed_return_value seconds quiet dotted None None None false
           false None
           [line_turn "/a/b.c:10:testFoo:FAIL:oops";
            line_turn "1 Tests 1 Failures 0 Ignored"; idle_turn]
           1%Z (snd failed_session));
    vm_compute; reflexivity.
Defined.

(** C3, as the specification has it, fails: a session that is cancelled in
    its first turn returns 0, which is not negative. *)
Lemma cancelled_returns_zero :
  let r := main seconds quiet dotted None None None false false None
                [cancel_turn] new_world in
  fst r = Ok 0%Z /\
  loop_exit (snd r) = Some ExitCancelled /\ expired (snd r) = None.
Proof. vm_compute. auto. Qed.

(** C3, amended. When the watching loop of a session ends because
    cancellation was asked, and neither timer is then found expired, the
    value returned is [items_failed + reboots] as counted so far, which is
    zero or more: there is no negative value for cancellation. *)
Theorem cancelled_return_value
        now pr get_instance_text guard inactivity instance reporter
        test_report_handle send_first turns rv w' :
  main now pr get_instance_text guard inactivity instance reporter
       test_report_handle send_first turns new_world = (Ok rv, w') ->
  loop_exit w' = Some ExitCancelled ->
  expired w' = None ->
  rv = (items_failed (results w') + reboots (results w'))%Z /\ (0 <= rv)%Z.
Proof.
  intros H Hexit Hexp. apply main_spec in H as [H _].
  destruct H as (_ & _ & [Hf Hr] & Hrv); [congruence|].
  specialize (Hrv Hexp). split; [exact Hrv | lia].
Qed.

Lemma cancelled_return_value_witness :
  fst cancelled_session = Ok 1%Z /\
  (1 = items_failed (results (snd cancelled_session))
       + reboots (results (snd cancelled_session)))%Z /\ (0 <= 1)%Z.
Proof.
  split; [vm_compute; reflexivity|].
  apply (cancelled_return_value seconds quiet dotted None None None false
           false None
           [line_turn "/a/b.c:10:testFoo:FAIL:oops"; cancel_turn]
           1%Z (snd cancelled_session));
    vm_compute; reflexivity.
Defined.

(** C4, as the specification has it, fails: on a port where "ab" arrives,
    then nothing for one read, then "c" and the terminator, the first call
    returns nothing, the second returns "c", and no number of calls ever
    yields "abc". *)
Lemma partial_line_is_lost :
  pwar_readline gap_port (Some cr)
  = (None, [byte_of "c"; byte_of (ascii_of_nat 13)]) /\
  pwar_readline [byte_of "c"; byte_of (ascii_of_nat 13)] (Some cr)
  = (Some "c", []) /\
  forall calls,
    ~ In "abc" (fst (readline_and_queue calls gap_port (Some cr))).
Proof.
  assert (H1 : pwar_readline gap_port (Some cr)
               = (None, [byte_of "c"; byte_of (ascii_of_nat 13)]))
    by (vm_compute; reflexivity).
  assert (H2 : pwar_readline [byte_of "c"; byte_of (ascii_of_nat 13)] (Some cr)
               = (Some "c", [])) by (vm_compute; reflexivity).
  split; [exact H1|]. split; [exact H2|].
  intros [|[|calls]].
  - cbn. tauto.
  - vm_compute. tauto.
  - cbn [readline_and_queue]. rewrite H1, H2, readline_and_queue_empty.
    cbn. intros [H | []]. discriminate.
Qed.

(** C4, amended. When a read of the serial port finds no data in the
    middle of a line, the call returns nothing and the characters read so
    far are dropped: nothing of them is kept, and the next call starts a
    new line with what arrives after the gap. *)
Theorem gap_drops_partial_line prefix rest terminator :
  forallb (mid_line (match terminator with Some t => t | None => nl end))
          prefix = true ->
  pwar_readline (map Some prefix ++ None :: rest)%list terminator
  = (None, rest).
Proof. intros H. unfold pwar_readline. apply serial_loop_gap, H. Qed.

Lemma gap_drops_partial_line_witness :
  pwar_readline gap_port (Some cr)
  = (None, [byte_of "c"; byte_of (ascii_of_nat 13)]).
Proof.
  apply (gap_drops_partial_line
           [byte_of_ascii "a"; byte_of_ascii "b"]
           [byte_of "c"; byte_of (ascii_of_nat 13)] (Some cr)).
  vm_compute. reflexivity.
Defined.

(** C5, as the specification has it, fails: a line that begins with a
    number of 4301 digits matches the summary pattern, and its handler
    raises [ValueError], as [int] does for a string of more than 4300
    digits, before any count is overwritten; nothing in [watch_items]
    catches it, so that the session ends with this exception. *)
Lemma long_number_is_refused :
  exists m,
    re_match re_finish long_summary = Some m /\
    group m 1 = Some long_number /\
    String.length long_number = 4301%nat /\
    fst (finish_callback seconds quiet m false new_world)
    = Raise ValueError /\
    items_run (results (snd (finish_callback seconds quiet m false
                                             new_world))) = 0%Z /\
    fst long_summary_session = Raise ValueError.
Proof.
  destruct (re_match re_finish long_summary) as [m|] eqn:E;
    [|vm_compute in E; discriminate].
  exists m. split; [reflexivity|].
  vm_compute in E. injection E as <-.
  repeat split; vm_compute; reflexivity.
Qed.

(** C5, amended. The handler of a summary line whose three numbers have
    4300 digits at most each, which is what [int] takes, sets [items_run],
    [items_failed] and [items_ignored] to the three numbers of the line,
    whatever they were; the line "22 Tests 1 Failures 0 Ignored" gives 22,
    1 and 0, and a session that has handled it and completes returns 1
    plus the number of reboots. *)
Theorem summary_overwrites_counts :
  (forall now pr line m reporter w,
     re_match re_finish line = Some m -> int_takes m ->
     pr (prints w) = None ->
     exists n1 n2 n3 w',
       summary line = Some (n1, n2, n3) /\
       finish_callback now pr m reporter w = (Ok tt, w') /\
       items_run (results w') = n1 /\ items_failed (results w') = n2 /\
       items_ignored (results w') = n3) /\
  summary "22 Tests 1 Failures 0 Ignored" = Some (22, 1, 0)%Z /\
  (forall now pr get_instance_text guard inactivity instance reporter
          test_report_handle send_first turns rv w',
     main now pr get_instance_text guard inactivity instance reporter
          test_report_handle send_first turns new_world = (Ok rv, w') ->
     loop_exit w' = Some ExitFinished -> expired w' = None ->
     In "22 Tests 1 Failures 0 Ignored" (lines w') ->
     items_run (results w') = 22%Z /\ items_failed (results w') = 1%Z /\
     items_ignored (results w') = 0%Z /\
     rv = (1 + reboots (results w'))%Z).
Proof.
  split; [|split].
  - intros now pr line m reporter w Hm T P.
    destruct (summary_some line m Hm T)
      as (s1 & s2 & s3 & n1 & n2 & n3 & G1 & I1 & G2 & I2 & G3 & I3 & S).
    destruct (finish_callback_total now pr m reporter w _ _ _ _ _ _
                G1 I1 G2 I2 G3 I3 P) as (w' & H & R).
    exists n1, n2, n3, w'. rewrite R. cbn. auto.
  - vm_compute. reflexivity.
  - intros now pr get_instance_text guard inactivity instance reporter
           test_report_handle send_first turns rv w' H Hexit Hexp Hin.
    pose proof (session_summed now pr get_instance_text guard inactivity
                  instance reporter test_report_handle send_first turns) as S.
    cbv zeta in S. unfold at_rest in S. rewrite H in S. cbn [fst snd] in S.
    destruct (S ltac:(congruence) _ 22%Z 1%Z 0%Z Hin)
      as (_ & A & B & C); [vm_compute; reflexivity|].
    apply main_spec in H as [H _].
    destruct H as (_ & _ & _ & Hrv); [congruence|].
    repeat split; try assumption. rewrite (Hrv Hexp), B. reflexivity.
Qed.

Lemma summary_overwrites_counts_witness :
  (exists m w',
     re_match re_finish "22 Tests 1 Failures 0 Ignored" = Some m /\
     finish_callback seconds quiet m false new_world = (Ok tt, w') /\
     items_run (results w') = 22%Z) /\
  fst summary_session = Ok 2%Z /\
  reboots (results (snd summary_session)) = 1%Z.
Proof.
  destruct summary_overwrites_counts as (H1 & H2 & H3).
  split; [|split].
  - destruct (re_match re_finish "22 Tests 1 Failures 0 Ignored") as [m|] eqn:E;
      [|vm_compute in E; discriminate].
    assert (T : int_takes m).
    { pose proof E as E'. vm_compute in E'. injection E' as <-.
      intros n s Hn G. destruct n as [|[|[|[|n]]]]; try lia;
        vm_compute in G; injection G as <-;
        apply Nat.leb_le; vm_compute; reflexivity. }
    destruct (H1 seconds quiet _ m false new_world E T eq_refl)
      as (n1 & n2 & n3 & w' & S & F & A & _).
    exists m, w'. split; [reflexivity|]. split; [exact F|].
    rewrite H2 in S. injection S as <- <- <-. exact A.
  - vm_compute. reflexivity.
  - assert (M : main seconds quiet dotted None None None false false None
                [line_turn "abort() was called";
                 line_turn "22 Tests 1 Failures 0 Ignored"; idle_turn]
                new_world = (Ok 2%Z, snd summary_session))
      by (vm_compute; reflexivity).
    assert (E1 : loop_exit (snd summary_session) = Some ExitFinished)
      by (vm_compute; reflexivity).
    assert (E2 : expired (snd summary_session) = None)
      by (vm_compute; reflexivity).
    assert (Hin : In "22 Tests 1 Failures 0 Ignored"
                     (lines (snd summary_session)))
      by (vm_compute; auto).
    destruct (H3 _ _ _ _ _ _ _ _ _ _ _ _ M E1 E2 Hin) as (_ & _ & _ & R).
    lia.
Defined.

(** C6, as the specification has it, fails: when item B starts before
    item A is resolved, the duration recorded for A runs from the start of
    B, not from its own start. *)
Lemma duration_from_latest_start :
  log (snd interleaved_session)
  = [LogWatching;
     LogLine "Running A..."; LogStarted "A" (seconds 5);
     LogLine "Running B..."; LogStarted "B" (seconds 7);
     LogLine "/a/b.c:10:A:PASS"; LogPassed "A" (seconds 9) 2] /\
  outcomes (results (snd interleaved_session)) = [mkOutcome "A" 2 "PASS"] /\
  ceil (seconds 9 - seconds 5) = 4%Z.
Proof. vm_compute. auto. Qed.

(** C6, amended. In every state of a session at rest the outcomes
    recorded are those of the PASS and FAIL markers handled, in the order
    of their arrival, and the duration of each is the time from the latest
    item-start marker handled before it, of whichever item (from the start
    of the session when there was none), to the marker itself, rounded up
    to whole seconds. So "Running testFoo..." and, three seconds later,
    "/a/b.c:10:testFoo:PASS" give the one outcome ("testFoo", 3, "PASS"). *)
Theorem outcomes_follow_markers :
  (forall now pr get_instance_text guard inactivity instance reporter
          test_report_handle send_first turns,
     let s := main now pr get_instance_text guard inactivity instance
                   reporter test_report_handle send_first turns new_world in
     at_rest s ->
     outcomes (results (snd s)) = replay (now 0%nat) (log (snd s))) /\
  (forall now : nat -> Q,
     now 7%nat - now 5%nat == 3 ->
     let s := main now quiet dotted None None None false false None
                   [line_turn "Running testFoo...";
                    line_turn "/a/b.c:10:testFoo:PASS"] new_world in
     log (snd s)
     = [LogWatching;
        LogLine "Running testFoo..."; LogStarted "testFoo" (now 5%nat);
        LogLine "/a/b.c:10:testFoo:PASS";
        LogPassed "testFoo" (now 7%nat) 3] /\
     outcomes (results (snd s)) = [mkOutcome "testFoo" 3 "PASS"]).
Proof.
  split.
  - intros now pr get_instance_text guard inactivity instance reporter
           test_report_handle send_first turns s Hrest.
    exact (proj1 (session_told now pr get_instance_text guard inactivity
                    instance reporter test_report_handle send_first turns
                    Hrest)).
  - intros now Hgap s.
    assert (C : ceil (now 7%nat - now 5%nat) = 3%Z).
    { unfold ceil. rewrite Hgap. reflexivity. }
    subst s.
    remember (main _ _ _ _ _ _ _ _ _ _ _) as s eqn:E.
    lazy -[ceil Qminus] in E.
    rewrite E. cbn [snd log results outcomes]. rewrite C. auto.
Qed.

Lemma outcomes_follow_markers_witness :
  outcomes (results (snd interleaved_session))
  = replay (seconds 0) (log (snd interleaved_session)) /\
  outcomes
    (results
       (snd (main (fun n => if (n <? 6)%nat then 0 else 3) quiet dotted None
                  None None false false None
                  [line_turn "Running testFoo...";
                   line_turn "/a/b.c:10:testFoo:PASS"] new_world)))
  = [mkOutcome "testFoo" 3 "PASS"].
Proof.
  destruct outcomes_follow_markers as (H1 & H2).
  split.
  - unfold interleaved_session.
    pose proof (H1 seconds quiet dotted None None None false false None
                  [line_turn "Running A..."; line_turn "Running B...";
                   line_turn "/a/b.c:10:A:PASS"]) as E.
    cbv zeta in E. apply E. vm_compute. exact I.
  - destruct (H2 (fun n => if (n <? 6)%nat then 0 else 3)) as [_ H];
      [reflexivity | exact H].
Defined.

(** C7: when the printer raises [EOFError] on the first line that the loop
    echoes, [watch_items] catches it and returns -1 with [finished] still
    unset and the reading thread started but not joined. *)
Theorem exception_leaves_pump_running :
  let r := main seconds (failing 1 EOFError) dotted None None None false
                false None [line_turn "hello"] new_world in
  fst r = Ok (-1)%Z /\
  finished (results (snd r)) = false /\
  pump_started (snd r) = true /\ pump_joined (snd r) = false.
Proof. vm_compute. auto. Qed.

(** On every way out of the loop through its condition, [finished] is set
    and the reading thread is joined. *)
Lemma condition_exit_joins_pump
      now pr get_instance_text guard inactivity instance reporter
      test_report_handle send_first turns rv w' :
  main now pr get_instance_text guard inactivity instance reporter
       test_report_handle send_first turns new_world = (Ok rv, w') ->
  loop_exit w' <> None ->
  finished (results w') = true /\ pump_joined w' = true.
Proof.
  intros H Hexit. apply main_spec in H as [H _].
  destruct (H Hexit) as (H1 & H2 & _). auto.
Qed.

(** C8, as the specification has it, fails: when the summary line
    "10 Tests 5 Failures 0 Ignored" reaches the serial port with a gap after
    its first character, the line queued is "0 Tests 5 Failures 0 Ignored",
    and the session ends with 5 failed items out of 0 run. *)
Lemma failed_exceeds_run :
  fst (readline_and_queue 2 torn_summary_port (Some cr))
  = ["0 Tests 5 Failures 0 Ignored"] /\
  fst torn_summary_session = Ok 5%Z /\
  loop_exit (snd torn_summary_session) = Some ExitFinished /\
  items_run (results (snd torn_summary_session)) = 0%Z /\
  items_failed (results (snd torn_summary_session)) = 5%Z /\
  ~ (items_failed (results (snd torn_summary_session))
     <= items_run (results (snd torn_summary_session)))%Z.
Proof.
  repeat (split; [vm_compute; reflexivity|]).
  vm_compute. intros H. apply H. reflexivity.
Qed.

(** C8, amended. In every state of a session at rest in which a summary
    line has been handled, [items_run] and [items_failed] are the first two
    numbers of that line, whatever lines are offered afterwards; so
    [items_failed <= items_run] holds exactly when the line says so. *)
Theorem summary_counts_stand
        now pr get_instance_text guard inactivity instance reporter
        test_report_handle send_first turns line n1 n2 n3 :
  let s := main now pr get_instance_text guard inactivity instance reporter
                test_report_handle send_first turns new_world in
  at_rest s ->
  In line (lines (snd s)) -> summary line = Some (n1, n2, n3) ->
  items_run (results (snd s)) = n1 /\ items_failed (results (snd s)) = n2 /\
  ((items_failed (results (snd s)) <= items_run (results (snd s)))%Z
   <-> (n2 <= n1)%Z).
Proof.
  intros s Hrest Hin Hsum.
  destruct (session_summed now pr get_instance_text guard inactivity instance
              reporter test_report_handle send_first turns Hrest
              line n1 n2 n3 Hin Hsum) as (_ & A & B & _).
  fold s in A, B. rewrite A, B. tauto.
Qed.

Lemma summary_counts_stand_witness :
  items_run (results (snd offered_more_session)) = 1%Z /\
  items_failed (results (snd offered_more_session)) = 5%Z /\
  ((items_failed (results (snd offered_more_session))
    <= items_run (results (snd offered_more_session)))%Z <-> (5 <= 1)%Z).
Proof.
  apply (summary_counts_stand seconds quiet dotted None None None false false
           None [line_turn "1 Tests 5 Failures 0 Ignored"; idle_turn;
                 line_turn "2 Tests 0 Failures 0 Ignored"]
           "1 Tests 5 Failures 0 Ignored" 1%Z 5%Z 0%Z).
  - vm_compute. discriminate.
  - vm_compute. auto.
  - vm_compute. reflexivity.
Defined.

(** C9: with a report handle but no instance, which is how the [__main__]
    of the script calls [main] when it is given a report file with [-x],
    nothing is written to the report, although the session has recorded
    an outcome and returns 0. *)
Lemma no_instance_no_report :
  let r := main seconds quiet dotted None None None false true None
                [line_turn "/a/b.c:10:testFoo:PASS";
                 line_turn "1 Tests 0 Failures 0 Ignored"; idle_turn]
                new_world in
  fst r = Ok 0%Z /\
  List.length (outcomes (results (snd r))) = 1%nat /\
  report (snd r) = [].
Proof. vm_compute. auto. Qed.

(** Where the report is written: a session that returns writes a report
    exactly when both a report handle and an instance were given; the
    report is then one [testsuite] element that holds one [testcase] line
    for each outcome recorded, in the order in which they were
    recorded. *)
Theorem report_holds_outcomes
        now pr get_instance_text guard inactivity instance reporter
        test_report_handle send_first turns rv w' :
  main now pr get_instance_text guard inactivity instance reporter
       test_report_handle send_first turns new_world = (Ok rv, w') ->
  report w'
  = if test_report_handle && given instance
    then ([testsuite_line get_instance_text
             (match instance with Some i => i | None => [] end) (results w')]
            ++ map testcase_line (outcomes (results w'))
            ++ [("</testsuite>" ++ nl)%string])%list
    else [].
Proof. intros H. apply main_spec in H as [_ H]. exact H. Qed.

Lemma report_holds_outcomes_witness :
  fst reported_session = Ok 0%Z /\
  report (snd reported_session)
  = ([testsuite_line dotted [12%Z; 0%Z] (results (snd reported_session))]
       ++ map testcase_line (outcomes (results (snd reported_session)))
       ++ [("</testsuite>" ++ nl)%string])%list.
Proof.
  split; [vm_compute; reflexivity|].
  apply (report_holds_outcomes seconds quiet dotted None None
           (Some [12%Z; 0%Z]) false true None
           [line_turn "/a/b.c:10:testFoo:PASS";
            line_turn "1 Tests 0 Failures 0 Ignored"; idle_turn]
           0%Z (snd reported_session)).
  vm_compute; reflexivity.
Defined.

(** C10. The handler of an item-start line adds 1 to [items_run] and sets
    [last_start_time] to the time it reads; and in every state of a session
    at rest in which no summary line has been handled, [items_run] is the
    number of item-start lines handled. *)
Theorem item_starts_counted :
  (forall now pr line m reporter w,
     re_match re_run line = Some m -> pr (prints w) = None ->
     exists w',
       run_callback now pr m reporter w = (Ok tt, w') /\
       items_run (results w') = (items_run (results w) + 1)%Z /\
       last_start_time (results w') = now (ticks w)) /\
  (forall now pr get_instance_text guard inactivity instance reporter
          test_report_handle send_first turns,
     let s := main now pr get_instance_text guard inactivity instance
                   reporter test_report_handle send_first turns new_world in
     at_rest s ->
     (forall line, In line (lines (snd s)) ->
                   re_match re_finish line = None) ->
     items_run (results (snd s)) = starts_seen (snd s)).
Proof.
  split.
  - intros now pr line m reporter w Hm P.
    destruct (run_callback_total now pr line m reporter w Hm P)
      as (w' & H & R).
    exists w'. rewrite R. cbn. auto.
  - intros now pr get_instance_text guard inactivity instance reporter
           test_report_handle send_first turns s Hrest Hno.
    exact (session_counted now pr get_instance_text guard inactivity instance
             reporter test_report_handle send_first turns Hrest Hno).
Qed.

Lemma item_starts_counted_witness :
  (exists m w',
     re_match re_run "Running testFoo..." = Some m /\
     run_callback seconds quiet m false new_world = (Ok tt, w') /\
     items_run (results w') = 1%Z) /\
  items_run (results (snd started_session)) = 2%Z /\
  List.length (outcomes (results (snd started_session))) = 1%nat.
Proof.
  destruct item_starts_counted as (H1 & H2).
  split; [|split].
  - destruct (re_match re_run "Running testFoo...") as [m|] eqn:E;
      [|vm_compute in E; discriminate].
    destruct (H1 seconds quiet _ m false new_world E eq_refl)
      as (w' & F & A & _).
    exists m, w'. split; [reflexivity|]. split; [exact F | exact A].
  - unfold started_session.
    pose proof (H2 seconds quiet dotted None None None false false None
                  [line_turn "Running testFoo..."; line_turn "Running testBar...";
                   line_turn "/a/b.c:10:testBar:PASS"]) as E.
    cbv zeta in E.
    match type of E with at_rest ?s -> _ =>
      assert (R : at_rest s) by (vm_compute; exact I);
      assert (L : lines (snd s)
                  = ["Running testFoo..."; "Running testBar...";
                     "/a/b.c:10:testBar:PASS"]) by (vm_compute; reflexivity);
      assert (S : starts_seen (snd s) = 2%Z) by (vm_compute; reflexivity)
    end.
    rewrite L in E.
    refine (eq_trans (E R _) S).
    intros line [<- | [<- | [<- | []]]]; vm_compute; reflexivity.
  - vm_compute. reflexivity.
Defined.

(** * Further properties

    ** Lines from a serial port *)

Lemma decode_some b c : decode b = Some c -> c = ascii_of_byte b.
Proof. unfold decode. destruct (_ <? _)%N; congruence. Qed.

Lemma string_app_nil_r (s : string) : s ++ "" = s.
Proof. induction s as [|c s IH]; cbn; [reflexivity | now rewrite IH]. Qed.

Lemma heard_app a b : heard (a ++ b)%list = heard a ++ heard b.
Proof.
  induction a as [|[x|] a IH]; cbn; [reflexivity | now rewrite IH | exact IH].
Qed.

Lemma mid_line_inv terminator b :
  mid_line terminator b = true ->
  decode b = Some (ascii_of_byte b) /\
  String.eqb (String (ascii_of_byte b) "") terminator = false.
Proof.
  unfold mid_line. destruct (decode b) as [c|] eqn:E; [|discriminate].
  intros H. apply negb_true_iff in H.
  apply decode_some in E as ->. auto.
Qed.

Lemma serial_loop_line terminator character t rest prefix : forall line,
  forallb (mid_line terminator) prefix = true ->
  decode t = Some character -> terminator = String character "" ->
  serial_loop (map Some prefix ++ Some t :: rest)%list terminator line
  = (Some (strip (line ++ heard (map Some prefix))), rest).
Proof.
  intros line H Ht ->. revert line H.
  induction prefix as [|b prefix IH]; intros line H.
  - cbn [map app serial_loop heard]. rewrite Ht, String.eqb_refl.
    now rewrite string_app_nil_r.
  - cbn [forallb] in H. apply andb_true_iff in H as [Hb H].
    apply mid_line_inv in Hb as [D E].
    cbn [map app serial_loop heard]. rewrite D, E, (IH _ H).
    now rewrite string_app_assoc.
Qed.

Lemma serial_loop_undecodable terminator b rest prefix : forall line,
  forallb (mid_line terminator) prefix = true ->
  decode b = None ->
  serial_loop (map Some prefix ++ Some b :: rest)%list terminator line
  = (Some (line ++ heard (map Some prefix)), rest).
Proof.
  intros line H Hb. revert line H.
  induction prefix as [|x prefix IH]; intros line H.
  - cbn [map app serial_loop heard]. rewrite Hb.
    now rewrite string_app_nil_r.
  - cbn [forallb] in H. apply andb_true_iff in H as [Hx H].
    apply mid_line_inv in Hx as [D E].
    cbn [map app serial_loop heard]. rewrite D, E, (IH _ H).
    now rewrite string_app_assoc.
Qed.

(** X1. A line that arrives whole on a serial port, its terminator after
    it, is returned without the terminator and stripped of the white space
    at its ends; the port is left at what follows the terminator. *)
Theorem whole_line_is_returned_stripped prefix t character rest terminator :
  let ends := match terminator with Some t => t | None => nl end in
  forallb (mid_line ends) prefix = true ->
  decode t = Some character -> ends = String character "" ->
  pwar_readline (map Some prefix ++ Some t :: rest)%list terminator
  = (Some (strip (heard (map Some prefix))), rest).
Proof.
  cbv zeta. intros H Ht He. unfold pwar_readline.
  now rewrite (serial_loop_line _ character t rest prefix "" H Ht He).
Qed.

Lemma whole_line_is_returned_stripped_witness :
  pwar_readline (arriving "  Running x... " ++ byte_of (ascii_of_nat 13)
                   :: arriving "next")%list (Some cr)
  = (Some "Running x...", arriving "next").
Proof.
  apply (whole_line_is_returned_stripped
           (map byte_of_ascii (list_ascii_of_string "  Running x... "))
           (byte_of_ascii (ascii_of_nat 13)) (ascii_of_nat 13)
           (arriving "next") (Some cr));
    vm_compute; reflexivity.
Defined.

(** X2. A byte that is not ASCII ends the call in the middle of the line:
    what was read before it is returned as it is, not stripped, and the
    byte itself is dropped, so that one line reaches the queue in pieces. *)
Theorem undecodable_byte_cuts_the_line prefix b rest terminator :
  forallb (mid_line (match terminator with Some t => t | None => nl end))
          prefix = true ->
  decode b = None ->
  pwar_readline (map Some prefix ++ Some b :: rest)%list terminator
  = (Some (heard (map Some prefix)), rest).
Proof.
  intros H Hb. unfold pwar_readline.
  now rewrite (serial_loop_undecodable _ b rest prefix "" H Hb).
Qed.

Lemma undecodable_byte_cuts_the_line_witness :
  pwar_readline (arriving " ab" ++ Some Byte.xff :: arriving "cd")%list
                (Some cr)
  = (Some " ab", arriving "cd").
Proof.
  apply (undecodable_byte_cuts_the_line
           (map byte_of_ascii (list_ascii_of_string " ab"))
           Byte.xff (arriving "cd") (Some cr));
    vm_compute; reflexivity.
Defined.

Lemma holds_app c a b : holds c (a ++ b) <-> holds c a \/ holds c b.
Proof.
  unfold holds. induction a as [|x a IH]; cbn; [tauto|].
  rewrite IH. tauto.
Qed.

Lemma holds_lstrip c s : holds c (lstrip s) -> holds c s.
Proof.
  unfold holds. induction s as [|x s IH]; cbn [lstrip]; [auto|].
  destruct (is_space x); cbn; auto.
Qed.

Lemma holds_rstrip c s : holds c (rstrip s) -> holds c s.
Proof.
  unfold holds. induction s as [|x s IH]; cbn [rstrip]; [auto|].
  destruct (rstrip s) as [|y t] eqn:E.
  - destruct (is_space x); cbn; [tauto|]. intros [H|[]]. now left.
  - cbn in *. intros [H|H]; [now left | right; apply IH, H].
Qed.

Lemma holds_strip c s : holds c (strip s) -> holds c s.
Proof. intros H. apply holds_lstrip, holds_rstrip, H. Qed.

(** What a call on a serial port returns holds no terminator. *)
Lemma serial_loop_no_terminator tc in_handle : forall line found rest,
  ~ holds tc line ->
  serial_loop in_handle (String tc "") line = (Some found, rest) ->
  ~ holds tc found.
Proof.
  induction in_handle as [|[b|] in_handle IH]; intros line found rest Hl H;
    cbn [serial_loop] in H; try discriminate.
  destruct (decode b) as [character|] eqn:D.
  - destruct (String.eqb (String character "") (String tc "")) eqn:E.
    + injection H as <- <-. intros F. apply Hl, holds_strip, F.
    + apply (IH _ _ _) in H; [exact H|].
      intros F. apply holds_app in F as [F|F]; [exact (Hl F)|].
      destruct F as [F|[]]. subst. now rewrite String.eqb_refl in E.
  - injection H as <- <-. exact Hl.
Qed.

(** X3. Whatever a reading thread puts in the queue is a line that is not
    empty and that holds no terminator character. *)
Theorem queued_lines_hold_no_terminator calls terminator tc : forall in_handle,
  match terminator with Some t => t | None => nl end = String tc "" ->
  Forall (fun line => line <> "" /\ ~ holds tc line)
         (fst (readline_and_queue calls in_handle terminator)).
Proof.
  intros in_handle Ht. revert in_handle.
  induction calls as [|calls IH]; intros in_handle;
    cbn [readline_and_queue fst]; [constructor|].
  destruct (pwar_readline in_handle terminator) as [line rest] eqn:E.
  specialize (IH rest).
  destruct (readline_and_queue calls rest terminator) as [queue rest'].
  cbn [fst] in *. destruct line as [[|c s]|]; try exact IH.
  constructor; [|exact IH]. split; [discriminate|].
  unfold pwar_readline in E. rewrite Ht in E.
  apply (serial_loop_no_terminator tc in_handle "" _ rest); [|exact E].
  intros [].
Qed.

Lemma queued_lines_hold_no_terminator_witness :
  Forall (fun line => line <> "" /\ ~ holds (ascii_of_nat 13) line)
         (fst (readline_and_queue 3 torn_summary_port (Some cr))).
Proof.
  apply (queued_lines_hold_no_terminator 3 (Some cr) (ascii_of_nat 13)
           torn_summary_port).
  reflexivity.
Defined.

(** Where no terminator arrives, no call returns a line. *)
Lemma serial_loop_inside terminator in_handle : forall line,
  forallb (inside_line terminator) in_handle = true ->
  fst (serial_loop in_handle terminator line) = None /\
  forallb (inside_line terminator)
          (snd (serial_loop in_handle terminator line)) = true.
Proof.
  induction in_handle as [|[b|] in_handle IH]; intros line H;
    cbn [serial_loop]; [auto| |].
  - cbn [forallb inside_line] in H. apply andb_true_iff in H as [Hb H].
    apply mid_line_inv in Hb as [D E]. rewrite D, E. apply IH, H.
  - cbn [forallb] in H. apply andb_true_iff in H as [_ H]. auto.
Qed.

Lemma readline_and_queue_inside terminator calls : forall in_handle,
  forallb (inside_line (match terminator with Some t => t | None => nl end))
          in_handle = true ->
  fst (readline_and_queue calls in_handle terminator) = [].
Proof.
  induction calls as [|calls IH]; intros in_handle H;
    cbn [readline_and_queue]; [reflexivity|].
  unfold pwar_readline.
  destruct (serial_loop_inside _ in_handle "" H) as [H1 H2].
  destruct (serial_loop in_handle _ "") as [line rest]. cbn [fst snd] in *.
  specialize (IH rest H2).
  destruct (readline_and_queue calls rest terminator) as [queue rest'].
  cbn [fst] in *. now subst.
Qed.

Lemma one_character_eqb c terminator :
  String.length terminator <> 1%nat ->
  String.eqb (String c "") terminator = false.
Proof.
  intros H. apply String.eqb_neq. intros <-. now apply H.
Qed.

(** X4. A terminator that is not one character long ends no line: each
    character read is compared with the whole terminator, so that on a port
    that delivers ASCII only, with or without gaps, nothing is ever
    queued. *)
Theorem long_terminator_ends_no_line calls in_handle terminator :
  String.length terminator <> 1%nat ->
  forallb decodable in_handle = true ->
  fst (readline_and_queue calls in_handle (Some terminator)) = [].
Proof.
  intros Hlen H. apply readline_and_queue_inside.
  rewrite <- H. clear H.
  induction in_handle as [|[b|] in_handle IH]; cbn [forallb]; [reflexivity| |].
  - rewrite IH. f_equal. cbn [inside_line decodable]. unfold mid_line.
    destruct (decode b) as [c|]; [|reflexivity].
    now rewrite (one_character_eqb c terminator Hlen).
  - now rewrite IH.
Qed.

Lemma long_terminator_ends_no_line_witness :
  fst (readline_and_queue 5
         (crlf_lines ["Running x..."; "1 Tests 0 Failures 0 Ignored"])
         (Some (cr ++ nl))) = [].
Proof.
  apply (long_terminator_ends_no_line 5
           (crlf_lines ["Running x..."; "1 Tests 0 Failures 0 Ignored"])
           (cr ++ nl)).
  - vm_compute. discriminate.
  - vm_compute. reflexivity.
Defined.

Lemma decode_ascii c :
  (nat_of_ascii c <? 128)%nat = true -> decode (byte_of_ascii c) = Some c.
Proof.
  destruct c as [[] [] [] [] [] [] [] []]; intros H;
    first [reflexivity | discriminate H].
Qed.

Lemma arriving_app a b : arriving (a ++ b) = (arriving a ++ arriving b)%list.
Proof.
  unfold arriving. induction a as [|c a IH]; cbn; [reflexivity|].
  now rewrite IH.
Qed.

Lemma arriving_bytes s :
  arriving s = map Some (map byte_of_ascii (list_ascii_of_string s)).
Proof. unfold arriving, byte_of. now rewrite map_map. Qed.

Lemma heard_arriving s : heard (arriving s) = s.
Proof.
  unfold arriving. induction s as [|c s IH]; cbn; [reflexivity|].
  now rewrite IH, ascii_of_byte_of_ascii.
Qed.

Lemma mid_line_ascii tc s :
  is_ascii s = true -> ~ holds tc s ->
  forallb (mid_line (String tc ""))
          (map byte_of_ascii (list_ascii_of_string s)) = true.
Proof.
  unfold is_ascii, holds. induction s as [|c s IH]; cbn; [reflexivity|].
  intros H Hn. apply andb_true_iff in H as [Hc H].
  rewrite IH; [|exact H | tauto]. rewrite andb_true_r.
  unfold mid_line. rewrite (decode_ascii c Hc).
  apply negb_true_iff, String.eqb_neq. intros E. injection E as ->. tauto.
Qed.

Lemma is_ascii_app a b : is_ascii (a ++ b) = is_ascii a && is_ascii b.
Proof.
  unfold is_ascii. induction a as [|c a IH]; [reflexivity|].
  cbn [append list_ascii_of_string forallb]. now rewrite IH, andb_assoc.
Qed.

(** A whole line of ASCII text on a serial port. *)
Lemma whole_line_stripped text tc rest :
  is_ascii text = true -> ~ holds tc text ->
  (nat_of_ascii tc <? 128)%nat = true ->
  pwar_readline (map Some (map byte_of_ascii (list_ascii_of_string text))
                   ++ Some (byte_of_ascii tc) :: rest)%list
                (Some (String tc ""))
  = (Some (strip text), rest).
Proof.
  intros Ha Hn Hc. unfold pwar_readline.
  rewrite (serial_loop_line (String tc "") tc (byte_of_ascii tc) rest _ ""
             (mid_line_ascii tc text Ha Hn) (decode_ascii tc Hc) eq_refl).
  cbn [append]. now rewrite <- arriving_bytes, heard_arriving.
Qed.

(** A line feed that was left over in front of a line goes when the line is
    stripped. *)
Lemma strip_lead lead s : lead = "" \/ lead = nl -> strip (lead ++ s) = strip s.
Proof. intros [->| ->]; reflexivity. Qed.

Lemma crlf_lines_lead sent : forall lead,
  lead = "" \/ lead = nl ->
  Forall (fun line => is_ascii line = true /\ ~ holds (ascii_of_nat 13) line)
         sent ->
  fst (readline_and_queue (List.length sent)
         (arriving lead ++ crlf_lines sent)%list (Some cr))
  = filter (fun line => negb (String.eqb line "")) (map strip sent).
Proof.
  induction sent as [|line sent IH]; intros lead Hlead H;
    [reflexivity|].
  inversion H as [|x l [Ha Hn] H']; subst. clear H.
  cbn [List.length readline_and_queue map filter].
  assert (E : (arriving lead ++ crlf_lines (line :: sent))%list
              = (map Some (map byte_of_ascii
                             (list_ascii_of_string (lead ++ line)))
                   ++ Some (byte_of_ascii (ascii_of_nat 13))
                   :: (arriving nl ++ crlf_lines sent))%list).
  { unfold crlf_lines. cbn [map concat].
    rewrite !arriving_app, <- arriving_bytes, arriving_app.
    rewrite <- !app_assoc. reflexivity. }
  rewrite E.
  pose proof (whole_line_stripped (lead ++ line) (ascii_of_nat 13)
                (arriving nl ++ crlf_lines sent)%list) as W.
  change (String (ascii_of_nat 13) "") with cr in W.
  rewrite W; [| | |reflexivity].
  - specialize (IH nl (or_intror eq_refl) H').
    destruct (readline_and_queue _ _ _) as [queue rest']. cbn [fst] in *.
    rewrite (strip_lead lead line Hlead), <- IH.
    destruct (strip line); reflexivity.
  - rewrite is_ascii_app, Ha. now destruct Hlead as [->| ->].
  - intros F. apply holds_app in F as [F|F]; [|exact (Hn F)].
    destruct Hlead as [->| ->]; cbn in F; [tauto|].
    destruct F as [F|[]]. discriminate F.
Qed.

(** X5. Lines that a target sends one after the other, each closed by a
    carriage return and a line feed, come out of a serial port read with
    the carriage return as terminator as the same lines, stripped, in the
    same order, the empty ones left out. *)
Theorem crlf_lines_are_queued sent :
  Forall (fun line => is_ascii line = true /\ ~ holds (ascii_of_nat 13) line)
         sent ->
  fst (readline_and_queue (List.length sent) (crlf_lines sent) (Some cr))
  = filter (fun line => negb (String.eqb line "")) (map strip sent).
Proof. intros H. exact (crlf_lines_lead sent "" (or_introl eq_refl) H). Qed.

Lemma crlf_lines_are_queued_witness :
  fst (readline_and_queue 3
         (crlf_lines ["Running testFoo..."; ""; " /a/b.c:10:testFoo:PASS "])
         (Some cr))
  = ["Running testFoo..."; "/a/b.c:10:testFoo:PASS"].
Proof.
  apply (crlf_lines_are_queued
           ["Running testFoo..."; ""; " /a/b.c:10:testFoo:PASS "]).
  repeat constructor; try (vm_compute; reflexivity);
    vm_compute; intuition discriminate.
Defined.

(** ** Lines from a Telnet session *)

Lemma lstrip_chars_again chars s :
  lstrip_chars chars (lstrip_chars chars s) = lstrip_chars chars s.
Proof.
  induction s as [|c s IH]; [reflexivity|]. cbn [lstrip_chars].
  destruct (among chars c) eqn:E; [exact IH|].
  cbn [lstrip_chars]. now rewrite E.
Qed.

Lemma rstrip_chars_again chars s :
  rstrip_chars chars (rstrip_chars chars s) = rstrip_chars chars s.
Proof.
  induction s as [|c s IH]; [reflexivity|]. cbn [rstrip_chars].
  destruct (rstrip_chars chars s) as [|d t] eqn:E.
  - destruct (among chars c) eqn:A; [reflexivity|].
    cbn [rstrip_chars]. now rewrite A.
  - cbn [rstrip_chars] in *. now rewrite IH.
Qed.

(** A text that does not end in one of [chars] has no tail that does. *)
Lemma rstrip_chars_tail chars c s :
  rstrip_chars chars (String c s) = String c s ->
  rstrip_chars chars s = s.
Proof.
  cbn [rstrip_chars]. destruct (rstrip_chars chars s) as [|d t].
  - destruct (among chars c); [discriminate|]. now intros [= <-].
  - now intros [= <-].
Qed.

Lemma rstrip_chars_lstrip chars chars' s :
  rstrip_chars chars s = s ->
  rstrip_chars chars (lstrip_chars chars' s) = lstrip_chars chars' s.
Proof.
  induction s as [|c s IH]; intros H; [reflexivity|].
  cbn [lstrip_chars]. destruct (among chars' c); [|exact H].
  apply IH, (rstrip_chars_tail chars c s H).
Qed.

Lemma decode_all_nil data : decode_all data = Some "" -> data = [].
Proof.
  destruct data as [|b data]; [reflexivity|]. cbn.
  destruct (decode b), (decode_all data); discriminate.
Qed.

(** X6. A line from a Telnet session begins with no line feed and ends with
    no character of the terminator; nothing is returned exactly when
    nothing was read or when what was read is not ASCII, so that a read of
    terminators alone returns the empty string, and not nothing. *)
Theorem telnet_line_is_trimmed read_until terminator :
  let ends := match terminator with Some t => t | None => nl end in
  is_ascii ends = true ->
  (pwar_readline_telnet read_until terminator = Ok None <->
   read_until = [] \/ decode_all read_until = None) /\
  (forall line,
     pwar_readline_telnet read_until terminator = Ok (Some line) ->
     lstrip_chars nl line = line /\ rstrip_chars ends line = line) /\
  (forall text,
     text <> "" -> decode_all read_until = Some text ->
     forallb (among ends) (list_ascii_of_string text) = true ->
     pwar_readline_telnet read_until terminator = Ok (Some "")).
Proof.
  cbv zeta. intros Ha. unfold pwar_readline_telnet. rewrite Ha.
  split; [|split].
  - destruct (decode_all read_until) as [s|] eqn:D.
    + destruct (String.eqb s "") eqn:E.
      * apply String.eqb_eq in E as ->. apply decode_all_nil in D. tauto.
      * split; [discriminate|]. intros [->|F]; [|discriminate].
        cbn in D. injection D as <-. discriminate.
    + cbn. tauto.
  - intros line H.
    destruct (String.eqb _ ""); [discriminate|]. injection H as <-.
    split; [apply lstrip_chars_again|].
    apply rstrip_chars_lstrip, rstrip_chars_again.
  - intros text Hn D Hall. rewrite D.
    destruct (String.eqb text "") eqn:E;
      [apply String.eqb_eq in E; contradiction|].
    do 2 f_equal.
    assert (R : rstrip_chars
                  (match terminator with Some t => t | None => nl end) text
                = "").
    { clear D E Hn. induction text as [|c s IH]; [reflexivity|].
      cbn [list_ascii_of_string forallb] in Hall.
      apply andb_true_iff in Hall as [Hc Hall].
      cbn [rstrip_chars]. now rewrite (IH Hall), Hc. }
    now rewrite R.
Qed.

Lemma telnet_line_is_trimmed_witness :
  pwar_readline_telnet
    (map byte_of_ascii (list_ascii_of_string (cr ++ cr))) (Some cr)
  = Ok (Some "").
Proof.
  apply (proj2 (proj2 (telnet_line_is_trimmed
           (map byte_of_ascii (list_ascii_of_string (cr ++ cr))) (Some cr)
           eq_refl)) (cr ++ cr)).
  - discriminate.
  - reflexivity.
  - reflexivity.
Defined.

(** ** Lines from a pipe *)

Lemma later_later n m w : later n (later m w) = later (n + m) w.
Proof. unfold later. cbn. f_equal. lia. Qed.

(** While the five seconds last, the loop goes through gaps and through
    the bytes of a line, and keeps what it has read. *)
Lemma pipe_loop_inside now start_time terminator rest prefix :
  forall fuel line w,
    forallb (inside_line terminator) prefix = true ->
    (forall k, (k < List.length prefix)%nat ->
       Qle_bool (inject_Z 5) (now (k + ticks w)%nat - start_time) = false) ->
    pipe_loop now (List.length prefix + fuel) start_time
              (prefix ++ rest)%list terminator line w
    = pipe_loop now fuel start_time rest terminator (line ++ heard prefix)
                (later (List.length prefix) w).
Proof.
  induction prefix as [|x prefix IH]; intros fuel line w Hin Hclock.
  - cbn [List.length Nat.add app heard]. rewrite string_app_nil_r.
    now open_world w.
  - cbn [forallb] in Hin. apply andb_true_iff in Hin as [Hx Hin].
    pose proof (Hclock 0%nat ltac:(cbn; lia)) as H0. cbn [Nat.add] in H0.
    assert (Hnext : forall k, (k < List.length prefix)%nat ->
              Qle_bool (inject_Z 5)
                (now (k + ticks (later 1 w))%nat - start_time) = false).
    { intros k Hk. specialize (Hclock (S k) ltac:(cbn; lia)).
      unfold later. cbn [ticks].
      now replace (k + (1 + ticks w))%nat with (S k + ticks w)%nat by lia. }
    cbn [List.length Nat.add app pipe_loop]. unfold bind at 1.
    unfold time at 1. rewrite H0.
    change (mkWorld (results w) (S (ticks w)) (prints w) (log w) (events w)
              (timers w) (pump_started w) (pump_joined w) (report w)
              (loop_exit w) (expired w)) with (later 1 w).
    destruct x as [b|]; cbn [inside_line] in Hx.
    + apply mid_line_inv in Hx as [D E]. rewrite D, E.
      rewrite (IH fuel _ (later 1 w) Hin Hnext), later_later.
      cbn [heard]. rewrite string_app_assoc.
      now replace (List.length prefix + 1)%nat
        with (S (List.length prefix)) by lia.
    + rewrite (IH fuel _ (later 1 w) Hin Hnext), later_later.
      cbn [heard].
      now replace (List.length prefix + 1)%nat
        with (S (List.length prefix)) by lia.
Qed.

(** X7. On a pipe a gap in the middle of a line loses nothing: while five
    seconds have not passed since the call began, the characters read
    before a gap stay in the line, which is returned whole and stripped
    when its terminator arrives. *)
Theorem pipe_keeps_line_across_gaps
        now fuel prefix t character rest terminator w :
  let ends := match terminator with Some t => t | None => nl end in
  forallb (inside_line ends) prefix = true ->
  decode t = Some character -> ends = String character "" ->
  (forall k, (k <= List.length prefix)%nat ->
     Qle_bool (inject_Z 5) (now (S k + ticks w)%nat - now (ticks w)) = false) ->
  pwar_readline_pipe now (S (List.length prefix) + fuel)
                     (prefix ++ Some t :: rest)%list terminator w
  = (Ok (strip (heard prefix), rest), later (2 + List.length prefix) w).
Proof.
  cbv zeta. intros Hin Ht He Hclock. unfold pwar_readline_pipe.
  unfold bind at 1. unfold time at 1.
  change (mkWorld (results w) (S (ticks w)) (prints w) (log w) (events w)
            (timers w) (pump_started w) (pump_joined w) (report w)
            (loop_exit w) (expired w)) with (later 1 w).
  replace (S (List.length prefix) + fuel)%nat
    with (List.length prefix + S fuel)%nat by lia.
  rewrite pipe_loop_inside; [|exact Hin|].
  - rewrite later_later. cbn [append pipe_loop]. unfold bind at 1.
    unfold time at 1.
    replace (ticks (later (List.length prefix + 1) w))
      with (S (List.length prefix) + ticks w)%nat
      by (unfold later; cbn [ticks]; lia).
    rewrite (Hclock (List.length prefix) (le_n _)).
    rewrite Ht, He, String.eqb_refl. unfold ret, later. cbn.
    do 2 f_equal; lia.
  - intros k Hk. unfold later. cbn [ticks].
    replace (k + (1 + ticks w))%nat with (S k + ticks w)%nat by lia.
    apply Hclock. lia.
Qed.

Lemma pipe_keeps_line_across_gaps_witness :
  pwar_readline_pipe (fun n => Z.of_nat n # 2) 5 gap_port (Some cr) new_world
  = (Ok ("abc", []), later 6 new_world).
Proof.
  apply (pipe_keeps_line_across_gaps (fun n => Z.of_nat n # 2) 0
           [byte_of "a"; byte_of "b"; None; byte_of "c"]
           (byte_of_ascii (ascii_of_nat 13)) (ascii_of_nat 13) []
           (Some cr) new_world); try reflexivity.
  intros k Hk. cbn in Hk.
  do 5 (destruct k as [|k]; [reflexivity|]). lia.
Defined.

(** X8. When five seconds have passed since the call began, the call on a
    pipe returns what it has read of the line so far, as it is and not
    stripped, and the empty string when that is nothing: the caller cannot
    tell it from a whole line. *)
Theorem pipe_returns_part_of_line_late now fuel prefix rest terminator w :
  forallb (inside_line (match terminator with Some t => t | None => nl end))
          prefix = true ->
  (forall k, (k < List.length prefix)%nat ->
     Qle_bool (inject_Z 5) (now (S k + ticks w)%nat - now (ticks w)) = false) ->
  Qle_bool (inject_Z 5)
           (now (S (List.length prefix) + ticks w)%nat - now (ticks w)) = true ->
  pwar_readline_pipe now (S (List.length prefix) + fuel)
                     (prefix ++ rest)%list terminator w
  = (Ok (heard prefix, rest), later (2 + List.length prefix) w).
Proof.
  intros Hin Hclock Hlate. unfold pwar_readline_pipe.
  unfold bind at 1. unfold time at 1.
  change (mkWorld (results w) (S (ticks w)) (prints w) (log w) (events w)
            (timers w) (pump_started w) (pump_joined w) (report w)
            (loop_exit w) (expired w)) with (later 1 w).
  replace (S (List.length prefix) + fuel)%nat
    with (List.length prefix + S fuel)%nat by lia.
  rewrite pipe_loop_inside; [|exact Hin|].
  - rewrite later_later. cbn [append pipe_loop]. unfold bind at 1.
    unfold time at 1.
    replace (ticks (later (List.length prefix + 1) w))
      with (S (List.length prefix) + ticks w)%nat
      by (unfold later; cbn [ticks]; lia).
    rewrite Hlate. unfold ret, later. cbn. do 2 f_equal; lia.
  - intros k Hk. unfold later. cbn [ticks].
    replace (k + (1 + ticks w))%nat with (S k + ticks w)%nat by lia.
    apply Hclock, Hk.
Qed.

Lemma pipe_returns_part_of_line_late_witness :
  pwar_readline_pipe (fun n => inject_Z (2 * Z.of_nat n)) 3
                     (arriving " a" ++ arriving "b")%list (Some cr) new_world
  = (Ok (" a", arriving "b"), later 4 new_world).
Proof.
  apply (pipe_returns_part_of_line_late
           (fun n => inject_Z (2 * Z.of_nat n)) 0
           (arriving " a") (arriving "b") (Some cr) new_world);
    try reflexivity.
  intros k Hk. cbn in Hk.
  do 2 (destruct k as [|k]; [reflexivity|]). lia.
Defined.

(** ** How long a run took *)

Lemma Qfloor_unique (y : Q) (z : Z) :
  inject_Z z <= y -> y < inject_Z (z + 1) -> Qfloor y = z.
Proof.
  intros H1 H2.
  pose proof (Qfloor_le y) as F1. pose proof (Qlt_floor y) as F2.
  assert (A : (Qfloor y < z + 1)%Z).
  { rewrite Zlt_Qlt. eapply Qle_lt_trans; eassumption. }
  assert (B : (z < Qfloor y + 1)%Z).
  { rewrite Zlt_Qlt. eapply Qle_lt_trans; eassumption. }
  lia.
Qed.

Lemma Qfloor_div (x : Q) (n : Z) :
  (0 < n)%Z -> Qfloor (x / inject_Z n) = (Qfloor x / n)%Z.
Proof.
  intros Hn.
  pose proof (Qfloor_le x) as F1. pose proof (Qlt_floor x) as F2.
  assert (Hq : 0 < inject_Z n) by (change 0 with (inject_Z 0); now rewrite <- Zlt_Qlt).
  pose proof (Z.mul_div_le (Qfloor x) n Hn) as D1.
  pose proof (Z.mul_succ_div_gt (Qfloor x) n Hn) as D2.
  apply Qfloor_unique.
  - apply Qle_shift_div_l; [exact Hq|].
    rewrite <- inject_Z_mult.
    eapply Qle_trans; [|exact F1]. rewrite <- Zle_Qle. lia.
  - apply Qlt_shift_div_r; [exact Hq|].
    rewrite <- inject_Z_mult.
    eapply Qlt_le_trans; [exact F2|]. rewrite <- Zle_Qle. lia.
Qed.

Lemma Qfloor_minus (x : Q) (k : Z) :
  Qfloor (x - inject_Z k) = (Qfloor x - k)%Z.
Proof.
  pose proof (Qfloor_le x) as F1. pose proof (Qlt_floor x) as F2.
  apply Qfloor_unique.
  - unfold Z.sub. rewrite inject_Z_plus, inject_Z_opp. lra.
  - replace (Qfloor x - k + 1)%Z with ((Qfloor x + 1) + - k)%Z by lia.
    rewrite inject_Z_plus, inject_Z_opp. lra.
Qed.

Lemma py_trunc_nonneg (x : Q) : 0 <= x -> py_trunc x = Qfloor x.
Proof.
  intros H. unfold py_trunc. apply Qle_bool_iff in H. now rewrite H.
Qed.

(** X9. With a clock that has not gone back since the run began, the hours,
    minutes and seconds that [finish_callback] prints are the whole seconds
    of the time that the run took, split: minutes and seconds are below
    sixty, and together with the hours they add up to it. *)
Theorem run_time_is_split end_time overall_start_time :
  let took := Qfloor (end_time - overall_start_time) in
  let h := duration_hours end_time overall_start_time in
  let m := duration_minutes end_time overall_start_time in
  let s := duration_seconds end_time overall_start_time in
  overall_start_time <= end_time ->
  (h * 3600 + m * 60 + s = took)%Z /\
  (0 <= h)%Z /\ (0 <= m < 60)%Z /\ (0 <= s < 60)%Z.
Proof.
  cbv zeta. intros Hle.
  set (x := end_time - overall_start_time).
  assert (Hx : 0 <= x) by (unfold x; lra).
  pose proof (Qfloor_le x) as F1.
  assert (Hf : (0 <= Qfloor x)%Z).
  { change 0%Z with (Qfloor 0). now apply Qfloor_resp_le. }
  assert (Hh : duration_hours end_time overall_start_time
               = (Qfloor x / 3600)%Z).
  { unfold duration_hours. fold x. rewrite py_trunc_nonneg.
    - now apply Qfloor_div.
    - apply Qle_shift_div_l; [reflexivity | lra]. }
  pose proof (Z.mul_div_le (Qfloor x) 3600 eq_refl) as D1.
  pose proof (Z.mul_succ_div_gt (Qfloor x) 3600 eq_refl) as D2.
  assert (Hm : duration_minutes end_time overall_start_time
               = ((Qfloor x - Qfloor x / 3600 * 3600) / 60)%Z).
  { unfold duration_minutes. fold x. rewrite Hh, py_trunc_nonneg.
    - rewrite Qfloor_div, Qfloor_minus; [reflexivity | lia].
    - apply Qle_shift_div_l; [reflexivity|].
      assert (inject_Z (Qfloor x / 3600 * 3600) <= inject_Z (Qfloor x))
        by (rewrite <- Zle_Qle; lia).
      lra. }
  set (r := (Qfloor x - Qfloor x / 3600 * 3600)%Z) in *.
  assert (Hr : (0 <= r < 3600)%Z) by (unfold r; lia).
  pose proof (Z.mul_div_le r 60 eq_refl) as E1.
  pose proof (Z.mul_succ_div_gt r 60 eq_refl) as E2.
  assert (Hs : duration_seconds end_time overall_start_time
               = (r - r / 60 * 60)%Z).
  { unfold duration_seconds. fold x. rewrite Hh, Hm, py_trunc_nonneg.
    - rewrite !Qfloor_minus. unfold r. reflexivity.
    - assert (inject_Z (Qfloor x / 3600 * 3600) + inject_Z (r / 60 * 60)
              <= inject_Z (Qfloor x)).
      { rewrite <- inject_Z_plus. rewrite <- Zle_Qle. unfold r in *. lia. }
      lra. }
  rewrite Hh, Hm, Hs.
  assert (0 <= r / 60 < 60)%Z
    by (split; [apply Z.div_pos; lia | apply Z.div_lt_upper_bound; lia]).
  assert (0 <= Qfloor x / 3600)%Z by (apply Z.div_pos; lia).
  unfold r in *. lia.
Qed.

Lemma run_time_is_split_witness :
  (duration_hours (7384 # 1) (5 # 2) * 3600
   + duration_minutes (7384 # 1) (5 # 2) * 60
   + duration_seconds (7384 # 1) (5 # 2) = 7381)%Z.
Proof.
  apply (run_time_is_split (7384 # 1) (5 # 2)).
  vm_compute. discriminate.
Defined.

(** ** The lines that tell of a reboot *)

(** A literal text matches where the line goes on with it. *)
Lemma run_Str s : forall c k,
  (forall c', k c' <> None) ->
  match run (Str s) c k with
  | Some _ => true
  | None => false
  end = prefix s (rest c).
Proof.
  induction s as [|a s IH]; intros c k Hk; cbn [Str run].
  - destruct (k c) eqn:E; [|now apply Hk in E]. now destruct (rest c).
  - unfold one. destruct (rest c) as [|b t]; [reflexivity|].
    cbn [prefix]. destruct (ascii_dec a b) as [<-|Hab].
    + rewrite Ascii.eqb_refl. now rewrite IH.
    + apply Ascii.eqb_neq in Hab. now rewrite Hab.
Qed.

Lemma hits_Str src s h line :
  hits line (mkEntry src (Str s) h) = prefix s line.
Proof.
  unfold hits, re_match. cbn [pattern].
  pose proof (run_Str s {| before := 0; rest := line; groups := [] |} Some)
    as H.
  cbn [rest] in H. rewrite <- H; [|discriminate].
  now destruct (run (Str s) _ Some).
Qed.

Lemma hits_abort line :
  hits line (mkEntry src_abort re_abort RebootCallback) = prefix "abort" line.
Proof.
  unfold hits, re_match, re_abort. cbn [pattern]. cbn [run].
  pose proof (run_Str "abort" {| before := 0; rest := line; groups := [] |}
                (fun c1 => Some (set_group 1 c1 c1))) as H.
  cbn [rest] in H. rewrite <- H; [|discriminate].
  now destruct (run (Str "abort") _ _).
Qed.

(** X10. A line tells of a reboot exactly when it begins with one of the four
    marker texts: the patterns are matched at the start of the line only,
    and the first of them, written "abort()", stands for the text "abort",
    its parentheses being an empty group. *)
Theorem reboot_markers_open_the_line line :
  map (hits line) (reboot_entries INTERESTING)
  = map (fun marker => prefix marker line) reboot_markers.
Proof.
  unfold reboot_entries, INTERESTING, reboot_markers.
  cbn [filter handler map].
  rewrite hits_abort. unfold re_guru, re_hardfault, re_zephyr.
  now rewrite !hits_Str.
Qed.

Lemma reboot_hits line :
  Z.of_nat (List.length (filter (hits line) (reboot_entries INTERESTING)))
  = if is_reboot line then 1%Z else 0%Z.
Proof.
  unfold is_reboot, reboot_entries, INTERESTING.
  cbn [filter handler existsb].
  rewrite hits_abort. unfold re_guru, re_hardfault, re_zephyr.
  rewrite !hits_Str.
  destruct line as [|c line]; [reflexivity|].
  cbn [prefix].
  destruct (ascii_dec "a" c) as [<-|Ha]; [cbn; now destruct (prefix _ line)|].
  destruct (ascii_dec "G" c) as [<-|HG]; [cbn; now destruct (prefix _ line)|].
  destruct (ascii_dec "<" c) as [<-|Hl]; [cbn; now destruct (prefix _ line)|].
  destruct (ascii_dec ">" c) as [<-|Hg]; [cbn; now destruct (prefix _ line)|].
  reflexivity.
Qed.

Section Counts.

Variables (now : nat -> Q) (pr : nat -> option exn).
Variable get_instance_text : list Z -> string.

(** What the loop does with a line, in two steps: the echo, and the
    handlers. *)
Lemma on_line_parts line reporter w t w' :
  on_line now pr line reporter w = (Ok t, w') ->
  exists w2,
    results w2 = results w /\
    log w2 = (log w ++ [LogLine line])%list /\
    for_entries now pr INTERESTING line reporter w2 = (Ok tt, w').
Proof.
  unfold on_line. intros H.
  apply bind_ok in H as (t0 & w1 & H1 & H).
  apply bind_ok in H as ([] & w2 & H2 & H).
  apply bind_ok in H as ([] & w3 & H3 & H).
  injection H as <- <-. exists w2.
  open_world w. unfold time in H1. injection H1 as <- <-.
  unfold printer_string in H2. cbn [prints] in H2.
  destruct (pr pn); [discriminate|]. injection H2 as <-. auto.
Qed.

Lemma call_reboots h m reporter w w' :
  call now pr h m reporter w = (Ok tt, w') ->
  reboots (results w')
  = (reboots (results w)
     + match h with RebootCallback => 1 | _ => 0 end)%Z.
Proof.
  intros H. destruct h; cbn [call] in H.
  - apply reboot_callback_ok in H. rewrite H. reflexivity.
  - apply run_callback_ok in H. rewrite H. cbn. lia.
  - apply pass_callback_ok in H as (item & _ & H). rewrite H. cbn. lia.
  - apply fail_callback_ok in H as (item & _ & H). rewrite H. cbn. lia.
  - apply finish_callback_ok in H
      as (? & ? & ? & ? & ? & ? & _ & _ & _ & _ & _ & _ & H).
    rewrite H. cbn. lia.
Qed.

Lemma for_entries_reboots line reporter table : forall w w',
  for_entries now pr table line reporter w = (Ok tt, w') ->
  reboots (results w')
  = (reboots (results w)
     + Z.of_nat (List.length (filter (hits line) (reboot_entries table))))%Z.
Proof.
  induction table as [|e table IH]; intros w w' H;
    cbn [for_entries reboot_entries filter] in *.
  - injection H as <-. cbn. lia.
  - apply bind_ok in H as ([] & w1 & H1 & H2).
    apply IH in H2. rewrite H2. unfold try_entry in H1.
    fold (reboot_entries table).
    destruct (re_match (pattern e) line) as [m|] eqn:E.
    + apply call_reboots in H1. rewrite H1.
      destruct (handler e); cbn [filter]; unfold hits; rewrite ?E;
        cbn [List.length]; lia.
    + injection H1 as <-.
      destruct (handler e); cbn [filter]; unfold hits; rewrite ?E; lia.
Qed.

Lemma call_items_failed h m reporter w w' :
  h <> FinishCallback ->
  call now pr h m reporter w = (Ok tt, w') ->
  items_failed (results w')
  = (items_failed (results w)
     + match h with FailCallback => 1 | _ => 0 end)%Z.
Proof.
  intros Hh H. destruct h; cbn [call] in H; try congruence.
  - apply reboot_callback_ok in H. rewrite H. cbn. lia.
  - apply run_callback_ok in H. rewrite H. cbn. lia.
  - apply pass_callback_ok in H as (item & _ & H). rewrite H. cbn. lia.
  - apply fail_callback_ok in H as (item & _ & H). rewrite H. reflexivity.
Qed.

(** How many of the entries that match belong to [fail_callback]. *)
Lemma for_entries_items_failed line reporter table : forall w w',
  (forall e, In e table -> handler e = FinishCallback ->
             re_match (pattern e) line = None) ->
  for_entries now pr table line reporter w = (Ok tt, w') ->
  items_failed (results w')
  = (items_failed (results w)
     + Z.of_nat (List.length
         (filter (fun hm => match fst hm with
                            | FailCallback => true
                            | _ => false
                            end) (matching table line))))%Z.
Proof.
  induction table as [|e table IH]; intros w w' Hfin H;
    cbn [for_entries matching] in *.
  - injection H as <-. cbn. lia.
  - apply bind_ok in H as ([] & w1 & H1 & H2).
    apply IH in H2; [|intros e0 He0; apply Hfin; now right].
    rewrite H2. unfold try_entry in H1.
    destruct (re_match (pattern e) line) as [m|] eqn:E.
    + apply call_items_failed in H1.
      * rewrite H1. cbn [filter fst].
        destruct (handler e); cbn [List.length]; lia.
      * intros Hh. rewrite (Hfin e (or_introl eq_refl) Hh) in E.
        discriminate.
    + injection H1 as <-. lia.
Qed.

Lemma fails_interesting line :
  Z.of_nat (List.length
    (filter (fun hm => match fst hm with
                       | FailCallback => true
                       | _ => false
                       end) (matching INTERESTING line)))
  = if is_fail line then 1%Z else 0%Z.
Proof.
  unfold INTERESTING, is_fail. cbn [matching pattern handler].
  destruct (re_match re_abort line), (re_match re_guru line),
    (re_match re_hardfault line), (re_match re_zephyr line),
    (re_match re_run line), (re_match re_pass line),
    (re_match re_fail line), (re_match re_finish line); reflexivity.
Qed.

Lemma rebooted_settled w w' : settled w w' -> rebooted w -> rebooted w'.
Proof.
  intros S. unfold rebooted, reboots_seen.
  rewrite (settled_lines _ _ S).
  destruct S as [_ [-> | ->]]; cbn; auto.
Qed.

Lemma on_line_rebooted line reporter w t w' :
  rebooted w -> on_line now pr line reporter w = (Ok t, w') -> rebooted w'.
Proof.
  intros Hw H. pose proof (on_line_ok now pr _ _ _ _ _ H) as (L & _ & _).
  apply on_line_parts in H as (w2 & R2 & _ & H).
  apply for_entries_reboots in H.
  unfold rebooted, reboots_seen in *. rewrite H, R2, Hw, L, reboot_hits.
  rewrite filter_app, length_app, Nat2Z.inj_add. cbn [filter].
  destruct (is_reboot line); reflexivity.
Qed.

Lemma session_rebooted guard inactivity instance reporter
      test_report_handle send_first turns :
  let s := main now pr get_instance_text guard inactivity instance reporter
                test_report_handle send_first turns new_world in
  at_rest s -> rebooted (snd s).
Proof.
  cbv zeta. unfold at_rest.
  pose proof (main_session now pr get_instance_text rebooted
                rebooted_settled) as H.
  assert (B : forall w, trail w = [] ->
              results w = set_overall_start_time (now 1)
                            (set_last_start_time (now 0) new_results) ->
              rebooted w).
  { intros w Ht Hr. unfold rebooted, reboots_seen.
    rewrite (begin_lines w Ht), Hr. reflexivity. }
  specialize (H B (fun line reporter w t w' Hw _ =>
                     on_line_rebooted line reporter w t w' Hw)).
  specialize (H guard inactivity instance reporter test_report_handle
                send_first turns).
  destruct (main _ _ _ _ _ _ _ _ _ _ _) as [[rv|e|] w']; cbn [fst snd];
    auto; contradiction.
Qed.

Lemma failures_counted_settled w w' :
  settled w w' -> failures_counted w -> failures_counted w'.
Proof.
  intros S Hw Hno. unfold failures_counted, fails_seen in *.
  rewrite (settled_lines _ _ S) in *.
  destruct S as [_ [-> | ->]]; cbn; auto.
Qed.

Lemma on_line_failures_counted line reporter w t w' :
  failures_counted w ->
  on_line now pr line reporter w = (Ok t, w') -> failures_counted w'.
Proof.
  intros Hw H. pose proof (on_line_ok now pr _ _ _ _ _ H) as (L & _ & _).
  apply on_line_parts in H as (w2 & R2 & _ & H).
  intros Hno. unfold failures_counted, fails_seen in *. rewrite L in *.
  apply for_entries_items_failed in H.
  - rewrite H, R2, fails_interesting.
    rewrite Hw by (intros l Hl; apply Hno, in_or_app; now left).
    rewrite filter_app, length_app, Nat2Z.inj_add. cbn [filter].
    destruct (is_fail line); reflexivity.
  - unfold INTERESTING. intros e He Hh. cbn [In] in He.
    repeat (destruct He as [<-|He]; [try discriminate Hh|]);
      [|contradiction].
    apply Hno, in_or_app. right. now left.
Qed.

Lemma session_failures_counted guard inactivity instance reporter
      test_report_handle send_first turns :
  let s := main now pr get_instance_text guard inactivity instance reporter
                test_report_handle send_first turns new_world in
  at_rest s -> failures_counted (snd s).
Proof.
  cbv zeta. unfold at_rest.
  pose proof (main_session now pr get_instance_text failures_counted
                failures_counted_settled) as H.
  assert (B : forall w, trail w = [] ->
              results w = set_overall_start_time (now 1)
                            (set_last_start_time (now 0) new_results) ->
              failures_counted w).
  { intros w Ht Hr _. unfold fails_seen.
    rewrite (begin_lines w Ht), Hr. reflexivity. }
  specialize (H B (fun line reporter w t w' Hw _ =>
                     on_line_failures_counted line reporter w t w' Hw)).
  specialize (H guard inactivity instance reporter test_report_handle
                send_first turns).
  destruct (main _ _ _ _ _ _ _ _ _ _ _) as [[rv|e|] w']; cbn [fst snd];
    auto; contradiction.
Qed.

Lemma announced_app a b :
  announced (a ++ b) = (announced a ++ announced b)%list.
Proof.
  induction a as [|[] a IH]; cbn; try exact IH; [reflexivity| |];
    now rewrite IH.
Qed.

Lemma announced_filter l : announced (filter of_line l) = announced l.
Proof.
  induction l as [|[] l IH]; cbn; try exact IH; [reflexivity| |];
    now rewrite IH.
Qed.

Lemma as_announced_settled w w' :
  settled w w' -> as_announced w -> as_announced w'.
Proof.
  intros [T R]. unfold as_announced.
  rewrite <- (announced_filter (log w')), <- (announced_filter (log w)).
  fold (trail w'). fold (trail w). rewrite T.
  destruct R as [-> | ->]; auto.
Qed.

Lemma call_as_announced h m reporter w w' :
  call now pr h m reporter w = (Ok tt, w') ->
  as_announced w -> as_announced w'.
Proof.
  open_world w. unfold as_announced. cbn [results log]. intros H T.
  destruct h; cbn [call] in H;
    unfold reboot_callback, run_callback, pass_callback, fail_callback,
      finish_callback, record_outcome in H;
    invert_run H; injection H as <-; cbn [results log];
    rewrite announced_app; cbn;
    rewrite ?app_nil_r, ?T; auto.
Qed.

Lemma for_entries_as_announced table line reporter : forall w w',
  for_entries now pr table line reporter w = (Ok tt, w') ->
  as_announced w -> as_announced w'.
Proof.
  induction table as [|e table IH]; intros w w' H Hw;
    cbn [for_entries] in H.
  - now injection H as <-.
  - apply bind_ok in H as ([] & w1 & H1 & H2).
    apply (IH _ _ H2). unfold try_entry in H1.
    destruct (re_match (pattern e) line).
    + eapply call_as_announced; eassumption.
    + now injection H1 as <-.
Qed.

Lemma on_line_as_announced line reporter w t w' :
  as_announced w ->
  on_line now pr line reporter w = (Ok t, w') -> as_announced w'.
Proof.
  intros Hw H. apply on_line_parts in H as (w2 & R2 & L2 & H).
  apply (for_entries_as_announced _ _ _ _ _ H).
  unfold as_announced in *. rewrite R2, L2, announced_app, Hw. cbn.
  now rewrite app_nil_r.
Qed.

Lemma session_as_announced guard inactivity instance reporter
      test_report_handle send_first turns :
  let s := main now pr get_instance_text guard inactivity instance reporter
                test_report_handle send_first turns new_world in
  at_rest s -> as_announced (snd s).
Proof.
  cbv zeta. unfold at_rest.
  pose proof (main_session now pr get_instance_text as_announced
                as_announced_settled) as H.
  assert (B : forall w, trail w = [] ->
              results w = set_overall_start_time (now 1)
                            (set_last_start_time (now 0) new_results) ->
              as_announced w).
  { intros w Ht Hr. unfold as_announced.
    rewrite <- (announced_filter (log w)). fold (trail w).
    rewrite Ht, Hr. reflexivity. }
  specialize (H B (fun line reporter w t w' Hw _ =>
                     on_line_as_announced line reporter w t w' Hw)).
  specialize (H guard inactivity instance reporter test_report_handle
                send_first turns).
  destruct (main _ _ _ _ _ _ _ _ _ _ _) as [[rv|e|] w']; cbn [fst snd];
    auto; contradiction.
Qed.

End Counts.

(** ** The value that a session returns *)

Section Values.

Variables (now : nat -> Q) (pr : nat -> option exn).
Variable get_instance_text : list Z -> string.

Lemma write_outcomes_keeps l : keeps kept_by_report (write_outcomes l).
Proof.
  induction l as [|o l IH]; cbn [write_outcomes]; [apply keeps_ret|].
  apply keeps_bind; [|intros _; exact IH].
  intros w. now open_world w.
Qed.

(** The end of [main]: the report, and the last message. *)
Lemma main_end_keeps test_report_handle instance rv0 :
  keeps kept_by_report
    (when (test_report_handle && given instance)
       (write_report pr get_instance_text
          (match instance with Some i => i | None => [] end)) ;;
     printer_string pr (LogEnd rv0) ;; ret rv0).
Proof.
  apply keeps_bind; [|intros _].
  - unfold when. destruct (test_report_handle && given instance);
      [|apply keeps_ret].
    unfold write_report.
    apply keeps_bind; [unfold kept_by_report; keeps_leaf | intros _].
    apply keeps_bind; [unfold kept_by_report; keeps_leaf | intros r].
    apply keeps_bind; [unfold kept_by_report; keeps_leaf | intros _].
    apply keeps_bind; [apply write_outcomes_keeps | intros _].
    unfold kept_by_report; keeps_leaf.
  - apply keeps_bind; [unfold kept_by_report; keeps_leaf | intros _].
    apply keeps_ret.
Qed.

Lemma main_end_value test_report_handle instance rv0 w1 rv w' :
  (when (test_report_handle && given instance)
     (write_report pr get_instance_text
        (match instance with Some i => i | None => [] end)) ;;
   printer_string pr (LogEnd rv0) ;; ret rv0) w1 = (Ok rv, w') ->
  rv = rv0.
Proof.
  intros H. apply bind_ok in H as ([] & w2 & _ & H).
  apply bind_ok in H as ([] & w3 & _ & H). now injection H as <- _.
Qed.

(** A session that returns has either not watched at all, the string to
    send first not having gone out, or returns what [watch_items] has
    returned. *)
Lemma main_returns guard inactivity instance reporter test_report_handle
      send_first turns rv w' :
  main now pr get_instance_text guard inactivity instance reporter
       test_report_handle send_first turns new_world = (Ok rv, w') ->
  match send_first with
  | Some false =>
      rv = (-1)%Z /\
      kept_by_report w'
      = kept_by_report
          (mkWorld (set_last_start_time (now 0%nat) new_results)
                   1 0 [] [] 0 false false [] None None)
  | _ =>
      exists w1,
        watch_items now pr guard inactivity reporter turns (begun now)
        = (Ok rv, w1) /\
        kept_by_report w' = kept_by_report w1
  end.
Proof.
  unfold main.
  unfold bind at 1. cbn [update with_results new_world results ticks prints
    log events timers pump_started pump_joined report loop_exit expired].
  unfold bind at 1. cbn [time results ticks prints
    log events timers pump_started pump_joined report loop_exit expired].
  unfold bind at 1. cbn [update with_results results ticks prints
    log events timers pump_started pump_joined report loop_exit expired].
  unfold bind at 1.
  destruct send_first as [[|]|].
  2: { cbn [ret]. intros H.
       pose proof (main_end_value _ _ _ _ _ _ H) as ->.
       split; [reflexivity|].
       match type of H with ?c ?w1 = _ =>
         pose proof (main_end_keeps test_report_handle instance (-1)%Z w1)
           as K
       end.
       rewrite H in K. exact K. }
  all: unfold bind at 1; cbn [time results ticks prints log events timers
         pump_started pump_joined report loop_exit expired];
       unfold bind at 1; cbn [update with_results results ticks prints log
         events timers pump_started pump_joined report loop_exit expired];
       match goal with
       | |- context [watch_items ?x1 ?x2 ?x3 ?x4 ?x5 ?x6 ?w0] =>
           change w0 with (begun now)
       end;
       destruct (watch_items now pr guard inactivity reporter turns
                             (begun now)) as [[rv0| |] w1];
       try discriminate;
       intros H; pose proof (main_end_value _ _ _ _ _ _ H) as ->;
       exists w1; split; [reflexivity|];
       pose proof (main_end_keeps test_report_handle instance rv0 w1) as K;
       rewrite H in K; exact K.
Qed.

End Values.

Section Verdicts.

Variables (now : nat -> Q) (pr : nat -> option exn).
Variable get_instance_text : list Z -> string.

(** After the loop, a timer found expired gives -1. *)
Lemma after_loop_expired guard inactivity start_time lat w :
  expired w = None ->
  match after_loop now pr guard inactivity start_time lat w with
  | (Ok rv, w') => expired w' <> None -> rv = (-1)%Z
  | _ => True
  end.
Proof.
  intros Hw. open_world w. cbn [expired] in Hw. subst.
  unfold after_loop, past.
  run_monad; cbn; try exact I; try reflexivity; intros H; congruence.
Qed.

Lemma watch_body_expired guard inactivity reporter start_time lat turns w :
  expired w = None ->
  match watch_body now pr guard inactivity reporter start_time lat turns w
  with
  | (Ok rv, w') => expired w' <> None -> rv = (-1)%Z
  | _ => True
  end.
Proof.
  intros Hexp. unfold watch_body, bind.
  destruct (watch_loop_frame now pr reporter turns guard inactivity
                             start_time lat w) as [H2 _].
  destruct (watch_loop _ _ _ _ _ _ _ _ _) as [[t|e|] w1]; cbn [snd] in *;
    try exact I.
  unfold loop_frame in H2. injection H2 as _ _ _ F4.
  apply after_loop_expired. congruence.
Qed.

(** What [watch_items] returns is -1 when the loop was not left through
    its condition, or a timer was found expired after it, and the sum of
    the two counts otherwise. *)
Lemma watch_items_value guard inactivity reporter turns w :
  loop_exit w = None -> expired w = None -> counts_ok w ->
  match watch_items now pr guard inactivity reporter turns w with
  | (Ok rv, w') =>
      ((loop_exit w' = None \/ expired w' <> None) -> rv = (-1)%Z) /\
      (loop_exit w' <> None -> expired w' = None ->
       rv = (items_failed (results w') + reboots (results w'))%Z /\
       (0 <= rv)%Z)
  | _ => True
  end.
Proof.
  intros Hexit Hexp Hcounts.
  destruct (watch_items_spec now pr guard inactivity reporter turns w
              Hexit Hexp Hcounts) as [S _].
  assert (N : match watch_items now pr guard inactivity reporter turns w
              with
              | (Ok rv, w') =>
                  (loop_exit w' = None \/ expired w' <> None) ->
                  rv = (-1)%Z
              | _ => True
              end).
  { open_world w. cbn [loop_exit expired] in Hexit, Hexp. subst le ex.
    unfold watch_items.
    cbv [bind time printer_string start_pump results ticks prints log
         events timers pump_started pump_joined report loop_exit expired].
    destruct (pr pn) as [e|]; [exact I|].
    unfold try_except.
    match goal with
    | |- context [watch_body ?x1 ?x2 ?x3 ?x4 ?x5 ?x6 ?x7 ?x8 ?x9] =>
        destruct (watch_body_spec x1 x2 x3 x4 x5 x6 x7 x8 x9 eq_refl
                    eq_refl Hcounts) as [B1 _];
        pose proof (watch_body_expired x3 x4 x5 x6 x7 x8 x9 eq_refl) as B2;
        destruct (watch_body x1 x2 x3 x4 x5 x6 x7 x8 x9) as [[rv|e|] w1]
    end; try exact I.
    - intros [H|H]; [|exact (B2 H)]. destruct B1 as [B1 _]. contradiction.
    - destruct e; try exact I; destruct (pr _); try exact I;
        intros _; reflexivity. }
  destruct (watch_items _ _ _ _ _ _ _) as [[rv|e|] w']; try exact I.
  split; [exact N|]. intros Hle Hex.
  destruct (S Hle) as (_ & _ & [C1 C2] & Hrv).
  rewrite (Hrv Hex). split; [reflexivity | lia].
Qed.

Lemma begun_counts_ok : counts_ok (begun now).
Proof. unfold counts_ok, begun. cbn. lia. Qed.

(** X11. A session returns -1 exactly when its watching loop was not left
    through its condition (nothing was watched because the string to send
    first did not go out, or the loop was left by an exception that
    [watch_items] caught) or a timer was found expired after it; every
    other value returned is the sum of two counts, and not negative. *)
Theorem minus_one_is_no_verdict guard inactivity instance reporter
        test_report_handle send_first turns rv w' :
  main now pr get_instance_text guard inactivity instance reporter
       test_report_handle send_first turns new_world = (Ok rv, w') ->
  (rv = (-1)%Z <-> loop_exit w' = None \/ expired w' <> None) /\
  (rv <> (-1)%Z ->
   rv = (items_failed (results w') + reboots (results w'))%Z /\
   (0 <= rv)%Z).
Proof.
  intros H. apply main_returns in H.
  assert (G : forall w1,
    watch_items now pr guard inactivity reporter turns (begun now)
    = (Ok rv, w1) ->
    kept_by_report w' = kept_by_report w1 ->
    (rv = (-1)%Z <-> loop_exit w' = None \/ expired w' <> None) /\
    (rv <> (-1)%Z ->
     rv = (items_failed (results w') + reboots (results w'))%Z /\
     (0 <= rv)%Z)).
  { intros w1 W K.
    pose proof (watch_items_value guard inactivity reporter turns
                  (begun now) eq_refl eq_refl begun_counts_ok) as V.
    rewrite W in V. destruct V as [V1 V2].
    unfold kept_by_report in K. injection K as -> _ _ _ _ _ -> ->.
    destruct (loop_exit w1) as [x|] eqn:Ex;
      [destruct (expired w1) as [y|] eqn:Ey|].
    - assert (rv = (-1)%Z) as -> by (apply V1; right; discriminate).
      split; [|congruence]. split; [right; discriminate | reflexivity].
    - destruct (V2 ltac:(discriminate) eq_refl) as [R1 R2].
      split; [|auto]. split; [lia | intros [F|F]; congruence].
    - assert (rv = (-1)%Z) as -> by (apply V1; now left).
      split; [|congruence]. split; [now left | reflexivity]. }
  destruct send_first as [[|]|].
  - destruct H as (w1 & W & K). exact (G w1 W K).
  - destruct H as [-> K]. unfold kept_by_report in K.
    injection K as _ _ _ _ _ _ -> _. cbn.
    split; [|congruence]. split; [now left | reflexivity].
  - destruct H as (w1 & W & K). exact (G w1 W K).
Qed.

(** X12. When the string to send first has not gone out, nothing is
    watched: the reading thread is not started, no line is taken, and -1
    is returned; and still, with a report handle and an instance, a
    report is written, which holds no test case and says that no test was
    run. *)
Theorem failed_send_watches_nothing guard inactivity instance reporter
        test_report_handle turns rv w' :
  main now pr get_instance_text guard inactivity instance reporter
       test_report_handle (Some false) turns new_world = (Ok rv, w') ->
  rv = (-1)%Z /\ pump_started w' = false /\ events w' = [] /\
  log w'
  = ((if test_report_handle && given instance
      then [LogWritingReport] else []) ++ [LogEnd (-1)])%list /\
  report w'
  = if test_report_handle && given instance
    then [testsuite_line get_instance_text
            (match instance with Some i => i | None => [] end) new_results;
          "</testsuite>" ++ nl]
    else [].
Proof.
  intros H. pose proof (main_spec _ _ _ _ _ _ _ _ _ _ _ _ H) as [_ R].
  pose proof (main_returns _ _ _ _ _ _ _ _ _ _ _ _ H) as [-> K].
  unfold kept_by_report in K. injection K as Hr _ He _ Hp _ _ _.
  split; [reflexivity|]. split; [exact Hp|]. split; [exact He|].
  split.
  - revert H. unfold main.
    cbv [bind update time with_results new_world ret results ticks prints
         log events timers pump_started pump_joined report loop_exit
         expired].
    destruct (test_report_handle && given instance); unfold when.
    + unfold write_report.
      cbv [bind printer_string get_results write results ticks prints log
           events timers pump_started pump_joined report loop_exit
           expired].
      destruct (pr 0%nat); [discriminate|].
      cbn [write_outcomes new_results outcomes set_last_start_time ret].
      cbv [bind printer_string get_results write results ticks prints log
           events timers pump_started pump_joined report loop_exit
           expired ret].
      destruct (pr 1%nat); [discriminate|]. intros H; injection H as <-; reflexivity.
    + cbv [bind printer_string ret results ticks prints log
           events timers pump_started pump_joined report loop_exit
           expired].
      destruct (pr 0%nat); [discriminate|]. intros H; injection H as <-; reflexivity.
  - rewrite R, Hr.
    destruct (test_report_handle && given instance); reflexivity.
Qed.

End Verdicts.

Lemma minus_one_is_no_verdict_witness :
  ((2 = -1)%Z <->
   loop_exit (snd summary_session) = None \/
   expired (snd summary_session) <> None) /\
  ((2 <> -1)%Z ->
   (2 = items_failed (results (snd summary_session))
        + reboots (results (snd summary_session)))%Z /\
   (0 <= 2)%Z).
Proof.
  unfold summary_session.
  apply (minus_one_is_no_verdict seconds quiet dotted None None None false
           false None
           [line_turn "abort() was called";
            line_turn "22 Tests 1 Failures 0 Ignored"; idle_turn] 2%Z).
  vm_compute. reflexivity.
Defined.

Lemma failed_send_watches_nothing_witness :
  let w' := snd (main seconds quiet dotted None None (Some [12%Z; 0%Z]) false
                      true (Some false) [line_turn "Running x..."]
                      new_world) in
  (-1 = -1)%Z /\ pump_started w' = false /\ events w' = [] /\
  log w' = [LogWritingReport; LogEnd (-1)] /\
  report w'
  = [testsuite_line dotted [12%Z; 0%Z] new_results; "</testsuite>" ++ nl].
Proof.
  cbv zeta.
  apply (failed_send_watches_nothing seconds quiet dotted None None
           (Some [12%Z; 0%Z]) false true [line_turn "Running x..."]
           (-1)%Z).
  vm_compute. reflexivity.
Defined.

(** ** What the counts of a session count *)

(** X13. In every state of a session at rest the reboots counted are the
    lines handled that begin with a reboot marker; and a session that has
    left its loop with no timer found expired returns at least that
    number, so that a run in which the target was seen to reboot does not
    return 0, whatever its summary line says. *)
Theorem reboots_are_counted now pr get_instance_text guard inactivity
        instance reporter test_report_handle send_first turns :
  let s := main now pr get_instance_text guard inactivity instance reporter
                test_report_handle send_first turns new_world in
  at_rest s ->
  reboots (results (snd s)) = reboots_seen (snd s) /\
  (forall rv, fst s = Ok rv -> expired (snd s) = None ->
              (reboots_seen (snd s) <= rv)%Z).
Proof.
  cbv zeta. intros Hrest.
  pose proof (session_rebooted now pr get_instance_text guard inactivity
                instance reporter test_report_handle send_first turns Hrest)
    as R.
  split; [exact R|]. intros rv Hrv Hexp.
  destruct (main _ _ _ _ _ _ _ _ _ _ _) as [res w'] eqn:E.
  cbn [fst snd] in *. subst res. unfold at_rest in Hrest. cbn [fst snd] in Hrest.
  apply main_spec in E as [E _].
  destruct (E Hrest) as (_ & _ & [C1 C2] & V).
  rewrite <- R, (V Hexp). lia.
Qed.

Lemma reboots_are_counted_witness :
  reboots (results (snd summary_session)) = reboots_seen (snd summary_session)
  /\ (reboots_seen (snd summary_session) <= 2)%Z.
Proof.
  unfold summary_session.
  pose proof (reboots_are_counted seconds quiet dotted None None None false
                false None
                [line_turn "abort() was called";
                 line_turn "22 Tests 1 Failures 0 Ignored"; idle_turn]) as E.
  cbv zeta in E.
  match type of E with at_rest ?s -> _ =>
    assert (R : at_rest s) by (vm_compute; discriminate)
  end.
  destruct (E R) as [E1 E2]. split; [exact E1|].
  apply E2; vm_compute; reflexivity.
Defined.

(** X14. In every state of a session at rest in which no summary line has
    been handled, [items_failed] is the number of lines handled that match
    the FAIL pattern. *)
Theorem failures_are_counted now pr get_instance_text guard inactivity
        instance reporter test_report_handle send_first turns :
  let s := main now pr get_instance_text guard inactivity instance reporter
                test_report_handle send_first turns new_world in
  at_rest s ->
  (forall line, In line (lines (snd s)) -> re_match re_finish line = None) ->
  items_failed (results (snd s)) = fails_seen (snd s).
Proof.
  cbv zeta. intros Hrest Hno.
  exact (session_failures_counted now pr get_instance_text guard inactivity
           instance reporter test_report_handle send_first turns Hrest Hno).
Qed.

Lemma failures_are_counted_witness :
  items_failed (results (snd cancelled_session)) = 1%Z.
Proof.
  unfold cancelled_session.
  pose proof (failures_are_counted seconds quiet dotted None None None false
                false None
                [line_turn "/a/b.c:10:testFoo:FAIL:oops"; cancel_turn]) as E.
  cbv zeta in E.
  match type of E with at_rest ?s -> _ =>
    assert (R : at_rest s) by (vm_compute; discriminate);
    assert (L : lines (snd s) = ["/a/b.c:10:testFoo:FAIL:oops"])
      by (vm_compute; reflexivity);
    assert (S : fails_seen (snd s) = 1%Z) by (vm_compute; reflexivity)
  end.
  rewrite L in E.
  refine (eq_trans (E R _) S).
  intros line [<- | []]; vm_compute; reflexivity.
Defined.

(** X15. In every state of a session at rest the outcomes recorded are those
    that the printer was told, item by item and in the same order: the
    seconds in a progress message are the seconds of the outcome. *)
Theorem outcomes_are_as_announced now pr get_instance_text guard inactivity
        instance reporter test_report_handle send_first turns :
  let s := main now pr get_instance_text guard inactivity instance reporter
                test_report_handle send_first turns new_world in
  at_rest s ->
  outcomes (results (snd s)) = announced (log (snd s)).
Proof.
  cbv zeta. intros Hrest.
  exact (session_as_announced now pr get_instance_text guard inactivity
           instance reporter test_report_handle send_first turns Hrest).
Qed.

Lemma outcomes_are_as_announced_witness :
  outcomes (results (snd failed_session))
  = announced (log (snd failed_session)).
Proof.
  unfold failed_session.
  pose proof (outcomes_are_as_announced seconds quiet dotted None None None
                false false None
                [line_turn "/a/b.c:10:testFoo:FAIL:oops";
                 line_turn "1 Tests 1 Failures 0 Ignored"; idle_turn]) as E.
  cbv zeta in E. apply E. vm_compute. discriminate.
Defined.

(** ** Limits of zero seconds *)

Lemma bind_ext {A B} (c : M A) (f g : A -> M B) w :
  (forall a w1, f a w1 = g a w1) -> bind c f w = bind c g w.
Proof.
  intros H. unfold bind. destruct (c w) as [[a|e|] w1]; auto.
Qed.

Lemma bind_ext_l {A B} (c c' : M A) (f : A -> M B) w :
  c w = c' w -> bind c f w = bind c' f w.
Proof. intros H. unfold bind. now rewrite H. Qed.

Section Zero.

Variables (now : nat -> Q) (pr : nat -> option exn).
Variable get_instance_text : list Z -> string.

Lemma watch_loop_zero_guard inactivity reporter start_time turns :
  forall lat w,
    watch_loop now pr (Some 0%Z) inactivity reporter start_time lat turns w
    = watch_loop now pr None inactivity reporter start_time lat turns w.
Proof.
  induction turns as [|turn turns IH]; intros lat w; [reflexivity|].
  cbn [watch_loop]. destruct (keep_going turn); cbn [negb]; [|reflexivity].
  apply bind_ext; intros [] w1. apply bind_ext; intros r w2.
  destruct (finished r); [reflexivity|].
  change (within now (Some 0%Z) start_time)
    with (within now None start_time).
  apply bind_ext; intros in_guard w3.
  destruct in_guard; cbn [negb]; [|reflexivity].
  apply bind_ext; intros active w4.
  destruct active; cbn [negb]; [|reflexivity].
  apply bind_ext; intros t w5. apply IH.
Qed.

Lemma watch_loop_zero_inactivity guard reporter start_time turns :
  forall lat w,
    watch_loop now pr guard (Some 0%Z) reporter start_time lat turns w
    = watch_loop now pr guard None reporter start_time lat turns w.
Proof.
  induction turns as [|turn turns IH]; intros lat w; [reflexivity|].
  cbn [watch_loop]. destruct (keep_going turn); cbn [negb]; [|reflexivity].
  apply bind_ext; intros [] w1. apply bind_ext; intros r w2.
  destruct (finished r); [reflexivity|].
  apply bind_ext; intros in_guard w3.
  destruct in_guard; cbn [negb]; [|reflexivity].
  change (within now (Some 0%Z) lat) with (within now None lat).
  apply bind_ext; intros active w4.
  destruct active; cbn [negb]; [|reflexivity].
  apply bind_ext; intros t w5. apply IH.
Qed.

Lemma watch_items_zero_guard inactivity reporter turns w :
  watch_items now pr (Some 0%Z) inactivity reporter turns w
  = watch_items now pr None inactivity reporter turns w.
Proof.
  unfold watch_items.
  apply bind_ext; intros start_time w1. apply bind_ext; intros lat w2.
  apply bind_ext; intros [] w3. apply bind_ext; intros [] w4.
  unfold try_except, watch_body.
  rewrite (bind_ext_l _ _ _ _ (watch_loop_zero_guard _ _ _ _ _ _)).
  reflexivity.
Qed.

Lemma watch_items_zero_inactivity guard reporter turns w :
  watch_items now pr guard (Some 0%Z) reporter turns w
  = watch_items now pr guard None reporter turns w.
Proof.
  unfold watch_items.
  apply bind_ext; intros start_time w1. apply bind_ext; intros lat w2.
  apply bind_ext; intros [] w3. apply bind_ext; intros [] w4.
  unfold try_except, watch_body.
  rewrite (bind_ext_l _ _ _ _ (watch_loop_zero_inactivity _ _ _ _ _ _)).
  reflexivity.
Qed.

(** X16. A guard time or an inactivity time of zero seconds is no limit at
    all: the session runs as it does with no such time given, and does
    not end at once. *)
Theorem zero_seconds_is_no_limit guard inactivity instance reporter
        test_report_handle send_first turns w :
  main now pr get_instance_text (Some 0%Z) inactivity instance reporter
       test_report_handle send_first turns w
  = main now pr get_instance_text None inactivity instance reporter
         test_report_handle send_first turns w /\
  main now pr get_instance_text guard (Some 0%Z) instance reporter
       test_report_handle send_first turns w
  = main now pr get_instance_text guard None instance reporter
         test_report_handle send_first turns w.
Proof.
  split; unfold main;
    (apply bind_ext; intros [] w1; apply bind_ext; intros t w2;
     apply bind_ext; intros [] w3; apply bind_ext_l;
     destruct send_first as [[|]|]; try reflexivity;
     apply bind_ext; intros t0 w4; apply bind_ext; intros [] w5).
  1,2: apply watch_items_zero_guard.
  all: apply watch_items_zero_inactivity.
Qed.

End Zero.

(** ** No line makes a handler fail *)




Section Quiet.

Variables (now : nat -> Q) (pr : nat -> option exn).
Variable get_instance_text : list Z -> string.
Hypothesis printer_is_quiet : forall n, pr n = None.

Lemma printer_returns msg w :
  printer_string pr msg w
  = (Ok tt, mkWorld (results w) (ticks w) (S (prints w)) (log w ++ [msg])
                    (events w) (timers w) (pump_started w) (pump_joined w)
                    (report w) (loop_exit w) (expired w)).
Proof. unfold printer_string. now rewrite printer_is_quiet. Qed.


Lemma reboot_callback_total m reporter w :
  exists w', reboot_callback pr m reporter w = (Ok tt, w').
Proof.
  unfold reboot_callback, bind. rewrite printer_returns.
  destruct reporter; eexists; reflexivity.
Qed.

Lemma pass_callback_total line m reporter w :
  re_match re_pass line = Some m ->
  exists w', pass_callback now pr m reporter w = (Ok tt, w').
Proof.
  intros Hm. destruct (pass_group line m Hm) as [item G].
  unfold pass_callback, bind, group_of. cbn [time get_results].
  rewrite G. cbn [ret]. rewrite printer_returns.
  destruct reporter; eexists; reflexivity.
Qed.

Lemma fail_callback_total line m reporter w :
  re_match re_fail line = Some m ->
  exists w', fail_callback now pr m reporter w = (Ok tt, w').
Proof.
  intros Hm. destruct (fail_group line m Hm) as [item G].
  unfold fail_callback, bind, group_of. cbn [update time get_results].
  rewrite G. cbn [ret]. rewrite printer_returns.
  destruct reporter; eexists; reflexivity.
Qed.

(** The handler of an entry of the table returns on every match of the
    pattern of that entry. *)
Lemma call_total entry line m reporter w :
  (forall m0, re_match re_finish line = Some m0 -> int_takes m0) ->
  In entry INTERESTING ->
  re_match (pattern entry) line = Some m ->
  exists w', call now pr (handler entry) m reporter w = (Ok tt, w').
Proof.
  unfold INTERESTING. intros Htakes Hin Hm. cbn [In] in Hin.
  repeat (destruct Hin as [<-|Hin]); try contradiction;
    cbn [pattern handler call] in *.
  1-4: apply reboot_callback_total.
  - destruct (run_callback_total now pr line m reporter w Hm
                (printer_is_quiet _)) as (w' & H & _).
    now exists w'.
  - exact (pass_callback_total line m reporter w Hm).
  - exact (fail_callback_total line m reporter w Hm).
  - destruct (summary_some line m Hm (Htakes m Hm))
      as (s1 & s2 & s3 & n1 & n2 & n3 & G1 & I1 & G2 & I2 & G3 & I3 & _).
    destruct (finish_callback_total now pr m reporter w _ _ _ _ _ _
                G1 I1 G2 I2 G3 I3 (printer_is_quiet _)) as (w' & H & _).
    now exists w'.
Qed.

Lemma for_entries_total line reporter table : forall w,
  (forall m0, re_match re_finish line = Some m0 -> int_takes m0) ->
  incl table INTERESTING ->
  exists w', for_entries now pr table line reporter w = (Ok tt, w').
Proof.
  induction table as [|entry table IH]; intros w Htakes Hin;
    cbn [for_entries]; [now exists w|].
  assert (H1 : exists w1, try_entry now pr entry line reporter w
                          = (Ok tt, w1)).
  { unfold try_entry.
    destruct (re_match (pattern entry) line) as [m|] eqn:E;
      [|now exists w].
    apply (call_total entry line m reporter w Htakes); [|exact E].
    apply Hin. now left. }
  destruct H1 as (w1 & H1).
  destruct (IH w1 Htakes) as (w' & H2);
    [intros e He; apply Hin; now right|].
  exists w'. now rewrite (bind_run _ _ _ _ _ H1).
Qed.

(** The loop takes every line whose numbers, if it is a summary line,
    [int] takes. *)
Lemma on_line_total line reporter w :
  (forall m0, re_match re_finish line = Some m0 -> int_takes m0) ->
  exists t w', on_line now pr line reporter w = (Ok t, w').
Proof.
  intros Htakes.
  unfold on_line. unfold bind at 1. cbn [time].
  unfold bind at 1. rewrite printer_returns. cbv beta iota.
  match goal with |- context [bind _ _ ?w0] =>
    destruct (for_entries_total line reporter INTERESTING w0 Htakes
                (incl_refl _)) as (w' & H)
  end.
  eexists _, w'. now rewrite (bind_run _ _ _ _ _ H).
Qed.








End Quiet.



(** ** A session that does not end *)

Lemma bind_pending {A B} (c : M A) (f : A -> M B) w :
  fst (c w) = Pending -> fst (bind c f w) = Pending.
Proof.
  unfold bind. destruct (c w) as [[a|e|] w1]; cbn [fst]; congruence.
Qed.

Section Waiting.

Variables (now : nat -> Q) (pr : nat -> option exn).
Variable get_instance_text : list Z -> string.
Hypothesis printer_is_quiet : forall n, pr n = None.

Lemma call_keeps_finished h m reporter w w' :
  h <> FinishCallback ->
  call now pr h m reporter w = (Ok tt, w') ->
  finished (results w') = finished (results w).
Proof.
  intros Hh H. destruct h; cbn [call] in H; try congruence.
  - apply reboot_callback_ok in H. now rewrite H.
  - apply run_callback_ok in H. now rewrite H.
  - apply pass_callback_ok in H as (item & _ & H). now rewrite H.
  - apply fail_callback_ok in H as (item & _ & H). now rewrite H.
Qed.

Lemma for_entries_keeps_finished line reporter table : forall w w',
  (forall e, In e table -> handler e = FinishCallback ->
             re_match (pattern e) line = None) ->
  for_entries now pr table line reporter w = (Ok tt, w') ->
  finished (results w') = finished (results w).
Proof.
  induction table as [|e table IH]; intros w w' Hfin H;
    cbn [for_entries] in *.
  - now injection H as <-.
  - apply bind_ok in H as ([] & w1 & H1 & H2).
    apply IH in H2; [|intros e0 He0; apply Hfin; now right].
    rewrite H2. unfold try_entry in H1.
    destruct (re_match (pattern e) line) as [m|] eqn:E.
    + apply call_keeps_finished in H1; [exact H1|].
      intros Hh. rewrite (Hfin e (or_introl eq_refl) Hh) in E.
      discriminate.
    + now injection H1 as <-.
Qed.

(** A line that is no summary line leaves [finished] as it is. *)
Lemma on_line_keeps_finished line reporter w t w' :
  re_match re_finish line = None ->
  on_line now pr line reporter w = (Ok t, w') ->
  finished (results w') = finished (results w).
Proof.
  intros Hno H. apply on_line_parts in H as (w2 & R2 & _ & H).
  apply for_entries_keeps_finished in H; [congruence|].
  unfold INTERESTING. intros e He Hh. cbn [In] in He.
  repeat (destruct He as [<-|He]; [try discriminate Hh|]);
    [exact Hno | contradiction].
Qed.

(** Turns in which nothing asks the loop to end. *)
Lemma watch_loop_goes_on reporter start_time turns : forall lat w,
  Forall (fun turn =>
            keep_going turn = true /\ timer_fired turn = false /\
            forall line, queued turn = Some line ->
                         re_match re_finish line = None) turns ->
  finished (results w) = false ->
  fst (watch_loop now pr None None reporter start_time lat turns w)
  = Pending.
Proof.
  induction turns as [|turn turns IH]; intros lat w Hall Hfin;
    [reflexivity|].
  inversion Hall as [|x l (Hk & Ht & Hq) Hall']; subst.
  cbn [watch_loop]. rewrite Hk, Ht. cbn [negb when].
  unfold bind at 1. cbn [ret]. unfold bind at 1. cbn [get_results].
  rewrite Hfin. unfold bind at 1. cbn [within truthy ret negb].
  unfold bind at 1. cbn [ret negb].
  destruct (queued turn) as [line|] eqn:Eq.
  - destruct (on_line_total now pr printer_is_quiet line reporter w)
      as (t & w' & E);
      [intros m0 Hm0; rewrite (Hq line eq_refl) in Hm0; discriminate|].
    unfold bind. rewrite E. apply (IH t w' Hall').
    rewrite (on_line_keeps_finished line reporter w t w' (Hq line eq_refl) E).
    exact Hfin.
  - unfold bind. cbn [ret]. apply (IH lat w Hall' Hfin).
Qed.

Lemma main_goes_on instance reporter test_report_handle send_first turns :
  send_first <> Some false ->
  Forall (fun turn =>
            keep_going turn = true /\ timer_fired turn = false /\
            forall line, queued turn = Some line ->
                         re_match re_finish line = None) turns ->
  fst (main now pr get_instance_text None None instance reporter
            test_report_handle send_first turns new_world) = Pending.
Proof.
  intros Hsend Hall.
  assert (W : forall w, finished (results w) = false ->
            fst (watch_items now pr None None reporter turns w) = Pending).
  { intros w Hfin. unfold watch_items.
    unfold bind at 1. cbn [time]. unfold bind at 1. cbn [time].
    unfold bind at 1. rewrite (printer_returns pr printer_is_quiet).
    cbv beta iota. unfold bind at 1. cbn [start_pump].
    unfold try_except, watch_body.
    match goal with |- context [bind ?c ?f ?w0] =>
      pose proof (bind_pending c f w0) as P
    end.
    match type of P with ?A -> _ =>
      assert (HA : A) by (apply watch_loop_goes_on; [exact Hall | exact Hfin])
    end.
    specialize (P HA).
    destruct (bind _ _ _) as [[rv|e|] w1]; cbn [fst] in *; congruence. }
  unfold main.
  unfold bind at 1. cbn [update]. unfold bind at 1. cbn [time].
  unfold bind at 1. cbn [update]. apply bind_pending.
  destruct send_first as [[|]|]; try congruence;
    (unfold bind at 1; cbn [time]; unfold bind at 1; cbn [update];
     apply W; reflexivity).
Qed.

End Waiting.

(** X18. With a printer that raises nothing, with no guard time and no
    inactivity time, a session whose string to send first, if there is
    one, has gone out goes on for as long as it is not cancelled, no timer
    of a reboot fires and no summary line arrives, whatever else the
    target says and however long it is silent: after any number of such
    turns it is still waiting. *)
Theorem no_limit_no_end now pr get_instance_text instance reporter
        test_report_handle send_first turns :
  (forall n, pr n = None) ->
  send_first <> Some false ->
  Forall (fun turn =>
            keep_going turn = true /\ timer_fired turn = false /\
            forall line, queued turn = Some line ->
                         re_match re_finish line = None) turns ->
  fst (main now pr get_instance_text None None instance reporter
            test_report_handle send_first turns new_world) = Pending.
Proof.
  intros Hquiet Hsend Hall.
  apply (main_goes_on now pr get_instance_text Hquiet instance reporter
           test_report_handle send_first turns Hsend Hall).
Qed.

Lemma no_limit_no_end_witness :
  fst (main seconds quiet dotted None None None false false None
            [line_turn "abort() was called"; idle_turn;
             line_turn "/a/b.c:10:testFoo:FAIL:oops"; idle_turn] new_world)
  = Pending.
Proof.
  apply (no_limit_no_end seconds quiet dotted None false false None
           [line_turn "abort() was called"; idle_turn;
            line_turn "/a/b.c:10:testFoo:FAIL:oops"; idle_turn]
           (fun n => eq_refl)).
  - discriminate.
  - repeat constructor; intros line H; try discriminate H;
      injection H as <-; vm_compute; reflexivity.
Defined.

(** ** The name of an item that starts *)

Lemma star_not_dot_took greedy c c' :
  matches (Star greedy not_dot) c c' ->
  exists s, took c c' s /\ ~ holds "." s.
Proof.
  remember (Star greedy not_dot) as r eqn:Hr. induction 1; try discriminate.
  - exists "". split; [apply took_nil | intros []].
  - injection Hr as -> ->.
    destruct (IHmatches2 eq_refl) as (s2 & Ht2 & Hd2).
    apply matches_set_inv in H as (b & s & Hb & Hin & ->).
    exists (String b "" ++ s2). split.
    + eapply took_trans; [apply took_advance; eassumption | assumption].
    + change (String b "" ++ s2) with (String b s2).
      intros [F|F]; [|exact (Hd2 F)]. subst b. discriminate Hin.
Qed.

(** X19. The name that a start line gives to [run_callback] is not empty and
    holds no dot: it is the text between the blanks after "Running" and
    the first dot after them. *)
Theorem item_name_holds_no_dot line m :
  re_match re_run line = Some m ->
  exists item,
    group m 1 = Some item /\ item <> "" /\ ~ holds "." item.
Proof.
  intros H. apply re_match_sound in H as [_ H].
  unfold re_run in H.
  apply matches_seq_inv in H as (c1 & _ & H).
  apply matches_seq_inv in H as (c2 & _ & H).
  apply matches_seq_inv in H as (c3 & G & H).
  apply matches_plain in H; [|reflexivity].
  apply matches_group_inv in G as (c4 & G & ->).
  apply matches_seq_inv in G as (c5 & P & L).
  unfold Plus in P. apply matches_seq_inv in P as (c6 & P1 & P2).
  apply matches_set_inv in P1 as (b & s & Hb & Hin & ->).
  apply star_not_dot_took in P2 as (s2 & T2 & D2).
  assert (T : took c2 c5 (String b "" ++ s2))
    by (eapply took_trans; [apply took_advance; eassumption | assumption]).
  inversion L as [| | | | | | | |r0 c0 cl Hl| |]; subst.
  assert (T' : took c2 {| before := before c5; rest := rest c5;
                          groups := groups cl |} (String b "" ++ s2))
    by (destruct T as [T1 T3]; split; assumption).
  apply (set_group_took 1) in T'.
  exists (String b "" ++ s2). split; [|split].
  - unfold group. rewrite H, T'. reflexivity.
  - discriminate.
  - change (String b "" ++ s2) with (String b s2).
    intros [F|F]; [|exact (D2 F)]. subst b. discriminate Hin.
Qed.

Lemma item_name_holds_no_dot_witness :
  exists item,
    group {| subject := "x: Running  getSetMnoProfile.ab";
             stop := {| before := 31; rest := "";
                        groups := [(1%nat, "getSetMnoProfile")] |} |} 1
    = Some item /\ item <> "" /\ ~ holds "." item.
Proof.
  apply (item_name_holds_no_dot "x: Running  getSetMnoProfile.ab").
  vm_compute. reflexivity.
Defined.

Local Open Scope link_scope.

(** ** Sending a string before the run *)

(** A call that returns a line has taken something from the port. *)
Lemma serial_loop_shortens terminator in_handle : forall line found rest,
  serial_loop in_handle terminator line = (Some found, rest) ->
  (List.length rest < List.length in_handle)%nat.
Proof.
  induction in_handle as [|[b|] in_handle IH]; intros line found rest H;
    cbn [serial_loop] in H; try discriminate.
  cbn [List.length].
  destruct (decode b) as [character|].
  - destruct (String.eqb (String character "") terminator).
    + injection H as _ <-. lia.
    + apply IH in H. lia.
  - injection H as _ <-. lia.
Qed.

Lemma serial_loop_no_longer terminator in_handle : forall line found rest,
  serial_loop in_handle terminator line = (found, rest) ->
  (List.length rest <= List.length in_handle)%nat.
Proof.
  induction in_handle as [|[b|] in_handle IH]; intros line found rest H;
    cbn [serial_loop] in H; cbn [List.length].
  - injection H as _ <-. cbn. lia.
  - destruct (decode b) as [character|].
    + destruct (String.eqb (String character "") terminator).
      * injection H as _ <-. lia.
      * apply IH in H. lia.
    + injection H as _ <-. lia.
  - injection H as _ <-. lia.
Qed.

Lemma lbind_run {A B} (c : L A) (f : A -> L B) s a s1 :
  c s = (Ok a, s1) -> lbind c f s = f a s1.
Proof. intros H. unfold lbind. now rewrite H. Qed.

Section Sending.

Variables (printer_raises write_raises : nat -> option exn).
Hypothesis printer_is_quiet : forall n, printer_raises n = None.

Lemma say_returns msg s :
  say printer_raises msg s
  = (Ok tt, mkLink (wire s) (sent s) (said s ++ [msg]) (S (says s))
                   (writes s)).
Proof. unfold say. now rewrite printer_is_quiet. Qed.

Lemma read_and_say_returns s :
  exists line s',
    read_and_say printer_raises s = (Ok line, s') /\
    sent s' = sent s /\ writes s' = writes s /\
    (List.length (wire s') <= List.length (wire s))%nat /\
    (line <> None -> (List.length (wire s') < List.length (wire s))%nat).
Proof.
  unfold read_and_say, pwar_readline.
  destruct (serial_loop (wire s) cr "") as [[text|] rest] eqn:E.
  - apply serial_loop_shortens in E.
    unfold lbind. rewrite say_returns. cbn [wire sent writes lret].
    eexists _, _. split; [reflexivity|]. cbn. repeat split; lia.
  - apply serial_loop_no_longer in E.
    eexists _, _. split; [reflexivity|]. cbn.
    repeat split; try congruence; exact E.
Qed.

(** With fuel for one line more than the port has bytes, the two loops
    end, and write nothing. *)
Lemma read_to_prompt_returns fuel : forall line s,
  (List.length (wire s) < fuel)%nat ->
  exists s',
    read_to_prompt printer_raises fuel line s = (Ok tt, s') /\
    sent s' = sent s /\ writes s' = writes s /\
    (List.length (wire s') <= List.length (wire s))%nat.
Proof.
  induction fuel as [|fuel IH]; intros line s Hf; [lia|].
  destruct line as [text|]; cbn [read_to_prompt];
    [|exists s; repeat split; lia].
  destruct (contains test_prompt text); [exists s; repeat split; lia|].
  destruct (read_and_say_returns s) as (line' & s1 & E & S1 & W1 & L1 & L2).
  rewrite (lbind_run _ _ _ _ _ E).
  destruct line' as [text'|].
  - destruct (IH (Some text') s1) as (s' & E' & S' & W' & L');
      [specialize (L2 ltac:(discriminate)); lia|].
    exists s'. repeat split; [exact E' | congruence | congruence | lia].
  - destruct fuel; cbn [read_to_prompt]; exists s1; repeat split;
      congruence || lia.
Qed.

Lemma read_to_silence_returns fuel : forall line s,
  (List.length (wire s) < fuel)%nat ->
  exists s',
    read_to_silence printer_raises fuel line s = (Ok tt, s') /\
    sent s' = sent s /\ writes s' = writes s /\
    (List.length (wire s') <= List.length (wire s))%nat.
Proof.
  induction fuel as [|fuel IH]; intros line s Hf; [lia|].
  destruct line as [text|]; cbn [read_to_silence];
    [|exists s; repeat split; lia].
  destruct (read_and_say_returns s) as (line' & s1 & E & S1 & W1 & L1 & L2).
  rewrite (lbind_run _ _ _ _ _ E).
  destruct line' as [text'|].
  - destruct (IH (Some text') s1) as (s' & E' & S' & W' & L');
      [specialize (L2 ltac:(discriminate)); lia|].
    exists s'. repeat split; [exact E' | congruence | congruence | lia].
  - destruct fuel; cbn [read_to_silence]; exists s1; repeat split;
      congruence || lia.
Qed.

Lemma put_returns text s :
  is_ascii text = true -> write_raises (writes s) = None ->
  put write_raises text s
  = (Ok tt, mkLink (wire s) (sent s ++ [text]) (said s) (says s)
                   (S (writes s))).
Proof. intros Ha Hw. unfold put. now rewrite Ha, Hw. Qed.

(** What [esp32_send_first] has done when it comes to send the string:
    it has read, and written the first end of line. *)
Lemma before_sending fuel s :
  (List.length (wire s) < fuel)%nat ->
  write_raises (writes s) = None ->
  exists s',
    sent s' = (sent s ++ [(cr ++ nl)%string])%list /\
    writes s' = S (writes s) /\
    forall (B : Type) (k : L B),
      (say printer_raises SaidReading ;;
       read_to_prompt printer_raises fuel (Some "") ;;
       say printer_raises SaidListing ;;
       put write_raises (cr ++ nl) ;;
       read_to_silence printer_raises fuel (Some "") ;;
       k) s = k s'.
Proof.
  intros Hf Hw.
  destruct (read_to_prompt_returns fuel (Some "")
              (mkLink (wire s) (sent s) (said s ++ [SaidReading])
                      (S (says s)) (writes s)) Hf)
    as (s1 & E1 & S1 & W1 & L1).
  cbn [wire sent writes] in *.
  assert (P : put write_raises (cr ++ nl)
                  (mkLink (wire s1) (sent s1) (said s1 ++ [SaidListing])
                          (S (says s1)) (writes s1))
              = (Ok tt, mkLink (wire s1) (sent s1 ++ [(cr ++ nl)%string])
                               (said s1 ++ [SaidListing]) (S (says s1))
                               (S (writes s1)))).
  { unfold put. cbn [writes]. rewrite W1, Hw. reflexivity. }
  destruct (read_to_silence_returns fuel (Some "")
              (mkLink (wire s1) (sent s1 ++ [(cr ++ nl)%string])
                      (said s1 ++ [SaidListing]) (S (says s1))
                      (S (writes s1)))
              ltac:(cbn [wire]; lia)) as (s2 & E2 & S2 & W2 & L2).
  cbn [wire sent writes] in *.
  exists s2. split; [congruence|]. split; [congruence|].
  intros B k.
  rewrite (lbind_run _ _ _ _ _ (say_returns _ s)).
  rewrite (lbind_run _ _ _ _ _ E1).
  rewrite (lbind_run _ _ _ _ _ (say_returns _ s1)).
  rewrite (lbind_run _ _ _ _ _ P).
  now rewrite (lbind_run _ _ _ _ _ E2).
Qed.

End Sending.

(** X20. When neither the printer nor the port raises and the string is
    ASCII, [esp32_send_first] sends an end of line, the string and an end
    of line, in this order, and returns True, whatever the target has said
    or not said: it does not depend on the prompt of the target having
    been seen. *)
Theorem send_first_needs_no_prompt
        printer_raises write_raises fuel send_string s :
  (forall n, printer_raises n = None) ->
  (forall n, write_raises n = None) ->
  is_ascii send_string = true ->
  (List.length (wire s) < fuel)%nat ->
  exists s',
    esp32_send_first printer_raises write_raises fuel send_string s
    = (Ok true, s') /\
    sent s' = (sent s ++ [(cr ++ nl)%string; send_string;
                          (cr ++ nl)%string])%list.
Proof.
  intros Hp Hw Ha Hf.
  destruct (before_sending printer_raises write_raises Hp fuel s Hf (Hw _))
    as (s1 & S1 & W1 & K).
  unfold esp32_send_first, try_serial. rewrite K.
  rewrite (lbind_run _ _ _ _ _ (say_returns printer_raises Hp _ s1)).
  rewrite (lbind_run _ _ _ _ _
             (put_returns write_raises send_string _ Ha (Hw _))).
  rewrite (lbind_run _ _ _ _ _
             (put_returns write_raises (cr ++ nl) _ eq_refl (Hw _))).
  rewrite (lbind_run _ _ _ _ _ (say_returns printer_raises Hp _ _)).
  eexists. split; [reflexivity|]. cbn [sent]. rewrite S1.
  now rewrite <- !app_assoc.
Qed.

Lemma send_first_needs_no_prompt_witness :
  exists s',
    esp32_send_first quiet quiet 6 "*"
                     (mkLink (arriving "boot" ++ [byte_of (ascii_of_nat 13)])%list
                             [] [] 0 0)
    = (Ok true, s') /\
    sent s' = [cr ++ nl; "*"; cr ++ nl]%string.
Proof.
  apply (send_first_needs_no_prompt quiet quiet 6 "*"
           (mkLink (arriving "boot" ++ [byte_of (ascii_of_nat 13)])%list
                   [] [] 0 0)
           (fun n => eq_refl) (fun n => eq_refl) eq_refl).
  cbn. lia.
Defined.

(** X21. A string that is not ASCII is not sent, and [esp32_send_first] does
    not return False for it: the [UnicodeEncodeError] of its encoding is
    no [SerialException], and leaves the function, after the first end of
    line has been written. *)
Theorem send_string_must_be_ascii
        printer_raises write_raises fuel send_string s :
  (forall n, printer_raises n = None) ->
  write_raises (writes s) = None ->
  is_ascii send_string = false ->
  (List.length (wire s) < fuel)%nat ->
  exists s',
    esp32_send_first printer_raises write_raises fuel send_string s
    = (Raise ValueError, s') /\
    sent s' = (sent s ++ [(cr ++ nl)%string])%list.
Proof.
  intros Hp Hw Ha Hf.
  destruct (before_sending printer_raises write_raises Hp fuel s Hf Hw)
    as (s1 & S1 & W1 & K).
  unfold esp32_send_first, try_serial. rewrite K.
  rewrite (lbind_run _ _ _ _ _ (say_returns printer_raises Hp _ s1)).
  unfold lbind at 1. unfold put at 1. rewrite Ha.
  eexists. split; [reflexivity|]. exact S1.
Qed.

Lemma send_string_must_be_ascii_witness :
  exists s',
    esp32_send_first quiet quiet 1 (String (ascii_of_nat 233) "")
                     (mkLink [] [] [] 0 0)
    = (Raise ValueError, s') /\
    sent s' = [(cr ++ nl)%string].
Proof.
  apply (send_string_must_be_ascii quiet quiet 1
           (String (ascii_of_nat 233) "") (mkLink [] [] [] 0 0)
           (fun n => eq_refl) eq_refl eq_refl).
  cbn. lia.
Defined.

(** X22. When the write of the string raises [SerialException],
    [esp32_send_first] says so and returns False, and the string has not
    gone out. *)
Theorem failed_write_returns_false
        printer_raises write_raises fuel send_string s :
  (forall n, printer_raises n = None) ->
  write_raises (writes s) = None ->
  write_raises (S (writes s)) = Some SerialException ->
  is_ascii send_string = true ->
  (List.length (wire s) < fuel)%nat ->
  exists s',
    esp32_send_first printer_raises write_raises fuel send_string s
    = (Ok false, s') /\
    sent s' = (sent s ++ [(cr ++ nl)%string])%list /\
    last (said s') SaidReading = SaidException SerialException.
Proof.
  intros Hp Hw Hw' Ha Hf.
  destruct (before_sending printer_raises write_raises Hp fuel s Hf Hw)
    as (s1 & S1 & W1 & K).
  unfold esp32_send_first, try_serial. rewrite K.
  rewrite (lbind_run _ _ _ _ _ (say_returns printer_raises Hp _ s1)).
  unfold lbind at 1. unfold put at 1. cbn [writes]. rewrite Ha, W1, Hw'.
  rewrite (lbind_run _ _ _ _ _ (say_returns printer_raises Hp _ _)).
  eexists. split; [reflexivity|]. cbn [sent said]. split; [exact S1|].
  apply last_last.
Qed.

Lemma failed_write_returns_false_witness :
  exists s',
    esp32_send_first quiet (failing 1 SerialException) 1 "*"
                     (mkLink [] [] [] 0 0)
    = (Ok false, s') /\
    sent s' = [(cr ++ nl)%string] /\
    last (said s') SaidReading = SaidException SerialException.
Proof.
  apply (failed_write_returns_false quiet (failing 1 SerialException) 1 "*"
           (mkLink [] [] [] 0 0) (fun n => eq_refl) eq_refl eq_refl eq_refl).
  cbn. lia.
Defined.

Local Close Scope link_scope.

(** ** The JLink device of an MCU *)

Lemma lower_char_again c :
  Zephyr.lower_char (Zephyr.lower_char c) = Zephyr.lower_char c.
Proof.
  destruct c as [[] [] [] [] [] [] [] []]; reflexivity.
Qed.

Lemma lower_again s : Zephyr.lower (Zephyr.lower s) = Zephyr.lower s.
Proof.
  induction s as [|c s IH]; cbn; [reflexivity|].
  now rewrite lower_char_again, IH.
Qed.

(** X23. [jlink_device] gives the device whose name, up to its first
    underscore, is the name of the MCU, letters taken without their case:
    the three devices differ there, so that the first that fits is the
    only one. The name of a device with its suffix is the name of no MCU,
    and the result for it is [None]. *)
Theorem jlink_device_is_by_mcu mcu :
  (forall device,
     Zephyr.jlink_device mcu = Some device <->
     In device Zephyr.JLINK_DEVICE /\
     Zephyr.lower (Zephyr.before_first "_" device) = Zephyr.lower mcu) /\
  Zephyr.jlink_device (Zephyr.lower mcu) = Zephyr.jlink_device mcu /\
  (In mcu Zephyr.JLINK_DEVICE -> Zephyr.jlink_device mcu = None).
Proof.
  unfold Zephyr.jlink_device, Zephyr.JLINK_DEVICE. cbn [Zephyr.first_device].
  split; [intros device; split|split].
  - intros H.
    destruct (String.eqb _ (Zephyr.lower mcu)) eqn:E1;
      [injection H as <-; apply String.eqb_eq in E1; cbn [In]; auto|].
    destruct (String.eqb _ (Zephyr.lower mcu)) eqn:E2 in H;
      [injection H as <-; apply String.eqb_eq in E2; cbn [In]; auto|].
    destruct (String.eqb _ (Zephyr.lower mcu)) eqn:E3 in H;
      [injection H as <-; apply String.eqb_eq in E3; cbn [In]; auto 6|].
    discriminate.
  - intros [Hin H]. cbn [In] in Hin.
    destruct Hin as [<-|[<-|[<-|[]]]]; rewrite <- H; reflexivity.
  - now rewrite lower_again.
  - cbn [In]. intros [<-|[<-|[<-|[]]]]; reflexivity.
Qed.

(** X24. Of the devices that [jlink_device] gives, [download] takes the way
    of the nRF53, with its two cores, exactly for the MCU "nrf5340",
    letters taken without their case, and the way of a single core for
    every other MCU, known or not. *)
Theorem download_way_is_by_mcu
        EXE_EXT getcwd path_join exe_run_returns exists_returns
        mcu connection guard build_dir env prompt b :
  Zephyr.download EXE_EXT getcwd path_join exe_run_returns exists_returns
                  connection (Zephyr.jlink_device mcu) guard build_dir env
                  prompt b
  = if String.eqb (Zephyr.lower mcu) "nrf5340"
    then Zephyr.download_nrf53 EXE_EXT getcwd path_join exe_run_returns
                               exists_returns connection guard build_dir env
                               prompt b
    else Zephyr.download_single_cpu getcwd exe_run_returns connection
                                    (Zephyr.jlink_device mcu) guard build_dir
                                    env prompt b.
Proof.
  unfold Zephyr.download, Zephyr.jlink_device, Zephyr.JLINK_DEVICE.
  cbn [Zephyr.first_device].
  change (Zephyr.lower (Zephyr.before_first "_" "nRF52833_XXAA"))
    with "nrf52833".
  change (Zephyr.lower (Zephyr.before_first "_" "nRF52840_XXAA"))
    with "nrf52840".
  change (Zephyr.lower (Zephyr.before_first "_" "nRF5340_XXAA_APP"))
    with "nrf5340".
  rewrite (String.eqb_sym (Zephyr.lower mcu) "nrf5340").
  destruct (String.eqb "nrf52833" (Zephyr.lower mcu)) eqn:E1.
  - apply String.eqb_eq in E1. rewrite <- E1. reflexivity.
  - destruct (String.eqb "nrf52840" (Zephyr.lower mcu)) eqn:E2.
    + apply String.eqb_eq in E2. rewrite <- E2. reflexivity.
    + destruct (String.eqb "nrf5340" (Zephyr.lower mcu)); reflexivity.
Qed.

(** ** Running the functions of u_run_zephyr *)

Lemma zbind_run {A B} (c : Zephyr.Run A) (f : A -> Zephyr.Run B) b a b1 :
  c b = (Zephyr.Done a, b1) -> Zephyr.bind c f b = f a b1.
Proof. intros H. unfold Zephyr.bind. now rewrite H. Qed.

Lemma zbind_done {A B} (c : Zephyr.Run A) (f : A -> Zephyr.Run B) b r b' :
  Zephyr.bind c f b = (Zephyr.Done r, b') ->
  exists a b1, c b = (Zephyr.Done a, b1) /\ f a b1 = (Zephyr.Done r, b').
Proof.
  unfold Zephyr.bind. destruct (c b) as [[a|e|] b1]; try discriminate.
  intros H. exists a, b1. auto.
Qed.

(** ** The tools *)

Section Tools.

Variable exe_where_returns : nat -> bool.

Lemma check_tools_spec tools_list prompt : forall success b,
  exists b',
    Zephyr.check_tools exe_where_returns tools_list prompt success b
    = (Zephyr.Done
         (success && forallb exe_where_returns
                       (seq (List.length (Zephyr.sought b))
                            (List.length tools_list))), b') /\
    Zephyr.sought b'
    = (Zephyr.sought b ++ map Zephyr.which_string tools_list)%list /\
    Zephyr.printed b' = Zephyr.printed b /\
    Zephyr.reported b' = Zephyr.reported b /\
    Zephyr.commands b' = Zephyr.commands b /\
    Zephyr.asked b' = Zephyr.asked b /\
    Zephyr.watched b' = Zephyr.watched b.
Proof.
  induction tools_list as [|item tools_list IH]; intros success b.
  - exists b. cbn. rewrite andb_true_r, app_nil_r. auto 10.
  - cbn [Zephyr.check_tools List.length seq forallb map].
    unfold Zephyr.bind at 1. cbn [Zephyr.exe_where].
    set (b1 := Zephyr.mkBench _ _ _ _ _ _ _ _ _ _ _).
    assert (L1 : List.length (Zephyr.sought b1)
                 = S (List.length (Zephyr.sought b)))
      by (cbn; rewrite length_app; cbn; lia).
    destruct (exe_where_returns (List.length (Zephyr.sought b))).
    + assert (V : exists b2,
                (match Zephyr.version_switch item with
                 | Some switch =>
                     Zephyr.when (Zephyr.nonempty switch)
                       (Zephyr.exe_version (Zephyr.which_string item) switch)
                 | None => Zephyr.ret tt
                 end) b1 = (Zephyr.Done tt, b2) /\
                Zephyr.sought b2 = Zephyr.sought b1 /\
                Zephyr.printed b2 = Zephyr.printed b1 /\
                Zephyr.reported b2 = Zephyr.reported b1 /\
                Zephyr.commands b2 = Zephyr.commands b1 /\
                Zephyr.asked b2 = Zephyr.asked b1 /\
                Zephyr.watched b2 = Zephyr.watched b1).
      { destruct (Zephyr.version_switch item) as [switch|];
          [|exists b1; auto 10].
        unfold Zephyr.when. destruct (Zephyr.nonempty switch);
          [|exists b1; auto 10].
        eexists. split; [reflexivity|]. cbn. auto 10. }
      destruct V as (b2 & V & S2 & P2 & R2 & C2 & A2 & W2).
      rewrite (zbind_run _ _ _ _ _ V).
      destruct (IH success b2) as (b' & E & S' & P' & R' & C' & A' & W').
      exists b'. rewrite E, S2, L1. cbn [andb].
      rewrite S', S2, P', P2, R', R2, C', C2, A', A2, W', W2.
      subst b1. cbn. rewrite <- app_assoc. auto 10.
    + destruct (IH false b1) as (b' & E & S' & P' & R' & C' & A' & W').
      exists b'. rewrite E. cbn [andb]. rewrite andb_false_r.
      rewrite S', P', R', C', A', W'.
      subst b1. cbn. rewrite <- app_assoc. auto 10.
Qed.

(** X25. [check_installation] looks for every tool of the list, in the
    order of the list, also after one of them was not found, and says
    that the installation is right exactly when every one of them was
    found. *)
Theorem every_tool_is_looked_for tools_list prompt b :
  let r := Zephyr.check_installation exe_where_returns tools_list prompt
                                     b in
  fst r = Zephyr.Done
            (forallb exe_where_returns
               (seq (List.length (Zephyr.sought b))
                    (List.length tools_list))) /\
  Zephyr.sought (snd r)
  = (Zephyr.sought b ++ map Zephyr.which_string tools_list)%list.
Proof.
  cbv zeta. unfold Zephyr.check_installation, Zephyr.bind.
  cbn [Zephyr.printer_string].
  match goal with |- context [Zephyr.check_tools _ _ _ _ ?b1] =>
    destruct (check_tools_spec tools_list prompt true b1)
      as (b' & E & S & _)
  end.
  rewrite E. cbn [fst snd andb Zephyr.sought] in S |- *.
  split; [reflexivity | exact S].
Qed.

End Tools.

(** ** The environment *)

Lemma some_items_false {A} (l : list A) :
  Zephyr.some_items l = false <-> l = [].
Proof. destruct l; cbn; split; congruence. Qed.

Lemma get_set key k v d :
  Zephyr.get key (Zephyr.set k v d)
  = if String.eqb k key then Some v else Zephyr.get key d.
Proof.
  induction d as [|[k' v'] d IH]; cbn [Zephyr.set Zephyr.get].
  - reflexivity.
  - destruct (String.eqb k' k) eqn:E; cbn [Zephyr.get].
    + apply String.eqb_eq in E as ->. now destruct (String.eqb k key).
    + rewrite IH. destruct (String.eqb k' key) eqn:E'; [|reflexivity].
      apply String.eqb_eq in E' as <-. rewrite String.eqb_sym in E.
      now rewrite E.
Qed.

Lemma get_absent key (d : Zephyr.Dict) :
  ~ In key (map fst d) -> Zephyr.get key d = None.
Proof.
  induction d as [|[k v] d IH]; cbn; [reflexivity|]. intros H.
  destruct (String.eqb k key) eqn:E.
  - apply String.eqb_eq in E. tauto.
  - apply IH. tauto.
Qed.

(** [{**a, **b}] holds, for each key, what [b] holds for it, and what
    [a] holds for the keys that [b] has not. *)
Lemma get_merge key : forall b a,
  NoDup (map fst b) ->
  Zephyr.get key (Zephyr.merge a b)
  = match Zephyr.get key b with
    | Some v => Some v
    | None => Zephyr.get key a
    end.
Proof.
  unfold Zephyr.merge.
  induction b as [|[k v] b IH]; intros a H; cbn [fold_left fst snd];
    [reflexivity|].
  cbn [map fst] in H. apply NoDup_cons_iff in H as [Hk H].
  rewrite (IH _ H), get_set. cbn [Zephyr.get].
  destruct (String.eqb k key) eqn:E; [|reflexivity].
  apply String.eqb_eq in E as ->. now rewrite (get_absent _ _ Hk).
Qed.

Lemma set_some k v d : Zephyr.set k v d <> [].
Proof.
  destruct d as [|[k' v'] d]; cbn; [discriminate|].
  destruct (String.eqb k' k); discriminate.
Qed.

Lemma merge_some a b : b <> [] -> Zephyr.merge a b <> [].
Proof.
  unfold Zephyr.merge. destruct b as [|[k v] b]; [congruence|]. intros _.
  cbn [fold_left fst snd]. generalize (set_some k v a).
  generalize (Zephyr.set k v a). clear.
  induction b as [|[k v] b IH]; intros d H; cbn [fold_left fst snd];
    [exact H|].
  apply IH, set_some.
Qed.

Section Capture.

Variable split_command_line_args : string -> list string.
Variable exe_run_captures : nat -> Zephyr.Dict.

(** What [capture] does: it runs the command until it gives variables,
    [chances] times at most. *)
Lemma capture_spec command prompt : forall chances b,
  exists tries env b',
    Zephyr.capture split_command_line_args exe_run_captures chances
                   command prompt b = (Zephyr.Done env, b') /\
    (tries <= chances)%nat /\
    Zephyr.commands b'
    = (Zephyr.commands b
         ++ repeat (Zephyr.mkCommand (split_command_line_args command)
                                     None None) tries)%list /\
    (forall k, (S k < tries)%nat ->
               exe_run_captures (List.length (Zephyr.commands b) + k) = []) /\
    (env = [] ->
     tries = chances /\
     forall k, (k < tries)%nat ->
               exe_run_captures (List.length (Zephyr.commands b) + k) = []) /\
    (env <> [] ->
     exists i, tries = S i /\
               env = exe_run_captures (List.length (Zephyr.commands b) + i)).
Proof.
  induction chances as [|chances IH]; intros b.
  - exists 0%nat, [], b. cbn [Zephyr.capture Zephyr.ret repeat].
    rewrite app_nil_r.
    repeat split; try lia; try congruence; intros; lia.
  - cbn [Zephyr.capture]. unfold Zephyr.bind at 1.
    cbn [Zephyr.exe_run_capture].
    set (cmd := Zephyr.mkCommand (split_command_line_args command)
                                 None None).
    set (b1 := Zephyr.mkBench _ _ _ _ _ _ _ _ _ _ _).
    destruct (exe_run_captures (List.length (Zephyr.commands b)))
      as [|item env] eqn:E; cbn [Zephyr.some_items].
    + unfold Zephyr.bind at 1. cbn [Zephyr.printer_string].
      set (b2 := Zephyr.mkBench _ _ _ _ _ _ _ _ _ _ _).
      destruct (IH b2) as (tries & env & b' & R & B & C & F & N & Y).
      assert (L : List.length (Zephyr.commands b2)
                  = S (List.length (Zephyr.commands b)))
        by (subst b2 b1; cbn; rewrite length_app; cbn; lia).
      rewrite L in *.
      exists (S tries), env, b'. rewrite R.
      split; [reflexivity|]. split; [lia|]. split.
      { rewrite C. subst b2 b1. cbn [Zephyr.commands repeat].
        now rewrite <- app_assoc. }
      assert (G : forall k, (k < S tries)%nat ->
                (forall j, (j < tries)%nat ->
                   exe_run_captures
                     (S (List.length (Zephyr.commands b)) + j) = []) ->
                exe_run_captures (List.length (Zephyr.commands b) + k)
                = []).
      { intros [|k] Hk Hall; [now rewrite Nat.add_0_r|].
        rewrite <- Nat.add_succ_comm. apply Hall. lia. }
      split; [|split].
      * intros [|k] Hk; [now rewrite Nat.add_0_r|].
        rewrite <- Nat.add_succ_comm. apply F. lia.
      * intros He. destruct (N He) as [-> Hall]. split; [reflexivity|].
        intros k Hk. now apply G.
      * intros He. destruct (Y He) as (i & -> & ->). exists (S i).
        split; [reflexivity|]. now rewrite <- Nat.add_succ_comm.
    + exists 1%nat, (item :: env), b1. cbn [Zephyr.ret].
      split; [reflexivity|]. split; [lia|]. split; [reflexivity|].
      split; [intros; lia|]. split; [discriminate|].
      intros _. exists 0%nat. now rewrite Nat.add_0_r.
Qed.

Variable ZEPHYR_ENV_CMD GIT_BASH_ENV_CMD : string.

(** X26. [set_env] runs the first command until it gives variables, three
    times at most, and then the second one in the same way; it gives the
    two environments in one, the variables of the second command taking
    the place of those of the first, when both gave variables, and an
    empty one otherwise. The second command is not run when the first one
    gave nothing. *)
Theorem environment_is_both_or_nothing prompt b :
  let r := Zephyr.set_env ZEPHYR_ENV_CMD GIT_BASH_ENV_CMD
                          split_command_line_args exe_run_captures
                          prompt b in
  let captured k :=
    exe_run_captures (List.length (Zephyr.commands b) + k) in
  let first_command :=
    Zephyr.mkCommand (split_command_line_args ZEPHYR_ENV_CMD) None None in
  let second_command :=
    Zephyr.mkCommand (split_command_line_args GIT_BASH_ENV_CMD) None None in
  exists env,
    fst r = Zephyr.Done env /\
    (env <> [] ->
     exists i j,
       (i < 3)%nat /\ (j < 3)%nat /\
       (forall k, (k < i)%nat -> captured k = []) /\
       captured i <> [] /\
       (forall k, (k < j)%nat -> captured (S i + k)%nat = []) /\
       captured (S i + j)%nat <> [] /\
       env = Zephyr.merge (captured i) (captured (S i + j)%nat) /\
       (forall key,
          NoDup (map fst (captured (S i + j)%nat)) ->
          Zephyr.get key env
          = match Zephyr.get key (captured (S i + j)%nat) with
            | Some value => Some value
            | None => Zephyr.get key (captured i)
            end) /\
       Zephyr.commands (snd r)
       = (Zephyr.commands b ++ repeat first_command (S i)
            ++ repeat second_command (S j))%list) /\
    (env = [] ->
     ((forall k, (k < 3)%nat -> captured k = []) /\
      Zephyr.commands (snd r)
      = (Zephyr.commands b ++ repeat first_command 3)%list) \/
     (exists i,
        (i < 3)%nat /\ captured i <> [] /\
        (forall k, (k < 3)%nat -> captured (S i + k)%nat = []) /\
        Zephyr.commands (snd r)
        = (Zephyr.commands b ++ repeat first_command (S i)
             ++ repeat second_command 3)%list)).
Proof.
  cbv zeta. unfold Zephyr.set_env.
  destruct (capture_spec ZEPHYR_ENV_CMD prompt 3 b)
    as (n & env1 & b1 & R1 & B1 & C1 & F1 & N1 & Y1).
  rewrite (zbind_run _ _ _ _ _ R1).
  destruct env1 as [|item1 env1]; cbn [Zephyr.some_items];
    unfold Zephyr.ret.
  - destruct (N1 eq_refl) as [-> Hall].
    exists []. cbn [fst snd]. split; [reflexivity|].
    split; [congruence|]. intros _. left. split; [exact Hall|exact C1].
  - destruct Y1 as (i & -> & E1); [discriminate|].
    destruct (capture_spec GIT_BASH_ENV_CMD prompt 3 b1)
      as (m & env2 & b2 & R2 & B2 & C2 & F2 & N2 & Y2).
    rewrite (zbind_run _ _ _ _ _ R2).
    assert (L : List.length (Zephyr.commands b1)
                = (List.length (Zephyr.commands b) + S i)%nat)
      by (rewrite C1, length_app, repeat_length; reflexivity).
    rewrite L in *.
    assert (P : forall k, (List.length (Zephyr.commands b) + S i + k
                           = List.length (Zephyr.commands b) + (S i + k))%nat)
      by (intros; lia).
    destruct env2 as [|item2 env2]; cbn [Zephyr.some_items];
      unfold Zephyr.ret.
    + destruct (N2 eq_refl) as [-> Hall].
      exists []. cbn [fst snd]. split; [reflexivity|].
      split; [congruence|]. intros _. right. exists i.
      split; [lia|]. split; [rewrite <- E1; discriminate|]. split.
      * intros k Hk. rewrite <- P. now apply Hall.
      * rewrite C2, C1. now rewrite <- app_assoc.
    + destruct Y2 as (j & -> & E2); [discriminate|].
      exists (Zephyr.merge (item1 :: env1) (item2 :: env2)).
      cbn [fst snd]. split; [reflexivity|].
      split; [|intros H; exfalso; revert H; now apply merge_some].
      intros _. exists i, j. rewrite P in E2.
      split; [lia|]. split; [lia|]. split.
      { intros k Hk. apply F1. lia. }
      split; [rewrite <- E1; discriminate|]. split.
      { intros k Hk. rewrite <- P. apply F2. lia. }
      split; [rewrite <- E2; discriminate|].
      rewrite <- E1, <- E2. split; [reflexivity|]. split.
      { intros key H. now apply get_merge. }
      rewrite C2, C1. now rewrite <- app_assoc.
Qed.

End Capture.

(** ** The build *)

Lemma concat_empty_cons h t :
  String.concat "" (h :: t) = h ++ String.concat "" t.
Proof.
  destruct t; cbn; [now rewrite string_app_nil_r | reflexivity].
Qed.

Lemma add_defines_later : forall defines idx defines_text,
  Zephyr.add_defines (S idx) defines defines_text
  = defines_text
      ++ String.concat "" (map (fun define => " " ++ "-D" ++ define) defines).
Proof.
  induction defines as [|define defines IH]; intros idx defines_text.
  - cbn. now rewrite string_app_nil_r.
  - cbn [Zephyr.add_defines Nat.eqb map]. rewrite IH, concat_empty_cons.
    now rewrite string_app_assoc.
Qed.

Lemma concat_cons sep (f : string -> string) : forall l x,
  String.concat sep (map f (x :: l))
  = f x ++ String.concat "" (map (fun y => sep ++ f y) l).
Proof.
  induction l as [|y l IH]; intros x.
  - cbn. now rewrite string_app_nil_r.
  - change (String.concat sep (map f (x :: y :: l)))
      with (f x ++ sep ++ String.concat sep (map f (y :: l))).
    rewrite IH. cbn [map]. rewrite concat_empty_cons.
    now rewrite string_app_assoc.
Qed.

(** The text of [U_FLAGS]: the defines, each after [-D], with a space
    between them. *)
Lemma add_defines_text defines :
  Zephyr.add_defines 0 defines ""
  = String.concat " " (map (append "-D") defines).
Proof.
  destruct defines as [|define defines]; [reflexivity|].
  cbn [Zephyr.add_defines Nat.eqb]. rewrite add_defines_later.
  rewrite (concat_cons " " (append "-D")). reflexivity.
Qed.

Section Build.

Variable ZEPHYR_DIR BUILD_SUBDIR sep getcwd : string.
Variable BUILD_GUARD_TIME_SECONDS : Z.
Variable exe_run_returns deltree_returns : nat -> bool.

(** X27. Whatever it is given, [build] hands to west, and leaves to its
    caller, an environment in which [CCACHE_DISABLE] is 1 and, when
    there are defines, [U_FLAGS] is the defines, each after [-D], with a
    space between them; every other variable is as it was, and so is
    [U_FLAGS] when there is no define. When the build directory could
    not be cleaned west is not called. *)
Theorem build_sets_its_environment board clean ubxlib_dir defines env
        prompt b :
  let r := Zephyr.build ZEPHYR_DIR BUILD_SUBDIR sep getcwd
                        BUILD_GUARD_TIME_SECONDS exe_run_returns
                        deltree_returns board clean ubxlib_dir defines env
                        prompt b in
  exists build_dir env',
    fst r = Zephyr.Done (build_dir, env') /\
    Zephyr.get "CCACHE_DISABLE" env' = Some "1" /\
    Zephyr.get "U_FLAGS" env'
    = (if Zephyr.some_items defines
       then Some (String.concat " " (map (append "-D") defines))
       else Zephyr.get "U_FLAGS" env) /\
    (forall key, key <> "CCACHE_DISABLE" -> key <> "U_FLAGS" ->
                 Zephyr.get key env' = Zephyr.get key env) /\
    (if clean && negb (deltree_returns (Zephyr.deleted b))
     then build_dir = None /\
          Zephyr.commands (snd r) = Zephyr.commands b /\
          Zephyr.reported (snd r)
          = (Zephyr.reported b
               ++ [Zephyr.mkReport Zephyr.EVENT_TYPE_BUILD
                     Zephyr.EVENT_ERROR
                     (Zephyr.Text "unable to clean build directory")])%list
     else build_dir
          = (if exe_run_returns (List.length (Zephyr.commands b))
             then Some (getcwd ++ sep ++ BUILD_SUBDIR) else None) /\
          Zephyr.commands (snd r)
          = (Zephyr.commands b
               ++ [Zephyr.mkCommand
                     (Zephyr.build_call_list ZEPHYR_DIR BUILD_SUBDIR sep
                                             board clean ubxlib_dir)
                     (Some BUILD_GUARD_TIME_SECONDS) (Some env')])%list /\
          Zephyr.reported (snd r) = Zephyr.reported b).
Proof.
  cbv zeta. unfold Zephyr.build.
  set (env0 := Zephyr.set "CCACHE_DISABLE" "1" env).
  set (env1 := if Zephyr.some_items defines
               then Zephyr.set "U_FLAGS" (Zephyr.add_defines 0 defines "")
                               env0
               else env0).
  assert (G1 : Zephyr.get "CCACHE_DISABLE" env1 = Some "1").
  { subst env1 env0. destruct (Zephyr.some_items defines);
      rewrite ?get_set; reflexivity. }
  assert (G2 : Zephyr.get "U_FLAGS" env1
               = if Zephyr.some_items defines
                 then Some (String.concat " " (map (append "-D") defines))
                 else Zephyr.get "U_FLAGS" env).
  { subst env1 env0. destruct (Zephyr.some_items defines);
      rewrite ?get_set; cbn [String.eqb Ascii.eqb Bool.eqb];
      [now rewrite add_defines_text | reflexivity]. }
  assert (G3 : forall key, key <> "CCACHE_DISABLE" -> key <> "U_FLAGS" ->
                           Zephyr.get key env1 = Zephyr.get key env).
  { intros key H1 H2. subst env1 env0.
    assert (E1 : String.eqb "CCACHE_DISABLE" key = false)
      by (apply String.eqb_neq; congruence).
    assert (E2 : String.eqb "U_FLAGS" key = false)
      by (apply String.eqb_neq; congruence).
    destruct (Zephyr.some_items defines); rewrite ?get_set, ?E2, ?get_set, E1;
      reflexivity. }
  exists (if clean && negb (deltree_returns (Zephyr.deleted b))
          then None
          else if exe_run_returns (List.length (Zephyr.commands b))
               then Some (getcwd ++ sep ++ BUILD_SUBDIR) else None), env1.
  assert (S : forall b0,
            Zephyr.commands b0 = Zephyr.commands b ->
            Zephyr.reported b0 = Zephyr.reported b ->
            Zephyr.deleted b0 = Zephyr.deleted b ->
            (if Zephyr.some_items defines
             then Zephyr.bind
                    (Zephyr.printer_string
                       (prompt ++ "setting environment variables U_FLAGS="
                          ++ Zephyr.add_defines 0 defines ""))
                    (fun _ => Zephyr.ret
                                (Zephyr.set "U_FLAGS"
                                   (Zephyr.add_defines 0 defines "") env0))
             else Zephyr.ret env0) b0
            = (Zephyr.Done env1,
               if Zephyr.some_items defines
               then snd (Zephyr.printer_string
                           (prompt
                              ++ "setting environment variables U_FLAGS="
                              ++ Zephyr.add_defines 0 defines "") b0)
               else b0)).
  { intros b0 _ _ _. subst env1. destruct (Zephyr.some_items defines);
      reflexivity. }
  rewrite (zbind_run _ _ _ _ _ (S b eq_refl eq_refl eq_refl)).
  set (b1 := if Zephyr.some_items defines then _ else b).
  assert (C1 : Zephyr.commands b1 = Zephyr.commands b)
    by (subst b1; destruct (Zephyr.some_items defines); reflexivity).
  assert (R1 : Zephyr.reported b1 = Zephyr.reported b)
    by (subst b1; destruct (Zephyr.some_items defines); reflexivity).
  assert (D1 : Zephyr.deleted b1 = Zephyr.deleted b)
    by (subst b1; destruct (Zephyr.some_items defines); reflexivity).
  clearbody b1 env1. clear S.
  destruct clean; cbn [negb andb].
  - unfold Zephyr.bind, Zephyr.deltree. rewrite D1.
    destruct (deltree_returns (Zephyr.deleted b)); cbn [negb].
    + cbn. rewrite C1, R1. repeat split; auto.
    + cbn. rewrite C1, R1. repeat split; auto.
  - cbn. rewrite C1, R1. repeat split; auto.
Qed.

End Build.

(** ** The download *)

Section Download.

Variable EXE_EXT getcwd : string.
Variable path_join : string -> list string -> string.
Variable exe_run_returns exists_returns : nat -> bool.

(** One step of [download_nrf53] is one command. *)
Lemma nrfjprog_run connection message arguments guard env prompt b :
  exists b',
    Zephyr.nrfjprog EXE_EXT getcwd exe_run_returns connection message
                    arguments guard env prompt b
    = (Zephyr.Done (exe_run_returns (List.length (Zephyr.commands b))), b')
    /\ Zephyr.commands b'
       = (Zephyr.commands b
            ++ [Zephyr.mkCommand
                  (Zephyr.nrfjprog_cmd EXE_EXT connection ++ arguments)
                  (Some guard) (Some env)])%list
    /\ Zephyr.probed b' = Zephyr.probed b
    /\ Zephyr.reported b' = Zephyr.reported b
    /\ Zephyr.asked b' = Zephyr.asked b.
Proof. eexists. split; [reflexivity|]. cbn. auto. Qed.

Lemma download_nrf53_steps connection guard build_dir env prompt b :
  exists steps last_step b',
    Zephyr.download_nrf53 EXE_EXT getcwd path_join exe_run_returns
                          exists_returns connection guard build_dir env
                          prompt b
    = (Zephyr.Done
         (exe_run_returns
            (List.length (Zephyr.commands b) + List.length steps)), b') /\
    Zephyr.commands b'
    = (Zephyr.commands b ++ steps ++ [last_step])%list /\
    (List.length steps < 4)%nat /\
    (forall k, (k < List.length steps)%nat ->
               exe_run_returns (List.length (Zephyr.commands b) + k)
               = true) /\
    Forall (fun step =>
              Zephyr.guard_time_seconds step = Some guard /\
              Zephyr.given_env step = Some env)
           (steps ++ [last_step]) /\
    (exe_run_returns (List.length (Zephyr.commands b) + List.length steps)
     = true ->
     Zephyr.call_list last_step
     = (Zephyr.nrfjprog_cmd EXE_EXT connection
          ++ ["--coprocessor"; "CP_APPLICATION"; "--chiperase";
              "--program"; path_join build_dir ["zephyr"; "merged.hex"]])
         %list) /\
    Zephyr.reported b' = Zephyr.reported b /\
    Zephyr.asked b' = Zephyr.asked b.
Proof.
  unfold Zephyr.download_nrf53.
  unfold Zephyr.bind at 1. cbn [Zephyr.path_exists].
  set (b0 := Zephyr.mkBench _ _ _ _ _ _ _ _ _ _ _).
  assert (C0 : Zephyr.commands b0 = Zephyr.commands b) by reflexivity.
  assert (Rp0 : Zephyr.reported b0 = Zephyr.reported b) by reflexivity.
  assert (A0 : Zephyr.asked b0 = Zephyr.asked b) by reflexivity.
  clearbody b0.
  set (len := List.length (Zephyr.commands b)).
  assert (L0 : List.length (Zephyr.commands b0) = len)
    by (now rewrite C0).
  (* the first step *)
  assert (S1 : exists steps1 b1,
            (if exists_returns (Zephyr.probed b)
             then Zephyr.nrfjprog EXE_EXT getcwd exe_run_returns
                    connection "---- recover NETCPU ----"
                    ["--coprocessor"; "CP_NETWORK"; "--recover"] guard env
                    prompt
             else Zephyr.ret true) b0
            = (Zephyr.Done
                 (match steps1 with
                  | [] => true
                  | _ => exe_run_returns len
                  end), b1) /\
            Zephyr.commands b1 = (Zephyr.commands b ++ steps1)%list /\
            (List.length steps1 <= 1)%nat /\
            Forall (fun step =>
                      Zephyr.guard_time_seconds step = Some guard /\
                      Zephyr.given_env step = Some env) steps1 /\
            Zephyr.reported b1 = Zephyr.reported b /\
            Zephyr.asked b1 = Zephyr.asked b).
  { destruct (exists_returns (Zephyr.probed b)).
    - destruct (nrfjprog_run connection "---- recover NETCPU ----"
                  ["--coprocessor"; "CP_NETWORK"; "--recover"] guard env
                  prompt b0) as (b1 & R & C & _ & Rp & A).
      exists [Zephyr.mkCommand
                (Zephyr.nrfjprog_cmd EXE_EXT connection
                   ++ ["--coprocessor"; "CP_NETWORK"; "--recover"])
                (Some guard) (Some env)], b1.
      rewrite R, L0, C, C0, Rp, A. repeat split; auto.
    - exists [], b0. rewrite app_nil_r. repeat split; auto. }
  destruct S1 as (steps1 & b1 & R1 & C1 & N1 & F1 & Rp1 & A1).
  rewrite (zbind_run _ _ _ _ _ R1). clear R1.
  assert (L1 : List.length (Zephyr.commands b1)
               = (len + List.length steps1)%nat)
    by (rewrite C1, length_app; reflexivity).
  assert (T1 : match steps1 with [] => true | _ => exe_run_returns len end
               = true ->
               forall k, (k < List.length steps1)%nat ->
                         exe_run_returns (len + k) = true).
  { destruct steps1 as [|s1 [|]]; cbn [List.length] in *; try lia.
    intros H [|k] Hk; cbn [List.length] in Hk;
      [now rewrite Nat.add_0_r | lia]. }
  destruct (match steps1 with [] => true | _ => exe_run_returns len end)
    eqn:E1.
  2:{ (* the first step has failed *)
    destruct steps1 as [|s1 [|]]; cbn [List.length] in *;
      try discriminate; try lia.
    cbv [Zephyr.bind Zephyr.ret fst snd andb].
    exists [], s1, b1. rewrite C1. cbn [app List.length].
    rewrite Nat.add_0_r. rewrite E1.
    repeat split; auto; try lia; try discriminate. }
  specialize (T1 eq_refl).
  (* the second step *)
  destruct (nrfjprog_run connection "--- recover APP ----"
              ["--coprocessor"; "CP_APPLICATION"; "--recover"] guard env
              prompt b1) as (b2 & R2 & C2 & P2 & Rp2 & A2).
  rewrite (zbind_run _ _ _ _ _ R2). clear R2.
  rewrite L1 in *.
  set (s2 := Zephyr.mkCommand _ _ _) in C2.
  assert (F2 : Zephyr.guard_time_seconds s2 = Some guard /\
               Zephyr.given_env s2 = Some env) by auto.
  destruct (exe_run_returns (len + List.length steps1)) eqn:E2.
  2:{ cbv [Zephyr.bind Zephyr.ret fst snd andb].
      exists steps1, s2, b2. rewrite C2, C1, <- app_assoc.
      rewrite E2. split; [reflexivity|]. split; [reflexivity|].
      split; [lia|]. split; [exact T1|].
      split; [apply Forall_app; auto|].
      split; [discriminate|]. split; congruence. }
  (* the third step *)
  unfold Zephyr.bind at 1. cbn [Zephyr.path_exists].
  set (b3 := Zephyr.mkBench _ _ _ _ _ _ _ _ _ _ _).
  assert (C3 : Zephyr.commands b3
               = (Zephyr.commands b ++ steps1 ++ [s2])%list)
    by (subst b3; cbn [Zephyr.commands]; rewrite C2, C1;
        now rewrite <- app_assoc).
  assert (Rp3 : Zephyr.reported b3 = Zephyr.reported b)
    by (subst b3; cbn [Zephyr.reported]; congruence).
  assert (A3 : Zephyr.asked b3 = Zephyr.asked b)
    by (subst b3; cbn [Zephyr.asked]; congruence).
  clearbody b3. cbn [andb].
  assert (L3 : List.length (Zephyr.commands b3)
               = (len + List.length (steps1 ++ [s2]))%nat)
    by (rewrite C3, length_app; reflexivity).
  assert (T3 : forall k, (k < List.length (steps1 ++ [s2]))%nat ->
                         exe_run_returns (len + k) = true).
  { intros k Hk. rewrite length_app in Hk. cbn [List.length] in Hk.
    destruct (Nat.eq_dec k (List.length steps1)) as [->|];
      [exact E2 | apply T1; lia]. }
  assert (F3 : Forall (fun step =>
                         Zephyr.guard_time_seconds step = Some guard /\
                         Zephyr.given_env step = Some env)
                      (steps1 ++ [s2])) by (apply Forall_app; auto).
  assert (N3 : (List.length (steps1 ++ [s2]) <= 2)%nat)
    by (rewrite length_app; cbn [List.length]; lia).
  set (app_step :=
         Zephyr.mkCommand
           (Zephyr.nrfjprog_cmd EXE_EXT connection
              ++ ["--coprocessor"; "CP_APPLICATION"; "--chiperase";
                  "--program";
                  path_join build_dir ["zephyr"; "merged.hex"]])
           (Some guard) (Some env)).
  assert (Last : forall steps b4,
            Zephyr.commands b4 = (Zephyr.commands b ++ steps)%list ->
            Zephyr.reported b4 = Zephyr.reported b ->
            Zephyr.asked b4 = Zephyr.asked b ->
            (List.length steps < 4)%nat ->
            (forall k, (k < List.length steps)%nat ->
                       exe_run_returns (len + k) = true) ->
            Forall (fun step =>
                      Zephyr.guard_time_seconds step = Some guard /\
                      Zephyr.given_env step = Some env) steps ->
            exists steps0 last_step b',
              Zephyr.nrfjprog EXE_EXT getcwd exe_run_returns
                connection "---- download APP ----"
                ["--coprocessor"; "CP_APPLICATION"; "--chiperase";
                 "--program";
                 path_join build_dir ["zephyr"; "merged.hex"]]
                guard env prompt b4
              = (Zephyr.Done (exe_run_returns
                                (len + List.length steps0)), b') /\
              Zephyr.commands b'
              = (Zephyr.commands b ++ steps0 ++ [last_step])%list /\
              (List.length steps0 < 4)%nat /\
              (forall k, (k < List.length steps0)%nat ->
                         exe_run_returns (len + k) = true) /\
              Forall (fun step =>
                        Zephyr.guard_time_seconds step = Some guard /\
                        Zephyr.given_env step = Some env)
                     (steps0 ++ [last_step]) /\
              (exe_run_returns (len + List.length steps0) = true ->
               Zephyr.call_list last_step = Zephyr.call_list app_step) /\
              Zephyr.reported b' = Zephyr.reported b /\
              Zephyr.asked b' = Zephyr.asked b).
  { intros steps b4 C4 Rp4 A4 N4 T4 F4.
    destruct (nrfjprog_run connection "---- download APP ----"
                ["--coprocessor"; "CP_APPLICATION"; "--chiperase";
                 "--program"; path_join build_dir ["zephyr"; "merged.hex"]]
                guard env prompt b4) as (b5 & R5 & C5 & _ & Rp5 & A5).
    rewrite R5. exists steps, app_step, b5.
    rewrite C5, C4, <- app_assoc, length_app. fold len.
    split; [reflexivity|]. split; [reflexivity|].
    split; [exact N4|]. split; [exact T4|].
    split; [apply Forall_app; split; [exact F4|]; constructor; auto|].
    split; [reflexivity|]. split; congruence. }
  destruct (exists_returns (Zephyr.probed b2)).
  - destruct (nrfjprog_run connection "---- download NETCPU ----"
                ["--coprocessor"; "CP_NETWORK"; "--chiperase"; "--program";
                 path_join build_dir
                           ["hci_rpmsg"; "zephyr"; "merged_CPUNET.hex"]]
                guard env prompt b3) as (b4 & R4 & C4 & _ & Rp4 & A4).
    rewrite (zbind_run _ _ _ _ _ R4). clear R4.
    set (s4 := Zephyr.mkCommand _ _ _) in C4.
    rewrite L3.
    destruct (exe_run_returns (len + List.length (steps1 ++ [s2])))
      eqn:E4.
    + apply (Last ((steps1 ++ [s2]) ++ [s4])%list b4).
      * rewrite C4, C3.
        now rewrite <- (app_assoc (Zephyr.commands b) (steps1 ++ [s2]) [s4]).
      * congruence.
      * congruence.
      * rewrite length_app. cbn [List.length]. lia.
      * intros k Hk. rewrite length_app in Hk. cbn [List.length] in Hk.
        destruct (Nat.eq_dec k (List.length (steps1 ++ [s2]))) as [->|];
          [exact E4 | apply T3; lia].
      * apply Forall_app. split; [exact F3|]. constructor; auto.
    + unfold Zephyr.ret. exists (steps1 ++ [s2])%list, s4, b4.
      rewrite C4, C3.
      rewrite <- (app_assoc (Zephyr.commands b) (steps1 ++ [s2]) [s4]).
      rewrite E4.
      split; [reflexivity|]. split; [reflexivity|].
      split; [lia|]. split; [exact T3|].
      split; [apply Forall_app; split; [exact F3|]; constructor; auto|].
      split; [discriminate|]. split; congruence.
  - rewrite (zbind_run _ _ _ _ _ (eq_refl : Zephyr.ret true b3 = _)).
    apply (Last (steps1 ++ [s2])%list b3); auto. lia.
Qed.

(** X28. [download_nrf53] runs its steps one after the other and stops at
    the first that fails: it runs one command at least and four at most,
    all with the guard time and the environment that it was given, every
    one but the last has succeeded, and what it returns is what the last
    one returned. When it returns True the last one has programmed the
    application core. *)
Theorem nrf53_stops_at_first_failure connection guard build_dir env prompt
        b :
  let r := Zephyr.download_nrf53 EXE_EXT getcwd path_join exe_run_returns
                                 exists_returns connection guard build_dir
                                 env prompt b in
  let returned k :=
    exe_run_returns (List.length (Zephyr.commands b) + k) in
  exists steps last_step,
    Zephyr.commands (snd r)
    = (Zephyr.commands b ++ steps ++ [last_step])%list /\
    (List.length steps < 4)%nat /\
    (forall k, (k < List.length steps)%nat -> returned k = true) /\
    fst r = Zephyr.Done (returned (List.length steps)) /\
    Forall (fun step =>
              Zephyr.guard_time_seconds step = Some guard /\
              Zephyr.given_env step = Some env)
           (steps ++ [last_step]) /\
    (returned (List.length steps) = true ->
     Zephyr.call_list last_step
     = (Zephyr.nrfjprog_cmd EXE_EXT connection
          ++ ["--coprocessor"; "CP_APPLICATION"; "--chiperase";
              "--program"; path_join build_dir ["zephyr"; "merged.hex"]])
         %list).
Proof.
  cbv zeta.
  destruct (download_nrf53_steps connection guard build_dir env prompt b)
    as (steps & last_step & b' & R & C & N & T & F & A & _).
  rewrite R. cbn [fst snd]. exists steps, last_step. auto 7.
Qed.

End Download.

(** ** Trying the download again *)

Section Retries.

Variable EXE_EXT getcwd : string.
Variable DOWNLOAD_GUARD_TIME_SECONDS : Z.
Variable path_join : string -> list string -> string.
Variable exe_run_returns keep_going_returns exists_returns : nat -> bool.

(** A download runs one command at least, and returns what the last of
    its commands returned. *)
Lemma download_returns connection jlink_device_name guard build_dir env
      prompt b :
  exists b',
    Zephyr.download EXE_EXT getcwd path_join exe_run_returns
                    exists_returns connection jlink_device_name guard
                    build_dir env prompt b
    = (Zephyr.Done
         (exe_run_returns (pred (List.length (Zephyr.commands b')))), b')
    /\ (List.length (Zephyr.commands b)
        < List.length (Zephyr.commands b'))%nat
    /\ Zephyr.reported b' = Zephyr.reported b
    /\ Zephyr.asked b' = Zephyr.asked b.
Proof.
  assert (Single : exists b',
            Zephyr.download_single_cpu getcwd exe_run_returns connection
              jlink_device_name guard build_dir env prompt b
            = (Zephyr.Done
                 (exe_run_returns
                    (pred (List.length (Zephyr.commands b')))), b')
            /\ (List.length (Zephyr.commands b)
                < List.length (Zephyr.commands b'))%nat
            /\ Zephyr.reported b' = Zephyr.reported b
            /\ Zephyr.asked b' = Zephyr.asked b).
  { exists (snd (Zephyr.download_single_cpu getcwd exe_run_returns
                   connection jlink_device_name guard build_dir env prompt
                   b)).
    unfold Zephyr.download_single_cpu, Zephyr.bind.
    cbn [Zephyr.print_call_list Zephyr.printer_string Zephyr.exe_run
         Zephyr.commands Zephyr.reported Zephyr.asked fst snd].
    rewrite length_app. cbn [List.length].
    rewrite Nat.add_1_r. cbn [pred].
    split; [reflexivity|]. auto. }
  unfold Zephyr.download.
  destruct jlink_device_name as [name|]; [|exact Single].
  destruct (String.eqb name "nRF5340_XXAA_APP"); [|exact Single].
  destruct (download_nrf53_steps EXE_EXT getcwd path_join exe_run_returns
              exists_returns connection guard build_dir env prompt b)
    as (steps & last_step & b' & R & C & _ & _ & _ & _ & Rp & A).
  exists b'. rewrite R, C, !length_app. cbn [List.length].
  replace (pred (List.length (Zephyr.commands b)
                 + (List.length steps + 1)))
    with (List.length (Zephyr.commands b) + List.length steps)%nat by lia.
  split; [reflexivity|]. split; [lia|]. auto.
Qed.

Lemma download_loop_spec connection jlink_device_name build_dir env prompt :
  forall chances b,
  exists downloaded failures b',
    Zephyr.download_loop EXE_EXT getcwd DOWNLOAD_GUARD_TIME_SECONDS
      path_join exe_run_returns keep_going_returns exists_returns chances
      connection jlink_device_name build_dir env prompt b
    = (Zephyr.Done downloaded, b') /\
    (failures <= chances)%nat /\
    Zephyr.reported b'
    = (Zephyr.reported b
         ++ repeat (Zephyr.mkReport Zephyr.EVENT_TYPE_DOWNLOAD
                      Zephyr.EVENT_WARNING
                      (Zephyr.Text "unable to download, will retry..."))
                   failures)%list /\
    (forall k, (k < failures)%nat ->
               keep_going_returns (Zephyr.asked b + k) = true) /\
    (downloaded = true ->
     keep_going_returns (Zephyr.asked b + failures) = true /\
     (List.length (Zephyr.commands b)
      < List.length (Zephyr.commands b'))%nat /\
     exe_run_returns (pred (List.length (Zephyr.commands b'))) = true) /\
    (downloaded = false ->
     failures = chances \/
     keep_going_returns (Zephyr.asked b + failures) = false) /\
    (List.length (Zephyr.commands b) + failures
     <= List.length (Zephyr.commands b'))%nat.
Proof.
  induction chances as [|chances IH]; intros b.
  - exists false, 0%nat. eexists. cbn [Zephyr.download_loop].
    unfold Zephyr.bind, Zephyr.keep_going, Zephyr.ret.
    split; [reflexivity|]. cbn [Zephyr.reported Zephyr.commands repeat].
    rewrite app_nil_r.
    repeat split; auto; try lia; try discriminate; intros; lia.
  - cbn [Zephyr.download_loop]. unfold Zephyr.bind at 1.
    cbn [Zephyr.keep_going].
    set (b1 := Zephyr.mkBench _ _ _ _ _ _ _ _ _ _ _).
    destruct (keep_going_returns (Zephyr.asked b)) eqn:G.
    2:{ exists false, 0%nat, b1. unfold Zephyr.ret.
        split; [reflexivity|]. cbn [Zephyr.reported Zephyr.commands repeat].
        subst b1. cbn [Zephyr.reported Zephyr.commands].
        rewrite app_nil_r, Nat.add_0_r.
        repeat split; auto; try lia; try discriminate; intros; lia. }
    destruct (download_returns connection jlink_device_name
                DOWNLOAD_GUARD_TIME_SECONDS build_dir env prompt b1)
      as (b2 & R2 & C2 & Rp2 & A2).
    rewrite (zbind_run _ _ _ _ _ R2).
    destruct (exe_run_returns (pred (List.length (Zephyr.commands b2))))
      eqn:E.
    + exists true, 0%nat. eexists.
      unfold Zephyr.bind, Zephyr.keep_going, Zephyr.ret.
      split; [reflexivity|]. cbn [Zephyr.reported Zephyr.commands repeat].
      rewrite app_nil_r, Nat.add_0_r, Rp2.
      subst b1. cbn [Zephyr.commands Zephyr.reported] in *.
      repeat split; auto; try lia; try discriminate; intros; lia.
    + unfold Zephyr.bind at 1. cbn [Zephyr.reporter_event].
      set (b3 := Zephyr.mkBench _ _ _ _ _ _ _ _ _ _ _).
      destruct (IH b3)
        as (downloaded & failures & b' & R & N & Rp & K & Y & F & C).
      assert (A3 : Zephyr.asked b3 = S (Zephyr.asked b))
        by (subst b3; cbn [Zephyr.asked]; rewrite A2; reflexivity).
      assert (C3 : (List.length (Zephyr.commands b)
                    < List.length (Zephyr.commands b3))%nat)
        by (subst b3 b1; cbn [Zephyr.commands] in *; exact C2).
      rewrite A3 in *.
      exists downloaded, (S failures), b'. rewrite R.
      split; [reflexivity|]. split; [lia|]. split.
      { rewrite Rp. subst b3. cbn [Zephyr.reported repeat].
        rewrite Rp2. subst b1. cbn [Zephyr.reported].
        now rewrite <- app_assoc. }
      split.
      { intros [|k] Hk; [now rewrite Nat.add_0_r|].
        rewrite <- Nat.add_succ_comm. apply K. lia. }
      split.
      { intros D. destruct (Y D) as (Y1 & Y2 & Y3).
        rewrite <- Nat.add_succ_comm. repeat split; auto. lia. }
      split.
      { intros D. destruct (F D) as [->|F']; [now left|right].
        now rewrite <- Nat.add_succ_comm. }
      lia.
Qed.

(** X29. [run] tries the download three times at most, each time after
    [keep_going] has said so, and reports one warning for each time that
    it has failed. It has downloaded when the last command that it ran
    has succeeded; it has not when three downloads have failed, or when
    [keep_going] has said no. *)
Theorem download_is_tried_three_times connection jlink_device_name
        build_dir env prompt b :
  let r := Zephyr.download_loop EXE_EXT getcwd DOWNLOAD_GUARD_TIME_SECONDS
             path_join exe_run_returns keep_going_returns exists_returns 3
             connection jlink_device_name build_dir env prompt b in
  exists downloaded failures,
    fst r = Zephyr.Done downloaded /\
    (failures <= 3)%nat /\
    Zephyr.reported (snd r)
    = (Zephyr.reported b
         ++ repeat (Zephyr.mkReport Zephyr.EVENT_TYPE_DOWNLOAD
                      Zephyr.EVENT_WARNING
                      (Zephyr.Text "unable to download, will retry..."))
                   failures)%list /\
    (List.length (Zephyr.commands b) + failures
     <= List.length (Zephyr.commands (snd r)))%nat /\
    (forall k, (k < failures)%nat ->
               keep_going_returns (Zephyr.asked b + k) = true) /\
    (downloaded = true ->
     keep_going_returns (Zephyr.asked b + failures) = true /\
     (List.length (Zephyr.commands b)
      < List.length (Zephyr.commands (snd r)))%nat /\
     exe_run_returns (pred (List.length (Zephyr.commands (snd r))))
     = true) /\
    (downloaded = false ->
     failures = 3%nat \/
     keep_going_returns (Zephyr.asked b + failures) = false).
Proof.
  cbv zeta.
  destruct (download_loop_spec connection jlink_device_name build_dir env
                               prompt 3 b)
    as (downloaded & failures & b' & R & N & Rp & K & Y & F & C).
  rewrite R. cbn [fst snd]. exists downloaded, failures. auto 8.
Qed.

End Retries.

(** ** What a run ends with *)

(** The last thing that a branch of [run] does: it reports, and it has its
    value. *)
Lemma verdict_reported t e d (v : Z) b return_value b' :
  Zephyr.bind (Zephyr.reporter_event t e d) (fun _ => Zephyr.ret v) b
  = (Zephyr.Done return_value, b') ->
  return_value = v /\
  Zephyr.reported b' = (Zephyr.reported b ++ [Zephyr.mkReport t e d])%list.
Proof.
  unfold Zephyr.bind, Zephyr.reporter_event, Zephyr.ret.
  intros H. injection H as <- <-. auto.
Qed.

Ltac run_step H :=
  cbv beta in H;
  lazymatch type of H with
  | Zephyr.bind (Zephyr.reporter_event _ _ _) (fun _ => Zephyr.ret _) _ = _ =>
      apply verdict_reported in H as [-> H]
  | Zephyr.bind (if (?v =? 0)%Z then _ else _) _ _ = _ =>
      let E := fresh "E" in
      destruct (v =? 0)%Z eqn:E;
      [apply Z.eqb_eq in E | apply Z.eqb_neq in E]; cbv iota in H
  | Zephyr.bind _ _ _ = _ =>
      let a := fresh "a" in
      let b1 := fresh "b" in
      apply zbind_done in H as (a & b1 & _ & H)
  | (if ?c then _ else _) _ = _ => destruct c eqn:?
  | (let (_, _) := ?p in _) _ = _ => destruct p
  | match ?x with _ => _ end _ = _ => destruct x
  end.

Section Verdict.

Variable ZEPHYR_ENV_CMD GIT_BASH_ENV_CMD ZEPHYR_DIR BUILD_SUBDIR : string.
Variable EXE_EXT JLINK_PATH sep getcwd : string.
Variable BUILD_GUARD_TIME_SECONDS DOWNLOAD_GUARD_TIME_SECONDS : Z.
Variable RUN_GUARD_TIME_SECONDS RUN_INACTIVITY_TIME_SECONDS : Z.
Variable split_command_line_args : string -> list string.
Variable path_join : string -> list string -> string.
Variable get_instance_text : list Z -> string.
Variable exe_run_returns : nat -> bool.
Variable exe_run_captures : nat -> Zephyr.Dict.
Variable exe_where_returns keep_going_returns exists_returns : nat -> bool.
Variable now : nat -> Q.
Variable deltree_returns : nat -> bool.
Variable locked_connection : bool.
Variable monitor_now : nat -> Q.
Variable monitor_printer_raises : nat -> option exn.
Variable monitor_turns : list Turn.

(** X30. The last event that a run which returns has reported is its
    verdict. A run returns 0 exactly when that event is that the test is
    complete; with any other value the event is a failure. When it is not
    the test that failed the value is 1 for a build that failed and for a
    board that is not given, and -1 for the tools, the environment, the
    lock and the download. *)
Theorem run_ends_with_its_verdict instance mcu board connection clean
        defines ubxlib_dir working_dir test_report_handle b return_value
        b' :
  Zephyr.run ZEPHYR_ENV_CMD GIT_BASH_ENV_CMD ZEPHYR_DIR BUILD_SUBDIR
             EXE_EXT JLINK_PATH sep getcwd BUILD_GUARD_TIME_SECONDS
             DOWNLOAD_GUARD_TIME_SECONDS RUN_GUARD_TIME_SECONDS
             RUN_INACTIVITY_TIME_SECONDS split_command_line_args path_join
             get_instance_text exe_run_returns exe_run_captures
             exe_where_returns keep_going_returns exists_returns now
             deltree_returns locked_connection monitor_now
             monitor_printer_raises monitor_turns instance mcu board
             connection clean defines ubxlib_dir working_dir
             test_report_handle b
  = (Zephyr.Done return_value, b') ->
  exists before verdict,
    Zephyr.reported b' = (before ++ [verdict])%list /\
    (return_value = 0%Z <->
     verdict = Zephyr.mkReport Zephyr.EVENT_TYPE_TEST Zephyr.EVENT_COMPLETE
                               Zephyr.NoDetail) /\
    (return_value <> 0%Z -> Zephyr.event verdict = Zephyr.EVENT_FAILED) /\
    (Zephyr.event_type verdict <> Zephyr.EVENT_TYPE_TEST ->
     (Zephyr.event_type verdict = Zephyr.EVENT_TYPE_BUILD \/
      Zephyr.detail verdict = Zephyr.Text "unable to find overlay file" ->
      return_value = 1%Z) /\
     (Zephyr.event_type verdict <> Zephyr.EVENT_TYPE_BUILD ->
      Zephyr.detail verdict <> Zephyr.Text "unable to find overlay file" ->
      return_value = (-1)%Z)).
Proof.
  unfold Zephyr.run. cbv zeta. intros H.
  repeat run_step H;
    try (eexists _, _; split; [exact H|]; cbn;
         repeat split; try congruence; try discriminate;
         intuition (try congruence; try discriminate)).
Qed.

End Verdict.

Lemma run_ends_with_its_verdict_witness :
  let r :=
    Zephyr.run "env.cmd" "git.cmd" "zephyr" "build" ".exe" "JLink.exe" "/"
               "/home" 1800 60 120 30 (fun command => [command])
               (fun dir names => String.concat "/" (dir :: names)) dotted
               (fun _ => true) (fun _ => [("PATH", "/bin")]) (fun _ => true)
               (fun _ => true) (fun _ => false) seconds (fun _ => true) true
               seconds quiet
               [line_turn "1 Tests 0 Failures 0 Ignored"; idle_turn]
               [12%Z; 0%Z] "nrf52840" "nrf52840dk_nrf52840"
               (Some [("debugger", Some "123")]) false [] "/ubxlib" "" false
               Zephyr.new_bench in
  exists before verdict,
    Zephyr.reported (snd r) = (before ++ [verdict])%list /\
    (0%Z = 0%Z <->
     verdict = Zephyr.mkReport Zephyr.EVENT_TYPE_TEST Zephyr.EVENT_COMPLETE
                               Zephyr.NoDetail) /\
    (0%Z <> 0%Z -> Zephyr.event verdict = Zephyr.EVENT_FAILED) /\
    (Zephyr.event_type verdict <> Zephyr.EVENT_TYPE_TEST ->
     (Zephyr.event_type verdict = Zephyr.EVENT_TYPE_BUILD \/
      Zephyr.detail verdict = Zephyr.Text "unable to find overlay file" ->
      0%Z = 1%Z) /\
     (Zephyr.event_type verdict <> Zephyr.EVENT_TYPE_BUILD ->
      Zephyr.detail verdict <> Zephyr.Text "unable to find overlay file" ->
      0%Z = (-1)%Z)).
Proof.
  cbv zeta.
  apply (run_ends_with_its_verdict
           "env.cmd" "git.cmd" "zephyr" "build" ".exe" "JLink.exe" "/"
           "/home" 1800 60 120 30 (fun command => [command])
           (fun dir names => String.concat "/" (dir :: names)) dotted
           (fun _ => true) (fun _ => [("PATH", "/bin")]) (fun _ => true)
           (fun _ => true) (fun _ => false) seconds (fun _ => true) true
           seconds quiet
           [line_turn "1 Tests 0 Failures 0 Ignored"; idle_turn]
           [12%Z; 0%Z] "nrf52840" "nrf52840dk_nrf52840"
           (Some [("debugger", Some "123")]) false [] "/ubxlib" "" false
           Zephyr.new_bench 0%Z).
  vm_compute. reflexivity.
Defined.
